(** * httpc: retry orchestration, backoff policies and error classification

    A shallow embedding of the Go package [httpc] (backoff.go, status.go,
    error.go, request.go) and the properties of its retry loop, its backoff
    policies, its status predicates and its classified failure [HTTPErr].

    Conventions of the embedding:
    - Go's [int], [int64] and [time.Duration] are [Z] with the 64-bit
      two's-complement wrap-around written out ([GoInt.wrap]);
    - [float64] is Rocq's primitive binary64 [float];
    - Go strings are [string]; [map[string][]string] is a [gmap];
    - an [error] value is an inductive type that records whether the dynamic
      type has a [Retry() bool] method;
    - the random source, the transport and the race between the timer and
      the context in [select] are inputs of the model. *)

From Stdlib Require Import ZArith List String Ascii Bool Lia Floats DecimalString.
From stdpp Require Import base option list gmap strings.

Local Open Scope Z_scope.

(** ** Go integers *)

Module GoInt.

Definition min_int : Z := - 2 ^ 63.
Definition max_int : Z := 2 ^ 63 - 1.

(** The value an [int64] holds after an arithmetic result [z]. *)
Definition wrap (z : Z) : Z := (z + 2 ^ 63) mod 2 ^ 64 - 2 ^ 63.

Definition is_int (z : Z) : Prop := min_int <= z <= max_int.

Definition add (a b : Z) : Z := wrap (a + b).
Definition mul (a b : Z) : Z := wrap (a * b).
(** Go's [/] on integers truncates toward zero. *)
Definition div (a b : Z) : Z := wrap (Z.quot a b).

End GoInt.

(** ** status.go: status predicates *)

Definition StatusFn : Type := Z -> bool.

Fixpoint StatusIn (status : list Z) : StatusFn :=
  fun statusCode =>
    match status with
    | [] => false
    | code :: rest => if code =? statusCode then true else StatusIn rest statusCode
    end.

Definition StatusInRange (low high : Z) : StatusFn :=
  fun statusCode => (low <=? statusCode) && (high >=? statusCode).

Definition StatusNotIn (status : list Z) : StatusFn :=
  fun statusCode => negb (StatusIn status statusCode).

Definition StatusNot (status : Z) : StatusFn :=
  fun statusCode => negb (status =? statusCode).

Definition StatusOK : StatusFn := fun status => 200 =? status.
Definition StatusCreated : StatusFn := fun status => 201 =? status.
Definition StatusNoContent : StatusFn := fun status => 204 =? status.
Definition StatusNotFound : StatusFn := fun status => 404 =? status.
Definition StatusUnprocessableEntity : StatusFn := fun status => 422 =? status.
Definition StatusInternalServerError : StatusFn := fun status => 500 =? status.

(** [for _, fn := range fns { if fn(status) { return true } }; return false] *)
Fixpoint statusMatches (status : Z) (fns : list StatusFn) : bool :=
  match fns with
  | [] => false
  | fn :: rest => if fn status then true else statusMatches status rest
  end.

(** ** Go strings: the library functions the package calls *)

Module Str.

Definition code (c : ascii) : Z := Z.of_N (N_of_ascii c).
Definition chr (z : Z) : ascii := ascii_of_N (Z.to_N z).

Definition between (lo hi : ascii) (c : ascii) : bool :=
  (code lo <=? code c) && (code c <=? code hi).

(** [strings.Contains(s, substr)] *)
Fixpoint Contains (s substr : string) : bool :=
  if String.prefix substr s then true
  else match s with
       | EmptyString => false
       | String _ rest => Contains rest substr
       end.

(** [strings.Join(parts, sep)] *)
Fixpoint Join (parts : list string) (sep : string) : string :=
  match parts with
  | [] => ""
  | [p] => p
  | p :: rest => p +:+ sep +:+ Join rest sep
  end.

(** [strings.Split(s, sep)] for a one-byte separator: the pieces between
    the separators, in order (one piece when there is no separator). *)
Fixpoint Split (s : string) (sep : ascii) : list string :=
  match s with
  | EmptyString => [""]
  | String c rest =>
      if Ascii.eqb c sep then "" :: Split rest sep
      else match Split rest sep with
           | [] => [String c ""]
           | p :: ps => String c p :: ps
           end
  end.

(** [strings.Cut(s, sep)] for a one-byte separator. *)
Fixpoint Cut (s : string) (sep : ascii) : string * string * bool :=
  match s with
  | EmptyString => ("", "", false)
  | String c rest =>
      if Ascii.eqb c sep then ("", rest, true)
      else let '(before, after, found) := Cut rest sep in
           (String c before, after, found)
  end.

Definition hexdigit (digits : string) (n : Z) : ascii :=
  match String.get (Z.to_nat n) digits with
  | Some c => c
  | None => "?"%char
  end.

Definition upperhex : string := "0123456789ABCDEF".
Definition lowerhex : string := "0123456789abcdef".

(** [fmt.Sprintf("%d", n)] *)
Definition Itoa (n : Z) : string := NilEmpty.string_of_int (Z.to_int n).

(** [strconv.Quote], which [fmt]'s verb [%q] applies to a string: exact on
    ASCII input.  A byte above 0x7f is written as Go writes a byte that is
    not valid UTF-8 ([\xNN]); the Unicode printability tables that decide
    the rendering of valid multi-byte runes are not modelled. *)
Definition quoteByte (c : ascii) : string :=
  let n := code c in
  if n =? 34 then String "\" (String c "") else
  if n =? 92 then "\\" else
  if n =? 7 then "\a" else
  if n =? 8 then "\b" else
  if n =? 12 then "\f" else
  if n =? 10 then "\n" else
  if n =? 13 then "\r" else
  if n =? 9 then "\t" else
  if n =? 11 then "\v" else
  if (n <? 32) || (127 <=? n) then
    String "\" (String "x" (String (hexdigit lowerhex (n / 16))
                              (String (hexdigit lowerhex (n mod 16)) "")))
  else String c "".

Fixpoint quoteBody (s : string) : string :=
  match s with
  | EmptyString => ""
  | String c rest => quoteByte c +:+ quoteBody rest
  end.

Definition Quote (s : string) : string :=
  String (chr 34) (quoteBody s +:+ String (chr 34) "").

End Str.

(** ** net/url: query strings and the rendering of a URL *)

Module URL.
Import Str.

Definition ishex (c : ascii) : bool :=
  between "0" "9" c || between "a" "f" c || between "A" "F" c.

Definition unhex (c : ascii) : Z :=
  if between "0" "9" c then code c - code "0"
  else if between "a" "f" c then code c - code "a" + 10
  else if between "A" "F" c then code c - code "A" + 10
  else 0.

(** [shouldEscape(c, encodeQueryComponent)]: letters, digits and [-_.~]
    are the only bytes written as themselves. *)
Definition shouldEscape (c : ascii) : bool :=
  if between "a" "z" c || between "A" "Z" c || between "0" "9" c then false
  else if Ascii.eqb c "-" || Ascii.eqb c "_" || Ascii.eqb c "." || Ascii.eqb c "~"
       then false
       else true.

(** [url.QueryEscape] *)
Fixpoint QueryEscape (s : string) : string :=
  match s with
  | EmptyString => ""
  | String c rest =>
      if Ascii.eqb c " " then String "+" (QueryEscape rest)
      else if shouldEscape c then
        String "%" (String (hexdigit upperhex (code c / 16))
                      (String (hexdigit upperhex (code c mod 16)) (QueryEscape rest)))
      else String c (QueryEscape rest)
  end.

(** [url.QueryUnescape]: [None] is the [EscapeError] of a percent sign that
    two hex digits do not follow. *)
Fixpoint QueryUnescape (s : string) : option string :=
  match s with
  | EmptyString => Some ""
  | String c rest =>
      if Ascii.eqb c "%" then
        match rest with
        | String h (String l rest') =>
            if ishex h && ishex l then
              match QueryUnescape rest' with
              | Some r => Some (String (chr (unhex h * 16 + unhex l)) r)
              | None => None
              end
            else None
        | _ => None
        end
      else
        match QueryUnescape rest with
        | Some r => Some (String (if Ascii.eqb c "+" then " "%char else c) r)
        | None => None
        end
  end.

(** [url.Values], a [map[string][]string]. *)
Abbreviation Values := (gmap string (list string)).

(** [Values.Get]: the first value of the key, or the empty string. *)
Definition Get (v : Values) (key : string) : string :=
  match v !! key with
  | Some (first :: _) => first
  | _ => ""
  end.

(** [Values.Set]: the key now has this one value. *)
Definition Set_ (v : Values) (key value : string) : Values :=
  <[key := [value]]> v.

(** One step of the loop of [parseQuery] (Go 1.17 and later), on the piece
    of the query before the next ampersand: a piece with a semicolon, an
    empty piece and a piece that does not unescape are skipped. *)
Definition parsePair (m : Values) (piece : string) : Values :=
  if Contains piece ";" then m
  else if String.eqb piece "" then m
  else
    let '(key, value, _) := Cut piece "=" in
    match QueryUnescape key with
    | None => m
    | Some key =>
        match QueryUnescape value with
        | None => m
        | Some value => <[key := default [] (m !! key) ++ [value]]> m
        end
    end.

(** [url.ParseQuery] with its error dropped, as [URL.Query] uses it. *)
Definition ParseQuery (query : string) : Values :=
  fold_left parsePair (Split query "&") ∅.

Fixpoint insertKey (kv : string * list string) (l : list (string * list string))
  : list (string * list string) :=
  match l with
  | [] => [kv]
  | kv' :: rest =>
      if String.leb kv.1 kv'.1 then kv :: l else kv' :: insertKey kv rest
  end.

(** The entries of the map in the order of their keys ([sort.Strings]). *)
Definition sortedEntries (v : Values) : list (string * list string) :=
  foldr insertKey [] (map_to_list v).

(** [Values.Encode]: [key=value] pairs joined by ampersands, keys sorted,
    every value of a key in its order. *)
Definition Encode (v : Values) : string :=
  Join
    (flat_map (fun kv => map (fun value => QueryEscape kv.1 +:+ "=" +:+ QueryEscape value) kv.2)
       (sortedEntries v))
    "&".

(** [url.URL], as far as the package looks into it: the query, and around
    it the text [String] writes before the question mark (scheme,
    authority and escaped path) and after the hash (the escaped
    fragment). *)
Record t : Type := mk {
  Prefix : string;
  ForceQuery : bool;
  RawQuery : string;
  Fragment : string
}.

(** The zero value of [url.URL]. *)
Definition zero : t := mk "" false "" "".

(** [URL.Query] *)
Definition Query (u : t) : Values := ParseQuery (RawQuery u).

(** [URL.String] *)
Definition String_ (u : t) : string :=
  Prefix u
  +:+ (if ForceQuery u || negb (String.eqb (RawQuery u) "") then "?" +:+ RawQuery u else "")
  +:+ (if String.eqb (Fragment u) "" then "" else "#" +:+ Fragment u).

Definition withRawQuery (u : t) (q : string) : t :=
  mk (Prefix u) (ForceQuery u) q (Fragment u).

End URL.

(** ** io: one-shot byte streams *)

Module IO.

(** An [io.ReadCloser] by what its readers observe: the bytes still to be
    read, the error [Read] reports after them ([None] for [io.EOF]), and
    what [Close] returns. *)
Record ReadCloser : Type := mkReadCloser {
  pending : string;
  readErr : option string;
  closeErr : option string;
  closed : bool
}.

Definition consume (r : ReadCloser) : ReadCloser :=
  mkReadCloser "" (readErr r) (closeErr r) (closed r).

(** [ioutil.ReadAll(r)]: the bytes, the error, and the stream afterwards. *)
Definition ReadAll (r : ReadCloser) : string * option string * ReadCloser :=
  (pending r, readErr r, consume r).

(** [io.Copy(ioutil.Discard, r)] *)
Definition CopyDiscard (r : ReadCloser) : option string * ReadCloser :=
  (readErr r, consume r).

(** [r.Close()] *)
Definition Close (r : ReadCloser) : option string * ReadCloser :=
  (closeErr r, mkReadCloser (pending r) (readErr r) (closeErr r) true).

(** [ioutil.NopCloser(&buf)] over a buffer holding [data]. *)
Definition NopCloser (data : string) : ReadCloser :=
  mkReadCloser data None None false.

End IO.

(** ** net/http: headers, requests and responses *)

Module HTTP.
Import Str.

Abbreviation Header := (gmap string (list string)).

(** [validHeaderFieldByte]: the token characters of RFC 7230. *)
Definition validHeaderFieldByte (c : ascii) : bool :=
  between "a" "z" c || between "A" "Z" c || between "0" "9" c
  || Contains "!#$%&'*+-.^_`|~" (String c "").

Fixpoint canonicalize (upper : bool) (a : string) : string :=
  match a with
  | EmptyString => ""
  | String c rest =>
      let c' :=
        if upper && between "a" "z" c then chr (code c - 32)
        else if negb upper && between "A" "Z" c then chr (code c + 32)
        else c in
      String c' (canonicalize (Ascii.eqb c' "-") rest)
  end.

Fixpoint allValidOrSpace (a : string) : bool :=
  match a with
  | EmptyString => true
  | String c rest =>
      (validHeaderFieldByte c || Ascii.eqb c " ") && allValidOrSpace rest
  end.

(** [textproto.CanonicalMIMEHeaderKey]: a key with a byte that is not a
    token character is left as it is. *)
Definition CanonicalMIMEHeaderKey (a : string) : string :=
  if negb (allValidOrSpace a) then a
  else if Contains a " " then a
  else canonicalize true a.

(** [Header.Get] *)
Definition Get (h : Header) (key : string) : string :=
  match h !! CanonicalMIMEHeaderKey key with
  | Some (first :: _) => first
  | _ => ""
  end.

(** [Header.Set] *)
Definition Set_ (h : Header) (key value : string) : Header :=
  <[CanonicalMIMEHeaderKey key := [value]]> h.

(** [Header.Add] *)
Definition Add (h : Header) (key value : string) : Header :=
  let k := CanonicalMIMEHeaderKey key in
  <[k := default [] (h !! k) ++ [value]]> h.

(** [context.Context] as the package uses it for values: the attempt
    number stored under [backoffNumKey], when one was stored. *)
Record Context : Type := mkContext { backoffNum : option Z }.

Definition Background : Context := mkContext None.

(** [*http.Request].  [Header] is [None] for a nil map and [Body] is
    [None] for a nil body, which is what [http.NewRequest] leaves in a
    request made without a body. *)
Record Request : Type := mkRequest {
  URL : URL.t;
  Method : string;
  Header_ : option Header;
  Body : option IO.ReadCloser;
  Ctx : Context
}.

(** [*http.Response]; [Request_] is [None] for a nil pointer. *)
Record Response : Type := mkResponse {
  StatusCode : Z;
  RespBody : IO.ReadCloser;
  Request_ : option Request
}.

Definition withBody (resp : Response) (b : IO.ReadCloser) : Response :=
  mkResponse (StatusCode resp) b (Request_ resp).

Definition withRequest (resp : Response) (r : option Request) : Response :=
  mkResponse (StatusCode resp) (RespBody resp) r.

End HTTP.

(** ** error.go: the classified failure *)

Record HTTPErr : Type := mkHTTPErr {
  caller : string;
  u : URL.t;
  method : string;
  errMsg : string;
  respBody : string;
  reqBody : string;
  statusCode : Z;
  retry_ : bool;
  notFound : bool;
  exists_ : bool
}.

Definition REDACTED : string := "REDACTED".

(** The query of [errorBase]: the values under [access_token] and [secret]
    are replaced when [Get] finds one that is not empty. *)
Definition redactQuery (q : URL.Values) : URL.Values :=
  let q := if negb (String.eqb (URL.Get q "access_token") "")
           then URL.Set_ q "access_token" REDACTED else q in
  if negb (String.eqb (URL.Get q "secret") "")
  then URL.Set_ q "secret" REDACTED else q.

Definition set_u (e : HTTPErr) (u' : URL.t) : HTTPErr :=
  mkHTTPErr (caller e) u' (method e) (errMsg e) (respBody e) (reqBody e)
            (statusCode e) (retry_ e) (notFound e) (exists_ e).

(** [(e *HTTPErr) errorBase()]: the text, and the receiver afterwards (the
    method stores the re-encoded query in [e.u.RawQuery]). *)
Definition errorBase (e : HTTPErr) : string * HTTPErr :=
  let parts := [] in
  let parts := if negb (statusCode e =? 0)
               then parts ++ ["status=" +:+ Str.Itoa (statusCode e)] else parts in
  let parts := if negb (String.eqb (method e) "")
               then parts ++ ["method=" +:+ method e] else parts in
  if negb (String.eqb (URL.String_ (u e)) "") then
    let q := redactQuery (URL.Query (u e)) in
    let u' := URL.withRawQuery (u e) (URL.Encode q) in
    (Str.Join (parts ++ ["url=" +:+ Str.Quote (URL.String_ u')]) " ", set_u e u')
  else (Str.Join parts " ", e).

(** [(e *HTTPErr) Error()] *)
Definition Error (e : HTTPErr) : string * HTTPErr :=
  let '(base, e') := errorBase e in
  let parts := [base] in
  let parts := if negb (String.eqb (errMsg e') "")
               then parts ++ ["err=" +:+ Str.Quote (errMsg e')] else parts in
  let parts := if negb (String.eqb (respBody e') "")
               then parts ++ ["response_body=" +:+ Str.Quote (respBody e')] else parts in
  let parts := if negb (String.eqb (reqBody e') "")
               then parts ++ ["request_body=" +:+ Str.Quote (reqBody e')] else parts in
  (Str.Join parts " ", e').

(** [(e *HTTPErr) BackoffMessage()] *)
Definition BackoffMessage (e : HTTPErr) : string * HTTPErr := errorBase e.

Definition HTTPErr_Retry (e : HTTPErr) : bool := retry_ e.
Definition HTTPErr_NotFound (e : HTTPErr) : bool := notFound e.
Definition HTTPErr_Exists (e : HTTPErr) : bool := exists_ e.

(** The errors of [context]: what [ctx.Err()] returns once [ctx.Done()] is
    closed. *)
Inductive ctxErr : Type := Canceled | DeadlineExceeded.

(** Go's [error] values by dynamic type.  Only [retrierError] (a caller's
    type such as the tests' [fakeRetryErr]) and [httpError] have a method
    [Retry() bool]. *)
Inductive error : Type :=
| errorString (msg : string)
| retrierError (msg : string) (retry : bool)
| httpError (e : HTTPErr)
| contextError (c : ctxErr).

(** [err.Error()] *)
Definition error_Error (err : error) : string :=
  match err with
  | errorString msg => msg
  | retrierError msg _ => msg
  | httpError e => (Error e).1
  | contextError Canceled => "context canceled"
  | contextError DeadlineExceeded => "context deadline exceeded"
  end.

(** The type assertion [r, ok := err.(retrier)] followed by [r.Retry()]:
    [None] when the assertion fails. *)
Definition asRetrier (err : error) : option bool :=
  match err with
  | retrierError _ r => Some r
  | httpError e => Some (HTTPErr_Retry e)
  | errorString _ | contextError _ => None
  end.

(** [isRetryErr] of request.go: [ok && r.Retry()] *)
Definition isRetryErr (err : option error) : bool :=
  match err with
  | None => false
  | Some err => match asRetrier err with Some r => r | None => false end
  end.

Record errOpt : Type := mkErrOpt {
  opt_retry : bool;
  opt_notFound : bool;
  opt_exists : bool;
  opt_err : option error;
  opt_caller : string;
  opt_resp : option HTTP.Response
}.

Definition ErrOptFn : Type := errOpt -> errOpt.

Definition Op (c : string) : ErrOptFn := fun o =>
  mkErrOpt (opt_retry o) (opt_notFound o) (opt_exists o) (opt_err o) c (opt_resp o).
Definition Err (err : option error) : ErrOptFn := fun o =>
  mkErrOpt (opt_retry o) (opt_notFound o) (opt_exists o) err (opt_caller o) (opt_resp o).
Definition Resp (resp : option HTTP.Response) : ErrOptFn := fun o =>
  mkErrOpt (opt_retry o) (opt_notFound o) (opt_exists o) (opt_err o) (opt_caller o) resp.
Definition Retry : ErrOptFn := fun o =>
  mkErrOpt true (opt_notFound o) (opt_exists o) (opt_err o) (opt_caller o) (opt_resp o).
Definition NotFound : ErrOptFn := fun o =>
  mkErrOpt (opt_retry o) true (opt_exists o) (opt_err o) (opt_caller o) (opt_resp o).
Definition Exists : ErrOptFn := fun o =>
  mkErrOpt (opt_retry o) (opt_notFound o) true (opt_err o) (opt_caller o) (opt_resp o).

Definition set_errMsg (e : HTTPErr) (m : string) : HTTPErr :=
  mkHTTPErr (caller e) (u e) (method e) m (respBody e) (reqBody e)
            (statusCode e) (retry_ e) (notFound e) (exists_ e).
Definition set_method (e : HTTPErr) (m : string) : HTTPErr :=
  mkHTTPErr (caller e) (u e) m (errMsg e) (respBody e) (reqBody e)
            (statusCode e) (retry_ e) (notFound e) (exists_ e).
Definition set_respBody (e : HTTPErr) (b : string) : HTTPErr :=
  mkHTTPErr (caller e) (u e) (method e) (errMsg e) b (reqBody e)
            (statusCode e) (retry_ e) (notFound e) (exists_ e).
Definition set_statusCode (e : HTTPErr) (s : Z) : HTTPErr :=
  mkHTTPErr (caller e) (u e) (method e) (errMsg e) (respBody e) (reqBody e)
            s (retry_ e) (notFound e) (exists_ e).

(** The branch [if req := opt.resp.Request; req != nil] of [NewClientErr]:
    the URL and the method are recorded, and the body of a request whose
    Content-Type contains [application/json] is read and stored, in the
    field [respBody].  [None] is the panic of [ioutil.ReadAll] on a nil
    body. *)
Definition recordRequest (e : HTTPErr) (req : HTTP.Request)
  : option (HTTPErr * HTTP.Request) :=
  let e := set_method (set_u e (HTTP.URL req)) (HTTP.Method req) in
  match HTTP.Header_ req with
  | Some h =>
      if Str.Contains (HTTP.Get h "Content-Type") "application/json" then
        match HTTP.Body req with
        | None => None
        | Some stream =>
            let '(body, err, rest) := IO.ReadAll stream in
            let req' := HTTP.mkRequest (HTTP.URL req) (HTTP.Method req) (HTTP.Header_ req)
                                       (Some rest) (HTTP.Ctx req) in
            match err with
            | None => Some (set_respBody e body, req')
            | Some _ => Some (e, req')
            end
        end
      else Some (e, req)
  | None => Some (e, req)
  end.

(** [var opt errOpt; for _, o := range opts { opt = o(opt) }] *)
Definition applyErrOpts (opts : list ErrOptFn) : errOpt :=
  fold_left (fun opt o => o opt) opts (mkErrOpt false false false None "" None).

(** [NewClientErr(opts...)]: the failure it returns, [None] when it
    panics, and the response the options pointed to as the call leaves it
    (a panic comes before any stream is read). *)
Definition NewClientErr (opts : list ErrOptFn) : option HTTPErr * option HTTP.Response :=
  let opt := applyErrOpts opts in
  let newClientErr :=
    mkHTTPErr (opt_caller opt) URL.zero "" "received unexpected response" "" ""
              0 (opt_retry opt) (opt_notFound opt) (opt_exists opt) in
  let newClientErr :=
    match opt_err opt with
    | Some err => set_errMsg newClientErr (error_Error err)
    | None => newClientErr
    end in
  match opt_resp opt with
  | None => (Some newClientErr, None)
  | Some resp =>
      let recorded :=
        match HTTP.Request_ resp with
        | Some req =>
            match recordRequest newClientErr req with
            | Some (e, req') => Some (e, Some req')
            | None => None
            end
        | None => Some (newClientErr, None)
        end in
      match recorded with
      | None => (None, Some resp)
      | Some (newClientErr, request) =>
          let newClientErr := set_statusCode newClientErr (HTTP.StatusCode resp) in
          let '(body, err, rest) := IO.ReadAll (HTTP.RespBody resp) in
          let resp' := HTTP.mkResponse (HTTP.StatusCode resp) rest request in
          match err with
          | None => (Some (set_respBody newClientErr body), Some resp')
          | Some _ => (Some newClientErr, Some resp')
          end
      end
  end.

(** ** backoff.go: the backoff policies *)

(** [time.Duration]: nanoseconds in an [int64]. *)
Definition Duration : Type := Z.
Definition Nanosecond : Duration := 1.
Definition Millisecond : Duration := 1000000.

(** What one call of [Next] may take from [math/rand]'s global source:
    the result of [rand.Float64()] and, for every bound, of [rand.Intn]. *)
Record Draw : Type := mkDraw {
  Float64 : float;
  Intn : Z -> Z
}.

(** The contract of [math/rand]: [Float64] is in [[0, 1)] and [Intn n] in
    [[0, n)]. *)
Definition valid_draw (d : Draw) : Prop :=
  PrimFloat.leb 0 (Float64 d) = true /\ PrimFloat.ltb (Float64 d) 1 = true /\
  forall n, 0 < n -> 0 <= Intn d n < n.

Module Float.


(** [int64(x)]: truncation toward zero; for NaN, the infinities and
    values out of range, the result of the amd64 conversion. *)
Definition to_int64 (x : float) : Z :=
  match Prim2SF x with
  | S754_zero _ => 0
  | S754_finite s m e =>
      let mag := if 0 <=? e then Z.pos m * 2 ^ e else Z.pos m / 2 ^ (- e) in
      let v := if s then - mag else mag in
      if (GoInt.min_int <=? v) && (v <=? GoInt.max_int) then v else GoInt.min_int
  | S754_infinity _ | S754_nan => GoInt.min_int
  end.

(** [math.Min] *)
Definition Min (x y : float) : float :=
  if (PrimFloat.eqb x neg_infinity || PrimFloat.eqb y neg_infinity)%bool then neg_infinity
  else if (PrimFloat.is_nan x || PrimFloat.is_nan y)%bool then nan
  else if (PrimFloat.is_zero x && PrimFloat.is_zero y)%bool
       then (if PrimFloat.get_sign x then x else y)
       else if PrimFloat.ltb x y then x else y.

(** [math.Pow(x, float64(y))] for an integer [y], by repeated
    multiplication: the value Go computes when [x] is [2.0], the only
    factor [NewExponentialBackoff] stores, and [y >= -1022]. *)
Definition Pow (x : float) (y : Z) : float :=
  match y with
  | Z0 => 1%float
  | Zpos p => Pos.iter (PrimFloat.mul x) 1%float p
  | Zneg p => PrimFloat.div 1 (Pos.iter (PrimFloat.mul x) 1%float p)
  end.

End Float.

(** [Backoffer]: [Next(retry)] returns the wait and whether to go on.
    [None] is a run-time panic. *)
Class Backoffer (B : Type) : Type :=
  Next : B -> Draw -> Z -> option (Duration * bool).

Record ZeroBackoff : Type := mkZeroBackoff { zero_maxCalls : Z }.

Definition NewZeroBackoff (maxCalls : Z) : ZeroBackoff := mkZeroBackoff maxCalls.

Definition ZeroBackoff_Next (b : ZeroBackoff) (retry : Z) : Duration * bool :=
  if (0 <? zero_maxCalls b) && (retry =? zero_maxCalls b) then (0, false)
  else (0, true).

Record StopBackoff : Type := mkStopBackoff {}.

Definition NewStopBackoff : StopBackoff := mkStopBackoff.

Definition StopBackoff_Next (b : StopBackoff) (retry : Z) : Duration * bool :=
  (0, false).

Record ConstantBackoff : Type := mkConstantBackoff {
  interval : Duration;
  const_maxCalls : Z
}.

Definition NewConstantBackoff (interval : Duration) (maxCalls : Z) : ConstantBackoff :=
  mkConstantBackoff interval maxCalls.

Definition ConstantBackoff_Next (b : ConstantBackoff) (retry : Z) : Duration * bool :=
  if (0 <? const_maxCalls b) && (retry =? const_maxCalls b) then (0, false)
  else (interval b, true).

Record ExponentialBackoff : Type := mkExponentialBackoff {
  exp_t : float;  (* t: initial timeout (in msec) *)
  exp_f : float;  (* f: exponential factor (e.g. 2) *)
  exp_m : float;  (* m: maximum timeout (in msec) *)
  exp_maxCalls : Z
}.


Definition ExponentialBackoff_Next (b : ExponentialBackoff) (d : Draw) (retry : Z)
  : Duration * bool :=
  if (0 <? exp_maxCalls b) && (retry =? exp_maxCalls b) then (0, false)
  else
    let r := PrimFloat.add 1 (Float64 d) in
    let m :=
      Float.Min (PrimFloat.mul (PrimFloat.mul r (exp_t b)) (Float.Pow (exp_f b) retry))
                (exp_m b) in
    if PrimFloat.leb (exp_m b) m then (0, false)
    else (GoInt.mul (Float.to_int64 m) Millisecond, true).

Record SimpleBackoff : Type := mkSimpleBackoff {
  ticks : list Z;
  jitter_ : bool;
  simple_maxCalls : Z
}.

Definition NewSimpleBackoff (maxCalls : Z) (jitter : bool) (ticks : list Z) : SimpleBackoff :=
  mkSimpleBackoff ticks jitter maxCalls.

(** [jitter(millis)]: [millis/2 + rand.Intn(millis)] for a positive
    [millis]. *)
Definition jitter (d : Draw) (millis : Z) : Z :=
  if millis <=? 0 then 0
  else GoInt.add (GoInt.div millis 2) (Intn d millis).

(** [b.ticks[retry]]: [None] when the index is out of range. *)
Definition index (ticks : list Z) (i : Z) : option Z :=
  if i <? 0 then None else ticks !! Z.to_nat i.

Definition SimpleBackoff_Next (b : SimpleBackoff) (d : Draw) (retry : Z)
  : option (Duration * bool) :=
  if (0 <? simple_maxCalls b) && (retry =? simple_maxCalls b) then Some (0, false)
  else if retry >=? Z.of_nat (length (ticks b)) then Some (0, false)
  else
    match index (ticks b) retry with
    | None => None
    | Some ms =>
        let ms := if jitter_ b then jitter d ms else ms in
        Some (GoInt.mul ms Millisecond, true)
    end.

#[global] Instance ZeroBackoff_Backoffer : Backoffer ZeroBackoff :=
  fun b _ retry => Some (ZeroBackoff_Next b retry).
#[global] Instance StopBackoff_Backoffer : Backoffer StopBackoff :=
  fun b _ retry => Some (StopBackoff_Next b retry).
#[global] Instance ConstantBackoff_Backoffer : Backoffer ConstantBackoff :=
  fun b _ retry => Some (ConstantBackoff_Next b retry).
#[global] Instance ExponentialBackoff_Backoffer : Backoffer ExponentialBackoff :=
  fun b d retry => Some (ExponentialBackoff_Next b d retry).
#[global] Instance SimpleBackoff_Backoffer : Backoffer SimpleBackoff :=
  SimpleBackoff_Next.

(** The backoff policies the package provides. *)
Inductive builtin : Type :=
| Zero (b : ZeroBackoff)
| Stop (b : StopBackoff)
| Constant (b : ConstantBackoff)
| Exponential (b : ExponentialBackoff)
| Simple (b : SimpleBackoff).

#[global] Instance builtin_Backoffer : Backoffer builtin :=
  fun p d retry =>
    match p with
    | Zero b => Next b d retry
    | Stop b => Next b d retry
    | Constant b => Next b d retry
    | Exponential b => Next b d retry
    | Simple b => Next b d retry
    end.

(** The max-attempts setting of a policy ([StopBackoff] has none). *)
Definition maxCalls (p : builtin) : option Z :=
  match p with
  | Zero b => Some (zero_maxCalls b)
  | Stop _ => None
  | Constant b => Some (const_maxCalls b)
  | Exponential b => Some (exp_maxCalls b)
  | Simple b => Some (simple_maxCalls b)
  end.

(** ** backoff.go: the retry loop *)


(** What happens around the loop and is not decided by it, by attempt
    number [n] (the value of the counter after its increment): the draw the
    call [Next(n)] takes from the random source, and the winner of the
    [select] that follows it, [Some e] when [ctx.Done()] is received first
    and [ctx.Err()] is [e], [None] when the timer of [time.After] fires
    first. *)
Record Env : Type := mkEnv {
  draws : Z -> Draw;
  selects : Z -> option ctxErr
}.

(** How a call ends: it returns an error value ([None] for nil), or a
    panic unwinds it. *)
Inductive outcome : Type :=
| Returned (err : option error)
| Panicked.

(** What a run of the loop does, in order: an invocation of the attempt
    function with the counter at [n] and how it ended, a call of [Next],
    a wait. *)
Inductive event : Type :=
| EvAttempt (n : Z) (out : outcome)
| EvNext (n : Z) (wait : Duration) (continue : bool)
| EvWait (wait : Duration) (done : option ctxErr).

Record Run (St : Type) : Type := mkRun {
  result : outcome;
  final : St;
  trace : list event
}.
Arguments mkRun {St}.
Arguments result {St}.
Arguments final {St}.
Arguments trace {St}.

Definition isAttempt (ev : event) : bool :=
  match ev with EvAttempt _ _ => true | _ => false end.

(** The number of times the attempt function was invoked. *)
Definition attempts (tr : list event) : nat := length (List.filter isAttempt tr).

Definition attemptErr (ev : event) : option outcome :=
  match ev with EvAttempt _ out => Some out | _ => None end.

(** How the last invocation of the attempt function ended. *)
Definition lastAttempt (tr : list event) : option outcome :=
  last (omap attemptErr tr).

Section Retry.

(** [St] is the state the attempt function works on (the transport, the
    value a decoder fills); [B] is the type of the policy [b()] returns. *)
Context {St B : Type} `{Backoffer B}.

(** The attempt function [fn func(context.Context) error], with the state
    it leaves. *)
Definition AttemptFn : Type := HTTP.Context -> St -> outcome * St.

Definition before (evs : list event) (r : Run St) : Run St :=
  mkRun (result r) (final r) (evs ++ trace r).

(** The [for] loop of [retry], from the counter value [n].  [fuel] bounds
    the number of iterations; [None] means the bound was reached.  A panic
    of the attempt function or of [Next] unwinds the loop. *)
Fixpoint retry_loop (fuel : nat) (env : Env) (fn : AttemptFn) (backoffPolicy : B)
         (n : Z) (s : St) : option (Run St) :=
  match fuel with
  | O => None
  | S fuel =>
      let ctx := HTTP.mkContext (Some n) in
      let '(out, s) := fn ctx s in
      match out with
      | Panicked => Some (mkRun Panicked s [EvAttempt n out])
      | Returned None => Some (mkRun out s [EvAttempt n out])
      | Returned (Some e) =>
          if match asRetrier e with Some r => negb r | None => false end
          then Some (mkRun out s [EvAttempt n out])
          else
            let n' := GoInt.add n 1 in
            match Next backoffPolicy (draws env n') n' with
            | None => Some (mkRun Panicked s [EvAttempt n out])
            | Some (wait, retry) =>
                if negb retry
                then Some (mkRun out s [EvAttempt n out; EvNext n' wait retry])
                else
                  match selects env n' with
                  | Some ce =>
                      Some (mkRun (Returned (Some (contextError ce))) s
                              [EvAttempt n out; EvNext n' wait retry; EvWait wait (Some ce)])
                  | None =>
                      before [EvAttempt n out; EvNext n' wait retry; EvWait wait None]
                        <$> retry_loop fuel env fn backoffPolicy n' s
                  end
            end
      end
  end.

(** [retry(ctx, fn, b)] *)
Definition retry (fuel : nat) (env : Env) (fn : AttemptFn) (b : B) (s : St)
  : option (Run St) :=
  retry_loop fuel env fn b 0 s.

End Retry.

(** ** request.go: one attempt *)

Definition ErrInvalidEncodeFn : error := errorString "no encode fn provided for body".

Record kvPair : Type := mkKvPair { key : string; value : string }.

(** [drain(r)]: the error it returns, and the stream afterwards.  The
    messages of a failed copy and of a failed [Close] are joined; the
    function returns [errors.New] of the joined text in every case. *)
Definition drain (r : IO.ReadCloser) : error * IO.ReadCloser :=
  let msgs := [] in
  let '(err, r) := IO.CopyDiscard r in
  let msgs := match err with Some e => msgs ++ [e] | None => msgs end in
  let '(err, r) := IO.Close r in
  let msgs := match err with Some e => msgs ++ [e] | None => msgs end in
  (errorString (Str.Join msgs "; "), r).

(** A reader that takes [k] bytes from the stream (all of them when fewer
    are left): the bytes, which is what the buffer of an [io.TeeReader]
    around the stream holds afterwards, and the stream afterwards. *)
Definition readN (body : IO.ReadCloser) (k : nat) : string * IO.ReadCloser :=
  let k := Nat.min k (String.length (IO.pending body)) in
  (String.substring 0 k (IO.pending body),
   IO.mkReadCloser
     (String.substring k (String.length (IO.pending body) - k) (IO.pending body))
     (IO.readErr body) (IO.closeErr body) (IO.closed body)).

(** What [return NewClientErr(opts...)] hands to the caller: the failure as
    an [error], or the panic. *)
Definition failure (e : option HTTPErr) : outcome :=
  match e with
  | Some e => Returned (Some (httpError e))
  | None => Panicked
  end.

Section Do.

(** [St]: the state of the transport and of the values decoders fill.
    [V]: the values a request body may hold ([interface{}]).
    [B]: the type of the policy the factory [backoff] returns. *)
Context {St V B : Type} `{Backoffer B}.

(** [Doer.Do]: by the contract of [http.Client.Do], a response with a
    body when the error is nil; with an error, a response or nil. *)
Inductive DoerResult : Type :=
| DoResponse (resp : HTTP.Response)
| DoError (resp : option HTTP.Response) (err : error).

Definition Doer : Type := HTTP.Request -> St -> DoerResult * St.
Definition AuthFn : Type := HTTP.Request -> HTTP.Request.
Definition EncodeFn : Type := V -> IO.ReadCloser + error.
(** A decoder [func(io.Reader) error]: from what a reader of the stream
    can see (the bytes to come and the error after them), the number of
    bytes it reads, the error it returns and what it does to the state. *)
Definition DecodeFn : Type := string -> option string -> St -> nat * option error * St.

Definition runDecoder (fn : DecodeFn) (r : IO.ReadCloser) (s : St)
  : nat * option error * St :=
  fn (IO.pending r) (IO.readErr r) s.
Definition ResponseErrorFn : Type := error -> option error.

Record Request : Type := mkRequest {
  Method : string;
  Addr : string;
  doer : Doer;
  body : option V;
  headers : list kvPair;
  params : list kvPair;
  authFn : option AuthFn;
  encodeFn : option EncodeFn;
  decodeFn : option DecodeFn;
  onErrorFn : option DecodeFn;
  responseErrFn : option ResponseErrorFn;
  notFoundFns : list StatusFn;
  existsFns : list StatusFn;
  retryStatusFns : list StatusFn;
  successFns : list StatusFn;
  backoff : B
}.

(** [http.NewRequest(method, url, body)] of net/http. *)
Variable NewRequest : string -> string -> option IO.ReadCloser -> HTTP.Request + error.

Definition statusErrOpts (r : Request) (status : Z) : list ErrOptFn :=
  let opts := [] in
  let opts := if statusMatches status (retryStatusFns r) then opts ++ [Retry] else opts in
  let opts := if statusMatches status (notFoundFns r) then opts ++ [NotFound] else opts in
  if statusMatches status (existsFns r) then opts ++ [Exists] else opts.

Definition responseErr (r : Request) (resp : option HTTP.Response) (err : error)
  : outcome * option HTTP.Response :=
  let err := match responseErrFn r with
             | Some fn => fn err
             | None => Some err
             end in
  let opts := [Err err; Resp resp] in
  let opts := if isRetryErr err then opts ++ [Retry] else opts in
  let '(e, after) := NewClientErr opts in
  (failure e, after).

(** What one call of [do] leaves behind: how it ends, the state, the body
    stream of the response the transport returned (when it returned one)
    as the call leaves it, and the value the deferred [drain] returned,
    which [do] does not use. *)
Record DoResult : Type := mkDoResult {
  do_out : outcome;
  do_st : St;
  do_body : option IO.ReadCloser;
  do_drain : option error
}.

(** The loops of [do] over the headers and the parameters.  The header
    map is the one [http.NewRequest] allocated. *)
Definition applyHeaders (req : HTTP.Request) (hs : list kvPair) : HTTP.Request :=
  HTTP.mkRequest (HTTP.URL req) (HTTP.Method req)
    (Some (fold_left (fun h pair => HTTP.Set_ h (key pair) (value pair)) hs
             (default ∅ (HTTP.Header_ req))))
    (HTTP.Body req) (HTTP.Ctx req).

Definition applyParams (req : HTTP.Request) (ps : list kvPair) : HTTP.Request :=
  let params := fold_left (fun q kv => URL.Set_ q (key kv) (value kv)) ps
                  (URL.Query (HTTP.URL req)) in
  HTTP.mkRequest (URL.withRawQuery (HTTP.URL req) (URL.Encode params)) (HTTP.Method req)
    (HTTP.Header_ req) (HTTP.Body req) (HTTP.Ctx req).

(** The part of [do] before the call of the transport: the request it
    hands to the transport, or how [do] ends without calling it. *)
Definition buildRequest (r : Request) (ctx : HTTP.Context) : HTTP.Request + outcome :=
  let encoded : option IO.ReadCloser + outcome :=
    match body r with
    | Some v =>
        match encodeFn r with
        | None => inr (Returned (Some ErrInvalidEncodeFn))
        | Some encode =>
            match encode v with
            | inl encodedBody => inl (Some encodedBody)
            | inr err => inr (failure (NewClientErr [Err (Some err)]).1)
            end
        end
    | None => inl None
    end in
  match encoded with
  | inr out => inr out
  | inl body =>
      match NewRequest (Method r) (Addr r) body with
      | inr err => inr (failure (NewClientErr [Err (Some err)]).1)
      | inl req =>
          let req := HTTP.mkRequest (HTTP.URL req) (HTTP.Method req) (HTTP.Header_ req)
                                    (HTTP.Body req) ctx in
          let req := if 0 <? Z.of_nat (length (headers r))
                     then applyHeaders req (headers r) else req in
          let req := if 0 <? Z.of_nat (length (params r))
                     then applyParams req (params r) else req in
          inl (match authFn r with Some auth => auth req | None => req end)
      end
  end.

(** The part of [do] after the transport returned a response without an
    error; the deferred [drain(resp.Body)] runs last, also when
    [NewClientErr] panics, on the body the response holds by then. *)
Definition handleResponse (r : Request) (resp : HTTP.Response) (s : St) : DoResult :=
  let status := HTTP.StatusCode resp in
  if negb (statusMatches status (successFns r)) then
    match onErrorFn r with
    | Some onError =>
        let '(k, err, s) := runDecoder onError (HTTP.RespBody resp) s in
        let '(buf, rest) := readN (HTTP.RespBody resp) k in
        let resp' := HTTP.withBody resp (IO.NopCloser buf) in
        let opts := [Resp (Some resp')] ++ statusErrOpts r status
                    ++ match err with Some _ => [Err err] | None => [] end in
        let '(e, after) := NewClientErr opts in
        let '(derr, _) := drain (default (IO.NopCloser "") (HTTP.RespBody <$> after)) in
        mkDoResult (failure e) s (Some rest) (Some derr)
    | None =>
        let opts := [Resp (Some resp)] ++ statusErrOpts r status in
        let '(e, after) := NewClientErr opts in
        let '(derr, b) := drain (default (HTTP.RespBody resp) (HTTP.RespBody <$> after)) in
        mkDoResult (failure e) s (Some b) (Some derr)
    end
  else
    match decodeFn r with
    | None =>
        let '(derr, b) := drain (HTTP.RespBody resp) in
        mkDoResult (Returned None) s (Some b) (Some derr)
    | Some decode =>
        let '(k, err, s) := runDecoder decode (HTTP.RespBody resp) s in
        let '(_, rest) := readN (HTTP.RespBody resp) k in
        match err with
        | Some _ =>
            let opts := [Err err; Resp (Some (HTTP.withBody resp rest))] in
            let opts := if isRetryErr err then opts ++ [Retry] else opts in
            let '(e, after) := NewClientErr opts in
            let '(derr, b) := drain (default rest (HTTP.RespBody <$> after)) in
            mkDoResult (failure e) s (Some b) (Some derr)
        | None =>
            let '(derr, b) := drain rest in
            mkDoResult (Returned None) s (Some b) (Some derr)
        end
    end.

(** The part of [do] after the call of the transport. *)
Definition afterDoer (r : Request) (res : DoerResult) (s : St) : DoResult :=
  match res with
  | DoError resp err =>
      let '(out, after) := responseErr r resp err in
      mkDoResult out s (HTTP.RespBody <$> after) None
  | DoResponse resp => handleResponse r resp s
  end.

(** [(r *Request) do(ctx)] *)
Definition do (r : Request) (ctx : HTTP.Context) (s : St) : DoResult :=
  match buildRequest r ctx with
  | inr out => mkDoResult out s None None
  | inl req =>
      let '(res, s) := doer r req s in
      afterDoer r res s
  end.

(** [do] as the attempt function [retry] is given. *)
Definition attempt (r : Request) : AttemptFn (St := St) :=
  fun ctx s => let res := do r ctx s in (do_out res, do_st res).

(** [(r *Request) Do(ctx)]: [retry(ctx, r.do, r.backoff)] *)
Definition Do (fuel : nat) (env : Env) (r : Request) (s : St) : option (Run St) :=
  retry fuel env (attempt r) (backoff r) s.

End Do.

(** ** Transports whose response bodies fail to close *)

Definition withCloseErr (ce : option string) (rc : IO.ReadCloser) : IO.ReadCloser :=
  IO.mkReadCloser (IO.pending rc) (IO.readErr rc) ce (IO.closed rc).

Definition respWithCloseErr (ce : option string) (resp : HTTP.Response) : HTTP.Response :=
  HTTP.withBody resp (withCloseErr ce (HTTP.RespBody resp)).

Section CloseFailing.

Context {St V B : Type} `{Backoffer B}.

(** The transport [d], except that [Close] on the bodies of its responses
    returns [ce]. *)
Definition closeFailing (ce : option string) (d : Doer (St := St)) : Doer (St := St) :=
  fun req s =>
    let '(res, s') := d req s in
    (match res with
     | DoResponse resp => DoResponse (respWithCloseErr ce resp)
     | DoError resp err => DoError (respWithCloseErr ce <$> resp) err
     end, s').

Definition withDoer (r : Request (St := St) (V := V) (B := B)) (d : Doer (St := St))
  : Request (St := St) (V := V) (B := B) :=
  mkRequest (Method r) (Addr r) d (body r) (headers r) (params r) (authFn r)
    (encodeFn r) (decodeFn r) (onErrorFn r) (responseErrFn r) (notFoundFns r)
    (existsFns r) (retryStatusFns r) (successFns r) (backoff r).

End CloseFailing.

(** ** request.go: the request builder *)

Section Builder.

Context {St V B : Type}.

Local Abbreviation Req := (Request (St := St) (V := V) (B := B)).

(** [(r *Request) Auth(authFn)] *)
Definition Request_Auth (r : Req) (fn : option AuthFn) : Req :=
  mkRequest (Method r) (Addr r) (doer r) (body r) (headers r) (params r) fn
    (encodeFn r) (decodeFn r) (onErrorFn r) (responseErrFn r) (notFoundFns r)
    (existsFns r) (retryStatusFns r) (successFns r) (backoff r).

(** [(r *Request) Backoff(b)] *)
Definition Request_Backoff (r : Req) (b : B) : Req :=
  mkRequest (Method r) (Addr r) (doer r) (body r) (headers r) (params r) (authFn r)
    (encodeFn r) (decodeFn r) (onErrorFn r) (responseErrFn r) (notFoundFns r)
    (existsFns r) (retryStatusFns r) (successFns r) b.

(** [(r *Request) Body(v)]; [None] is a nil interface value. *)
Definition Request_Body (r : Req) (v : option V) : Req :=
  mkRequest (Method r) (Addr r) (doer r) v (headers r) (params r) (authFn r)
    (encodeFn r) (decodeFn r) (onErrorFn r) (responseErrFn r) (notFoundFns r)
    (existsFns r) (retryStatusFns r) (successFns r) (backoff r).

(** [(r *Request) Header(key, value)] *)
Definition Request_Header (r : Req) (k v : string) : Req :=
  mkRequest (Method r) (Addr r) (doer r) (body r) (headers r ++ [mkKvPair k v]) (params r)
    (authFn r) (encodeFn r) (decodeFn r) (onErrorFn r) (responseErrFn r) (notFoundFns r)
    (existsFns r) (retryStatusFns r) (successFns r) (backoff r).

(** [(r *Request) ContentType(cType)] *)
Definition Request_ContentType (r : Req) (cType : string) : Req :=
  mkRequest (Method r) (Addr r) (doer r) (body r)
    (headers r ++ [mkKvPair "Content-Type" cType]) (params r)
    (authFn r) (encodeFn r) (decodeFn r) (onErrorFn r) (responseErrFn r) (notFoundFns r)
    (existsFns r) (retryStatusFns r) (successFns r) (backoff r).

(** [(r *Request) Decode(fn)] *)
Definition Request_Decode (r : Req) (fn : option DecodeFn) : Req :=
  mkRequest (Method r) (Addr r) (doer r) (body r) (headers r) (params r) (authFn r)
    (encodeFn r) fn (onErrorFn r) (responseErrFn r) (notFoundFns r)
    (existsFns r) (retryStatusFns r) (successFns r) (backoff r).

(** [(r *Request) OnError(fn)] *)
Definition Request_OnError (r : Req) (fn : option DecodeFn) : Req :=
  mkRequest (Method r) (Addr r) (doer r) (body r) (headers r) (params r) (authFn r)
    (encodeFn r) (decodeFn r) fn (responseErrFn r) (notFoundFns r)
    (existsFns r) (retryStatusFns r) (successFns r) (backoff r).

(** [(r *Request) Exists(fn)] *)
Definition Request_Exists (r : Req) (fn : StatusFn) : Req :=
  mkRequest (Method r) (Addr r) (doer r) (body r) (headers r) (params r) (authFn r)
    (encodeFn r) (decodeFn r) (onErrorFn r) (responseErrFn r) (notFoundFns r)
    (existsFns r ++ [fn]) (retryStatusFns r) (successFns r) (backoff r).

(** [(r *Request) NotFound(fn)] *)
Definition Request_NotFound (r : Req) (fn : StatusFn) : Req :=
  mkRequest (Method r) (Addr r) (doer r) (body r) (headers r) (params r) (authFn r)
    (encodeFn r) (decodeFn r) (onErrorFn r) (responseErrFn r) (notFoundFns r ++ [fn])
    (existsFns r) (retryStatusFns r) (successFns r) (backoff r).

(** [(r *Request) Success(fn)] *)
Definition Request_Success (r : Req) (fn : StatusFn) : Req :=
  mkRequest (Method r) (Addr r) (doer r) (body r) (headers r) (params r) (authFn r)
    (encodeFn r) (decodeFn r) (onErrorFn r) (responseErrFn r) (notFoundFns r)
    (existsFns r) (retryStatusFns r) (successFns r ++ [fn]) (backoff r).

(** retry.go: [RetryFn], [RetryStatus(fn)] and [RetryResponseError(fn)] *)
Definition RetryFn : Type := Req -> Req.

Definition RetryStatus (fn : StatusFn) : RetryFn := fun req =>
  mkRequest (Method req) (Addr req) (doer req) (body req) (headers req) (params req)
    (authFn req) (encodeFn req) (decodeFn req) (onErrorFn req) (responseErrFn req)
    (notFoundFns req) (existsFns req) (retryStatusFns req ++ [fn]) (successFns req)
    (backoff req).

Definition RetryResponseError (fn : option ResponseErrorFn) : RetryFn := fun r =>
  mkRequest (Method r) (Addr r) (doer r) (body r) (headers r) (params r) (authFn r)
    (encodeFn r) (decodeFn r) (onErrorFn r) fn (notFoundFns r)
    (existsFns r) (retryStatusFns r) (successFns r) (backoff r).

(** [(r *Request) Retry(fn)] *)
Definition Request_Retry (r : Req) (fn : RetryFn) : Req := fn r.

(** [(r *Request) QueryParam(key, value)] *)
Definition QueryParam (r : Req) (k v : string) : Req :=
  mkRequest (Method r) (Addr r) (doer r) (body r) (headers r) (params r ++ [mkKvPair k v])
    (authFn r) (encodeFn r) (decodeFn r) (onErrorFn r) (responseErrFn r) (notFoundFns r)
    (existsFns r) (retryStatusFns r) (successFns r) (backoff r).

(** The loop of [QueryParams], with [count] iterations left at [index]:
    [i := index * 2; pair := pairs[i : i+2]; r.QueryParam(pair[0], pair[1])].
    The slice is in range when [index < len(pairs)/2]; [None] is the panic of
    a slice out of range. *)
Fixpoint queryParamsLoop (count index : nat) (pairs : list string) (r : Req)
  : option Req :=
  match count with
  | O => Some r
  | S count =>
      let i := (index * 2)%nat in
      match pairs !! i, pairs !! S i with
      | Some k, Some v => queryParamsLoop count (S index) pairs (QueryParam r k v)
      | _, _ => None
      end
  end.

(** [(r *Request) QueryParams(key, value, pairs...)]: the loop runs for
    [index < len(pairs)/2]. *)
Definition QueryParams (r : Req) (k v : string) (pairs : list string) : option Req :=
  queryParamsLoop (length pairs / 2) 0 pairs (QueryParam r k v).

End Builder.

(** The pairs a flat list of keys and values holds, a last key without a
    value left out. *)
Fixpoint pairUp (pairs : list string) : list kvPair :=
  match pairs with
  | k :: v :: rest => mkKvPair k v :: pairUp rest
  | _ => []
  end.

(** ** client.go and options.go: the client *)

(** [strings.HasPrefix(s, prefix)] and [strings.HasSuffix(s, suffix)] *)
Definition HasPrefix (s prefix : string) : bool := String.prefix prefix s.

Definition HasSuffix (s suffix : string) : bool :=
  (String.length suffix <=? String.length s)%nat
  && String.eqb
       (String.substring (String.length s - String.length suffix) (String.length suffix) s)
       suffix.

(** A [BackoffOptFn] by the policy it builds: a value of some type that
    implements [Backoffer]. *)
Record BackoffOptFn : Type := mkBackoffOptFn {
  policyType : Type;
  policyBackoffer : Backoffer policyType;
  policy : policyType
}.

#[global] Instance BackoffOptFn_Backoffer : Backoffer BackoffOptFn :=
  fun b d retry => @Next (policyType b) (policyBackoffer b) (policy b) d retry.

(** [NewStopBackoff()] as a [BackoffOptFn]. *)
Definition stopBackoffOptFn : BackoffOptFn :=
  mkBackoffOptFn StopBackoff StopBackoff_Backoffer NewStopBackoff.

Section Client.

Context {St V : Type}.

(** [JSONEncode()] of the package's encode.go. *)
Variable JSONEncode : EncodeFn (V := V).

Record Client : Type := mkClient {
  baseURL : string;
  c_doer : Doer (St := St);
  c_headers : list kvPair;
  c_authFn : option AuthFn;
  c_encodeFn : option (EncodeFn (V := V));
  c_backoff : BackoffOptFn
}.

Definition ClientOptFn : Type := Client -> Client.

Definition WithAuth (authFn : option AuthFn) : ClientOptFn := fun c =>
  mkClient (baseURL c) (c_doer c) (c_headers c) authFn (c_encodeFn c) (c_backoff c).

Definition WithBackoff (b : BackoffOptFn) : ClientOptFn := fun c =>
  mkClient (baseURL c) (c_doer c) (c_headers c) (c_authFn c) (c_encodeFn c) b.

Definition WithBaseURL (baseURL' : string) : ClientOptFn := fun c =>
  mkClient baseURL' (c_doer c) (c_headers c) (c_authFn c) (c_encodeFn c) (c_backoff c).

Definition WithContentType (cType : string) : ClientOptFn := fun c =>
  mkClient (baseURL c) (c_doer c) (c_headers c ++ [mkKvPair "Content-Type" cType])
    (c_authFn c) (c_encodeFn c) (c_backoff c).

Definition WithEncoder (fn : option (EncodeFn (V := V))) : ClientOptFn := fun c =>
  mkClient (baseURL c) (c_doer c) (c_headers c) (c_authFn c) fn (c_backoff c).

Definition WithHeader (k v : string) : ClientOptFn := fun c =>
  mkClient (baseURL c) (c_doer c) (c_headers c ++ [mkKvPair k v])
    (c_authFn c) (c_encodeFn c) (c_backoff c).

(** [New(doer, opts...)] *)
Definition New (doer : Doer (St := St)) (opts : list ClientOptFn) : Client :=
  fold_left (fun c o => o c) opts
    (mkClient "" doer [] None (Some JSONEncode) stopBackoffOptFn).

(** [(c *Client) Req(method, addr)] *)
Definition Req (c : Client) (method addr : string)
  : Request (St := St) (V := V) (B := BackoffOptFn) :=
  let address := baseURL c +:+ addr in
  let address :=
    if negb (HasSuffix (baseURL c) "/") && negb (HasPrefix addr "/")
    then baseURL c +:+ "/" +:+ addr
    else address in
  mkRequest method address (c_doer c) None (c_headers c) [] (c_authFn c) (c_encodeFn c)
    None None None [] [] [] [] (c_backoff c).

Definition Client_Connect (c : Client) (addr : string) := Req c "CONNECT" addr.
Definition Client_Delete (c : Client) (addr : string) := Req c "DELETE" addr.
Definition Client_Get (c : Client) (addr : string) := Req c "GET" addr.
Definition Client_Head (c : Client) (addr : string) := Req c "HEAD" addr.
Definition Client_Options (c : Client) (addr : string) := Req c "OPTIONS" addr.
Definition Client_Patch (c : Client) (addr : string) := Req c "PATCH" addr.
Definition Client_Post (c : Client) (addr : string) := Req c "POST" addr.
Definition Client_Put (c : Client) (addr : string) := Req c "PUT" addr.

End Client.

(** ** auth.go: the authorization decorators *)

Definition encodeStd : string :=
  "ABCDEFGHIJKLMNOPQRSTUVWXYZabcdefghijklmnopqrstuvwxyz0123456789+/".

Definition b64digit (n : Z) : ascii := Str.hexdigit encodeStd n.

(** [base64.StdEncoding.EncodeToString] *)
Fixpoint base64 (s : string) : string :=
  match s with
  | EmptyString => ""
  | String a EmptyString =>
      let x := Str.code a in
      String (b64digit (x / 4)) (String (b64digit (x mod 4 * 16)) "==")
  | String a (String b EmptyString) =>
      let x := Str.code a in
      let y := Str.code b in
      String (b64digit (x / 4))
        (String (b64digit (x mod 4 * 16 + y / 16))
           (String (b64digit (y mod 16 * 4)) "="))
  | String a (String b (String c rest)) =>
      let x := Str.code a in
      let y := Str.code b in
      let z := Str.code c in
      String (b64digit (x / 4))
        (String (b64digit (x mod 4 * 16 + y / 16))
           (String (b64digit (y mod 16 * 4 + z / 64))
              (String (b64digit (z mod 64)) (base64 rest))))
  end.

Definition withHeader (req : HTTP.Request) (h : HTTP.Header) : HTTP.Request :=
  HTTP.mkRequest (HTTP.URL req) (HTTP.Method req) (Some h) (HTTP.Body req) (HTTP.Ctx req).

(** [BasicAuth(user, pass)]: [r.SetBasicAuth(user, pass)] sets the header
    [Authorization] to [Basic] and the base64 text of [user:pass].  As in
    [applyHeaders], the header map is the one [http.NewRequest] allocated. *)
Definition BasicAuth (user pass : string) : AuthFn := fun r =>
  withHeader r
    (HTTP.Set_ (default ∅ (HTTP.Header_ r)) "Authorization"
       ("Basic " +:+ base64 (user +:+ ":" +:+ pass))).

(** [BearerTokenAuth(token)]: [r.Header.Add("Authorization", "Bearer "+token)] *)
Definition BearerTokenAuth (token : string) : AuthFn := fun r =>
  withHeader r
    (HTTP.Add (default ∅ (HTTP.Header_ r)) "Authorization" ("Bearer " +:+ token)).

(** ** The options of error.go as data *)

(** The six option constructors of error.go; [denote] is the [ErrOptFn]
    each one returns. *)
Inductive errOption : Type :=
| OOp (c : string)
| OErr (err : option error)
| OResp (resp : option HTTP.Response)
| ORetry
| ONotFound
| OExists.

Definition denote (o : errOption) : ErrOptFn :=
  match o with
  | OOp c => Op c
  | OErr err => Err err
  | OResp resp => Resp resp
  | ORetry => Retry
  | ONotFound => NotFound
  | OExists => Exists
  end.

Definition isORetry (o : errOption) : bool := match o with ORetry => true | _ => false end.
Definition isONotFound (o : errOption) : bool :=
  match o with ONotFound => true | _ => false end.
Definition isOExists (o : errOption) : bool := match o with OExists => true | _ => false end.
Definition getOErr (o : errOption) : option (option error) :=
  match o with OErr e => Some e | _ => None end.
Definition getOResp (o : errOption) : option (option HTTP.Response) :=
  match o with OResp r => Some r | _ => None end.
Definition getOOp (o : errOption) : option string :=
  match o with OOp c => Some c | _ => None end.

(** ** Predicates of the statements *)

(** A failure the loop hands to the policy: its dynamic type has no
    [Retry] method, or the method returns true. *)
Definition retried (e : error) : Prop := asRetrier e <> Some false.

(** A policy that continues at every attempt number but its maximum. *)
Definition stopsOnlyAtMax (p : builtin) : bool :=
  match p with
  | Zero _ | Constant _ => true
  | Stop _ | Exponential _ | Simple _ => false
  end.

(** No event follows a call of [Next] that answered stop. *)
Fixpoint stopIsLast (tr : list event) : bool :=
  match tr with
  | [] => true
  | EvNext _ _ false :: rest => match rest with [] => true | _ => false end
  | _ :: rest => stopIsLast rest
  end.

(** Responses that read alike: the same status, request, bytes and read
    error; what [Close] returns may differ. *)
Definition readsAlike (r1 r2 : HTTP.Response) : Prop :=
  HTTP.StatusCode r1 = HTTP.StatusCode r2
  /\ HTTP.Request_ r1 = HTTP.Request_ r2
  /\ IO.pending (HTTP.RespBody r1) = IO.pending (HTTP.RespBody r2)
  /\ IO.readErr (HTTP.RespBody r1) = IO.readErr (HTTP.RespBody r2).

Definition optsAlike (o1 o2 : errOpt) : Prop :=
  opt_retry o1 = opt_retry o2 /\ opt_notFound o1 = opt_notFound o2
  /\ opt_exists o1 = opt_exists o2 /\ opt_err o1 = opt_err o2
  /\ opt_caller o1 = opt_caller o2
  /\ option_Forall2 readsAlike (opt_resp o1) (opt_resp o2).

Definition fnsAlike (f g : ErrOptFn) : Prop :=
  forall o1 o2, optsAlike o1 o2 -> optsAlike (f o1) (g o2).




(** The waits of a run, in order. *)
Definition waitOf (ev : event) : option Duration :=
  match ev with EvWait w _ => Some w | _ => None end.

Definition waits (tr : list event) : list Duration := omap waitOf tr.

(** The request reaches the transport and the transport answers: [do]
    builds a request, and for that request, in the state [s], the
    transport returns [res] and leaves the state [s']. *)
Definition answers {St V B : Type}
    (NewRequest : string -> string -> option IO.ReadCloser -> HTTP.Request + error)
    (r : Request (St := St) (V := V) (B := B)) (ctx : HTTP.Context) (s : St)
    (res : DoerResult) (s' : St) : Prop :=
  exists req, buildRequest NewRequest r ctx = inl req /\ doer r req s = (res, s').

(** The body [do] gives to [http.NewRequest]: nil for a request without a
    body, else what the encode function returns. *)
Definition encodes {St V B : Type} (r : Request (St := St) (V := V) (B := B))
    (b : option IO.ReadCloser) : Prop :=
  match body r with
  | None => b = None
  | Some v => exists encode rd, encodeFn r = Some encode /\ encode v = inl rd /\ b = Some rd
  end.

(** The request a response points to has a Content-Type that contains
    [application/json] and a nil body. *)
Definition jsonWithoutBody (resp : HTTP.Response) : bool :=
  match HTTP.Request_ resp with
  | Some req =>
      match HTTP.Header_ req, HTTP.Body req with
      | Some h, None => Str.Contains (HTTP.Get h "Content-Type") "application/json"
      | _, _ => false
      end
  | None => false
  end.

(** ** Values used in the examples *)

(** A random source that draws [0.5] and the smallest integer. *)
Definition draw0 : Draw := mkDraw 0.5%float (fun _ => 0).

(** No cancellation: every wait ends with the timer. *)
Definition env0 : Env := mkEnv (fun _ => draw0) (fun _ => None).

(** The context is cancelled during the wait that follows the call
    [Next(k)], and during no other wait. *)
Definition envCancelAt (k : Z) : Env :=
  mkEnv (fun _ => draw0) (fun n => if n =? k then Some Canceled else None).

(** The request [http.NewRequest] builds from an address that is well
    formed and has neither query nor fragment. *)
Definition plainRequest (method addr : string) (body : option IO.ReadCloser)
  : HTTP.Request + error :=
  inl (HTTP.mkRequest (URL.mk addr false "" "") method (Some ∅) body HTTP.Background).

(** A failure with the retry flag set, as [NewClientErr(Retry())] builds. *)
Definition retryableErr : error :=
  httpError
    (mkHTTPErr "" URL.zero "" "received unexpected response" "" "" 0 true false false).

(** An attempt function that fails with a retryable failure every time and
    counts its invocations in the state. *)
Definition alwaysRetryable : AttemptFn (St := nat) :=
  fun _ calls => (Returned (Some retryableErr), S calls).

(** The run of the loop under the fixed-interval policy with a wait of one
    nanosecond and max attempts 3, when every attempt fails retryably. *)
Definition constantRun : Run nat :=
  mkRun (Returned (Some retryableErr)) 3%nat
    [EvAttempt 0 (Returned (Some retryableErr)); EvNext 1 Nanosecond true;
     EvWait Nanosecond None;
     EvAttempt 1 (Returned (Some retryableErr)); EvNext 2 Nanosecond true;
     EvWait Nanosecond None;
     EvAttempt 2 (Returned (Some retryableErr)); EvNext 3 0 false].

(** A transport that counts its calls in the state and fails every call. *)
Definition failingDoer : Doer (St := nat) :=
  fun _ calls => (DoError None (errorString "connection refused"), S calls).

(** A POST with a body and no encode function, under the fixed-interval
    policy with max attempts 3. *)
Definition requestWithoutEncoder : Request (St := nat) (V := string) (B := builtin) :=
  mkRequest "POST" "http://example.com/foo" failingDoer (Some "payload"%string) [] []
    None None None None None [] [] [] [StatusOK]
    (Constant (NewConstantBackoff Nanosecond 3)).

(** A request whose URL has the key [access_token] twice, first with an
    empty value and then with the value [XYZ], and no body; the response
    that rejects it; and the failure [NewClientErr] builds from that
    response. *)
Definition tokenURL : URL.t :=
  URL.mk "http://example.com/login" false "access_token=&access_token=XYZ" "".

Definition tokenResponse : HTTP.Response :=
  HTTP.mkResponse 401 (IO.NopCloser "")
    (Some (HTTP.mkRequest tokenURL "GET" (Some ∅) None HTTP.Background)).

Definition tokenErr : HTTPErr :=
  mkHTTPErr "" tokenURL "GET" "received unexpected response" "" "" 401 false false false.

(** A POST of a JSON body that is still readable, and the response that
    rejects it with status 422 and the body [invalid]. *)
Definition jsonRequest : HTTP.Request :=
  HTTP.mkRequest (URL.mk "http://example.com/items" false "" "") "POST"
    (Some {["Content-Type" := ["application/json"]]})
    (Some (IO.NopCloser "[1,2,3]")) HTTP.Background.

Definition jsonResponse : HTTP.Response :=
  HTTP.mkResponse 422 (IO.NopCloser "invalid") (Some jsonRequest).

Definition jsonErr : HTTPErr :=
  mkHTTPErr "" (URL.mk "http://example.com/items" false "" "") "POST"
    "received unexpected response" "invalid" "" 422 false false false.

(** A transport that answers 200 with the body [hello], on a stream whose
    [Close] fails, and a GET through it that accepts 200 and decodes
    nothing. *)
Definition closeFailingDoer : Doer (St := nat) :=
  fun _ calls =>
    (DoResponse (HTTP.mkResponse 200
                   (IO.mkReadCloser "hello" None (Some "close failed"%string) false) None),
     S calls).

Definition getRequest : Request (St := nat) (V := string) (B := builtin) :=
  mkRequest "GET" "http://example.com/foo" closeFailingDoer None [] []
    None None None None None [] [] [] [StatusOK] (Stop NewStopBackoff).

(** The failure of a GET that was refused with status 401, by the query of
    its URL. *)
Definition refusedErr (query : string) : HTTPErr :=
  mkHTTPErr "" (URL.mk "http://example.com/login" false query "") "GET"
    "received unexpected response" "" "" 401 false false false.

(** A transport that answers every request with the given status and
    body text, in a response that points to the request it was given, as
    [http.Client] does, and counts its calls. *)
Definition answering (status : Z) (text : string) : Doer (St := nat) :=
  fun req calls =>
    (DoResponse (HTTP.mkResponse status (IO.NopCloser text) (Some req)), S calls).

(** A decoder that reads three bytes and rejects them, and one that reads
    the whole stream and accepts it. *)
Definition rejectingDecoder : DecodeFn (St := nat) :=
  fun _ _ s => (3%nat, Some (errorString "invalid character"), s).

Definition acceptingDecoder : DecodeFn (St := nat) :=
  fun data _ s => (String.length data, None, s).

(** A DELETE that accepts 204 and declares 404 both not found and
    retryable, sent to a transport that answers 404 with the body
    [missing]; and the same request with an error-body decoder. *)
Definition deleteRequest : Request (St := nat) (V := string) (B := builtin) :=
  mkRequest "DELETE" "http://example.com/foo" (answering 404 "missing") None [] []
    None None None None None [StatusNotFound] [] [StatusNotFound] [StatusNoContent]
    (Stop NewStopBackoff).

Definition deleteRequestOnError : Request (St := nat) (V := string) (B := builtin) :=
  Request_OnError deleteRequest (Some rejectingDecoder).

(** A GET without a body and with the Content-Type [application/json],
    as a client made with [WithContentType] sends it, to a transport that
    answers 500. *)
Definition jsonGetRequest : Request (St := nat) (V := string) (B := builtin) :=
  mkRequest "GET" "http://example.com/foo" (answering 500 "oops") None
    [mkKvPair "Content-Type" "application/json"] []
    None None None None None [] [] [] [StatusOK] (Stop NewStopBackoff).

(** A POST whose encode function fails. *)
Definition unencodableRequest : Request (St := nat) (V := string) (B := builtin) :=
  mkRequest "POST" "http://example.com/foo" failingDoer (Some "payload"%string) [] []
    None (Some (fun _ => inr (errorString "unsupported type"))) None None None
    [] [] [] [StatusOK] (Constant (NewConstantBackoff Nanosecond 10)).

(** A GET through the failing transport, with the response-error
    transform of the tests, which makes every transport error retryable. *)
Definition retriedTransportRequest : Request (St := nat) (V := string) (B := builtin) :=
  mkRequest "GET" "http://example.com/foo" failingDoer None [] []
    None None None None
    (Some (fun err => Some (retrierError (error_Error err) true)))
    [] [] [] [StatusOK] (Constant (NewConstantBackoff Nanosecond 3)).

(** * Properties *)

(** ** Status predicates *)

Lemma statusMatches_true_iff (s : Z) (L : list StatusFn) :
  statusMatches s L = true <-> exists p, In p L /\ p s = true.
Proof.
  induction L as [|fn rest IH]; simpl.
  - split; [discriminate | intros (p & [] & _)].
  - destruct (fn s) eqn:Hfn.
    + split; [intros _; exists fn; auto | reflexivity].
    + rewrite IH. split.
      * intros (p & Hin & Hp). exists p. auto.
      * intros (p & [<- | Hin] & Hp); [congruence | exists p; auto].
Qed.

(** C4: a list of status predicates matches a status exactly when one of
    its predicates returns true for it, and the empty list matches no
    status. *)
Theorem statusMatches_any :
  forall (L : list StatusFn) (s : Z),
    (statusMatches s L = true <-> exists p, In p L /\ p s = true)
    /\ statusMatches s [] = false.
Proof.
  intros L s. split; [apply statusMatches_true_iff | reflexivity].
Qed.

(** ** Integers *)

Ltac zbool :=
  repeat match goal with
         | H : (_ >=? _) = _ |- _ => rewrite Z.geb_leb in H
         | H : (_ <=? _) = true |- _ => apply Z.leb_le in H
         | H : (_ <=? _) = false |- _ => apply Z.leb_gt in H
         | H : (_ <? _) = true |- _ => apply Z.ltb_lt in H
         | H : (_ <? _) = false |- _ => apply Z.ltb_ge in H
         | H : (_ =? _) = true |- _ => apply Z.eqb_eq in H
         | H : (_ =? _) = false |- _ => apply Z.eqb_neq in H
         end.

Lemma wrap_id (z : Z) : GoInt.is_int z -> GoInt.wrap z = z.
Proof.
  unfold GoInt.is_int, GoInt.min_int, GoInt.max_int, GoInt.wrap. intros Hz.
  rewrite Z.mod_small; lia.
Qed.

Lemma add_one_id (n N : Z) :
  0 <= n -> n < N -> N <= GoInt.max_int -> GoInt.add n 1 = n + 1.
Proof.
  intros Hn HN Hmax. unfold GoInt.add. apply wrap_id.
  unfold GoInt.is_int, GoInt.min_int, GoInt.max_int in *. lia.
Qed.

(** ** Strings *)

Lemma substring_all (s : string) : String.substring 0 (String.length s) s = s.
Proof. induction s as [|c s IH]; [reflexivity |]. simpl. rewrite IH. reflexivity. Qed.

Lemma string_app_assoc (a b c : string) : (a +:+ b) +:+ c = a +:+ (b +:+ c).
Proof.
  induction a as [|x a IH]; [reflexivity |].
  change (String x ((a +:+ b) +:+ c) = String x (a +:+ (b +:+ c))).
  rewrite IH. reflexivity.
Qed.

Lemma string_length_app (a b : string) :
  String.length (a +:+ b) = (String.length a + String.length b)%nat.
Proof. induction a as [|c a IH]; [reflexivity |]. simpl. rewrite IH. reflexivity. Qed.

Lemma substring_skip (a b : string) (n : nat) :
  String.substring (String.length a) n (a +:+ b) = String.substring 0 n b.
Proof. induction a as [|c a IH]; [reflexivity |]. simpl. exact IH. Qed.

Lemma prefix_refl (a : string) : String.prefix a a = true.
Proof.
  induction a as [|c a IH]; [reflexivity |].
  simpl. destruct (ascii_dec c c) as [_|Hne]; [exact IH | congruence].
Qed.

Lemma prefix_app (a b : string) : String.prefix a (a +:+ b) = true.
Proof.
  induction a as [|c a IH]; [destruct b; reflexivity |].
  simpl. destruct (ascii_dec c c) as [_|Hne]; [exact IH | congruence].
Qed.

Lemma HasPrefix_app (a b : string) : HasPrefix (a +:+ b) a = true.
Proof. apply prefix_app. Qed.

Lemma HasSuffix_app (a b : string) : HasSuffix (a +:+ b) b = true.
Proof.
  unfold HasSuffix. rewrite string_length_app.
  replace (String.length a + String.length b - String.length b)%nat
    with (String.length a) by lia.
  rewrite substring_skip, substring_all, String.eqb_refl, andb_true_r.
  apply Nat.leb_le. lia.
Qed.

Lemma Join_prefix (p : string) (rest : list string) (sep : string) :
  HasPrefix (Str.Join (p :: rest) sep) p = true.
Proof.
  destruct rest as [|q rest]; [apply prefix_refl |].
  change (Str.Join (p :: q :: rest) sep) with (p +:+ sep +:+ Str.Join (q :: rest) sep).
  apply HasPrefix_app.
Qed.

(** ** jitter *)

Lemma valid_draw0 : valid_draw draw0.
Proof.
  repeat split; try reflexivity; simpl; lia.
Qed.

Lemma jitter_nonpositive (d : Draw) (millis : Z) :
  millis <= 0 -> jitter d millis = 0.
Proof.
  intros Hm. unfold jitter. destruct (millis <=? 0) eqn:E; [reflexivity | lia].
Qed.

(** For a positive base the result is [millis/2] rounded down plus a draw
    below [millis]. *)
Lemma jitter_range (d : Draw) (millis : Z) :
  valid_draw d -> 0 < millis -> millis + millis / 2 <= GoInt.max_int ->
  millis / 2 <= jitter d millis < millis / 2 + millis.
Proof.
  intros (_ & _ & Hintn) Hpos Hmax. unfold jitter.
  destruct (millis <=? 0) eqn:E; [lia |].
  specialize (Hintn millis Hpos).
  assert (Hq : Z.quot millis 2 = millis / 2) by (apply Z.quot_div_nonneg; lia).
  assert (Hhalf : 0 <= millis / 2 <= millis).
  { split; [apply Z.div_pos; lia | apply Z.div_le_upper_bound; lia]. }
  unfold GoInt.add, GoInt.div. rewrite Hq.
  unfold GoInt.max_int in Hmax.
  rewrite (wrap_id (millis / 2)) by (unfold GoInt.is_int, GoInt.min_int, GoInt.max_int; lia).
  rewrite wrap_id by (unfold GoInt.is_int, GoInt.min_int, GoInt.max_int; lia).
  lia.
Qed.

(** C7: at the base value 1 the only draw [rand.Intn(1)] can return is 0 and
    [1/2] is 0 in integer division, so [jitter(1)] is 0: a positive base
    with a result that is not positive and lies below half the base. *)
Theorem jitter_one_is_zero :
  forall d : Draw, valid_draw d -> jitter d 1 = 0.
Proof.
  intros d (_ & _ & Hintn). unfold jitter. simpl.
  assert (Intn d 1 = 0) as -> by (specialize (Hintn 1); lia).
  reflexivity.
Qed.

Lemma jitter_one_is_zero_witness : valid_draw draw0 /\ jitter draw0 1 = 0.
Proof.
  split; [exact valid_draw0 | exact (jitter_one_is_zero draw0 valid_draw0)].
Defined.

(** ** The policies *)

Lemma index_in_range (ticks : list Z) (i : Z) :
  0 <= i < Z.of_nat (length ticks) -> exists ms, index ticks i = Some ms.
Proof.
  intros Hi. unfold index. destruct (i <? 0) eqn:E; [lia |].
  destruct (lookup_lt_is_Some_2 ticks (Z.to_nat i)) as [ms Hms]; [lia |].
  exists ms. exact Hms.
Qed.

(** C6: the fixed-schedule policy at a concrete schedule.  With ticks
    [10; 20], no jitter and no maximum, [Next(1)], the first call the loop
    makes, returns the second entry and not the first, and [Next(2)],
    whose attempt number does not exceed the length of the list, stops.
    The doc comment of [SimpleBackoff] promises the next value of the
    list at each call and the last element afterwards. *)
Theorem SimpleBackoff_Next_skips_first_tick :
  SimpleBackoff_Next (NewSimpleBackoff 0 false [10; 20]) draw0 1
    = Some (20 * Millisecond, true)
  /\ SimpleBackoff_Next (NewSimpleBackoff 0 false [10; 20]) draw0 1
    <> Some (10 * Millisecond, true)
  /\ SimpleBackoff_Next (NewSimpleBackoff 0 false [10; 20]) draw0 2 = Some (0, false)
  /\ 2 <= Z.of_nat (length (ticks (NewSimpleBackoff 0 false [10; 20]))).
Proof.
  split; [reflexivity |]. split; [discriminate |]. split; [reflexivity | simpl; lia].
Qed.

(** What [Next(n)] of the fixed-schedule policy computes for an attempt
    number [n >= 0]: it stops exactly when [n] equals a positive maximum
    or [n] is at least the length of the tick list; otherwise it continues
    with the entry at zero-based index [n] (the entry after the [n]-th), in
    milliseconds, passed through [jitter] when jitter is enabled, and a
    jittered value never exceeds one and a half times the entry. *)
Lemma SimpleBackoff_Next_zero_based :
  forall (b : SimpleBackoff) (d : Draw) (n : Z),
    0 <= n ->
    (((0 < simple_maxCalls b /\ n = simple_maxCalls b)
      \/ Z.of_nat (length (ticks b)) <= n) ->
     SimpleBackoff_Next b d n = Some (0, false))
    /\ (~ (0 < simple_maxCalls b /\ n = simple_maxCalls b) ->
        n < Z.of_nat (length (ticks b)) ->
        exists ms,
          ticks b !! Z.to_nat n = Some ms
          /\ SimpleBackoff_Next b d n
             = Some (GoInt.mul (if jitter_ b then jitter d ms else ms) Millisecond, true)
          /\ (valid_draw d -> 0 < ms -> ms + ms / 2 <= GoInt.max_int ->
              2 * jitter d ms <= 3 * ms)).
Proof.
  intros b d n Hn. unfold SimpleBackoff_Next. split.
  - intros [[Hmax ->] | Hlen].
    + destruct (0 <? simple_maxCalls b) eqn:E1; [| lia].
      rewrite Z.eqb_refl. reflexivity.
    + destruct ((0 <? simple_maxCalls b) && (n =? simple_maxCalls b)); [reflexivity |].
      destruct (n >=? Z.of_nat (length (ticks b))) eqn:E; [reflexivity | lia].
  - intros Hnot Hlt.
    destruct ((0 <? simple_maxCalls b) && (n =? simple_maxCalls b)) eqn:E1.
    { apply andb_true_iff in E1 as [E1 E2]. exfalso. apply Hnot. lia. }
    destruct (n >=? Z.of_nat (length (ticks b))) eqn:E2; [lia |].
    destruct (index_in_range (ticks b) n) as [ms Hms]; [lia |].
    rewrite Hms. exists ms. split.
    + unfold index in Hms. destruct (n <? 0); [discriminate | exact Hms].
    + split; [reflexivity |].
      intros Hd Hpos Hmax.
      pose proof (jitter_range d ms Hd Hpos Hmax) as Hr.
      assert (2 * (ms / 2) <= ms) by (apply Z.mul_div_le; lia). lia.
Qed.

Example SimpleBackoff_Next_zero_based_schedule :
  SimpleBackoff_Next (NewSimpleBackoff 0 true [10; 20; 30]) draw0 3 = Some (0, false)
  /\ exists ms,
       [10; 20; 30] !! Z.to_nat 1 = Some ms
       /\ SimpleBackoff_Next (NewSimpleBackoff 0 true [10; 20; 30]) draw0 1
          = Some (GoInt.mul (jitter draw0 ms) Millisecond, true)
       /\ (valid_draw draw0 -> 0 < ms -> ms + ms / 2 <= GoInt.max_int ->
           2 * jitter draw0 ms <= 3 * ms).
Proof.
  split.
  - apply (SimpleBackoff_Next_zero_based (NewSimpleBackoff 0 true [10; 20; 30]) draw0 3);
      simpl; lia.
  - apply (SimpleBackoff_Next_zero_based (NewSimpleBackoff 0 true [10; 20; 30]) draw0 1);
      simpl; lia.
Qed.

(** ** The retry loop, one iteration at a time *)

Section RetryFacts.

Context {St B : Type} `{Backoffer B}.
Variables (env : Env) (fn : AttemptFn (St := St)) (b : B).

Lemma retried_guard (e : error) :
  retried e -> match asRetrier e with Some r => negb r | None => false end = false.
Proof.
  unfold retried. destruct (asRetrier e) as [[]|]; simpl; congruence.
Qed.


Lemma retry_loop_success fuel n s s' :
  fn (HTTP.mkContext (Some n)) s = (Returned None, s') ->
  retry_loop (S fuel) env fn b n s = Some (mkRun (Returned None) s' [EvAttempt n (Returned None)]).
Proof. intros Hfn. cbn [retry_loop]. rewrite Hfn. reflexivity. Qed.

(** A failure whose [Retry] method returns false ends the run at once:
    one invocation, no call of [Next], whatever the policy. *)
Lemma retry_loop_not_retryable fuel n s s' e :
  fn (HTTP.mkContext (Some n)) s = (Returned (Some e), s') ->
  asRetrier e = Some false ->
  retry_loop (S fuel) env fn b n s
  = Some (mkRun (Returned (Some e)) s' [EvAttempt n (Returned (Some e))]).
Proof. intros Hfn He. cbn [retry_loop]. rewrite Hfn, He. reflexivity. Qed.

Lemma retry_loop_stop fuel n s s' e wait :
  fn (HTTP.mkContext (Some n)) s = (Returned (Some e), s') ->
  retried e ->
  Next b (draws env (GoInt.add n 1)) (GoInt.add n 1) = Some (wait, false) ->
  retry_loop (S fuel) env fn b n s
  = Some (mkRun (Returned (Some e)) s'
            [EvAttempt n (Returned (Some e)); EvNext (GoInt.add n 1) wait false]).
Proof.
  intros Hfn He Hnext. cbn [retry_loop].
  rewrite Hfn, (retried_guard e He), Hnext. reflexivity.
Qed.

Lemma retry_loop_cancelled fuel n s s' e wait ce :
  fn (HTTP.mkContext (Some n)) s = (Returned (Some e), s') ->
  retried e ->
  Next b (draws env (GoInt.add n 1)) (GoInt.add n 1) = Some (wait, true) ->
  selects env (GoInt.add n 1) = Some ce ->
  retry_loop (S fuel) env fn b n s
  = Some (mkRun (Returned (Some (contextError ce))) s'
            [EvAttempt n (Returned (Some e)); EvNext (GoInt.add n 1) wait true;
             EvWait wait (Some ce)]).
Proof.
  intros Hfn He Hnext Hsel. cbn [retry_loop].
  rewrite Hfn, (retried_guard e He), Hnext, Hsel. reflexivity.
Qed.

Lemma retry_loop_waited fuel n s s' e wait :
  fn (HTTP.mkContext (Some n)) s = (Returned (Some e), s') ->
  retried e ->
  Next b (draws env (GoInt.add n 1)) (GoInt.add n 1) = Some (wait, true) ->
  selects env (GoInt.add n 1) = None ->
  retry_loop (S fuel) env fn b n s
  = before [EvAttempt n (Returned (Some e)); EvNext (GoInt.add n 1) wait true; EvWait wait None]
      <$> retry_loop fuel env fn b (GoInt.add n 1) s'.
Proof.
  intros Hfn He Hnext Hsel. cbn [retry_loop].
  rewrite Hfn, (retried_guard e He), Hnext, Hsel. reflexivity.
Qed.

(** Every iteration starts by invoking the attempt function, with the
    counter in the context. *)
Lemma retry_loop_starts_with_attempt fuel n s r :
  retry_loop fuel env fn b n s = Some r ->
  exists rest,
    trace r = EvAttempt n (fn (HTTP.mkContext (Some n)) s).1 :: rest.
Proof.
  destruct fuel as [|fuel]; [discriminate |]. cbn [retry_loop].
  destruct (fn (HTTP.mkContext (Some n)) s) as [[[e|]|] s'] eqn:Hfn; simpl.
  - destruct (match asRetrier e with Some r0 => negb r0 | None => false end).
    { intros [= <-]. eexists. reflexivity. }
    destruct (Next b (draws env (GoInt.add n 1)) (GoInt.add n 1)) as [[wait []]|].
    + destruct (selects env (GoInt.add n 1)).
      * intros [= <-]. eexists. reflexivity.
      * destruct (retry_loop fuel env fn b (GoInt.add n 1) s'); [| discriminate].
        intros [= <-]. eexists. reflexivity.
    + intros [= <-]. eexists. reflexivity.
    + intros [= <-]. eexists. reflexivity.
  - intros [= <-]. eexists. reflexivity.
  - intros [= <-]. eexists. reflexivity.
Qed.

(** C3: when an attempt failed with a failure the loop retries and the
    policy answered continue, the wait decides: if the context is done
    first, the run ends there with the error of the context as its result
    (whatever the failure of the attempt was) and with no attempt after
    the wait; if the timer fires first, the loop goes on, and what it does
    next is to invoke the attempt function with the next counter value. *)
Theorem retry_wait_cancel_or_next_attempt :
  forall (fuel : nat) (n : Z) (s s' : St) (e : error) (wait : Duration),
    fn (HTTP.mkContext (Some n)) s = (Returned (Some e), s') ->
    retried e ->
    Next b (draws env (GoInt.add n 1)) (GoInt.add n 1) = Some (wait, true) ->
    (forall ce,
        selects env (GoInt.add n 1) = Some ce ->
        retry_loop (S fuel) env fn b n s
        = Some (mkRun (Returned (Some (contextError ce))) s'
                  [EvAttempt n (Returned (Some e)); EvNext (GoInt.add n 1) wait true;
                   EvWait wait (Some ce)]))
    /\ (selects env (GoInt.add n 1) = None ->
        retry_loop (S fuel) env fn b n s
        = before [EvAttempt n (Returned (Some e)); EvNext (GoInt.add n 1) wait true;
                  EvWait wait None]
            <$> retry_loop fuel env fn b (GoInt.add n 1) s'
        /\ forall r,
            retry_loop (S fuel) env fn b n s = Some r ->
            exists rest,
              trace r
              = [EvAttempt n (Returned (Some e)); EvNext (GoInt.add n 1) wait true;
                 EvWait wait None;
                 EvAttempt (GoInt.add n 1)
                   (fn (HTTP.mkContext (Some (GoInt.add n 1))) s').1] ++ rest).
Proof.
  intros fuel n s s' e wait Hfn He Hnext. split.
  - intros ce Hsel. exact (retry_loop_cancelled fuel n s s' e wait ce Hfn He Hnext Hsel).
  - intros Hsel.
    pose proof (retry_loop_waited fuel n s s' e wait Hfn He Hnext Hsel) as Heq.
    split; [exact Heq |].
    intros r Hr. rewrite Heq in Hr.
    destruct (retry_loop fuel env fn b (GoInt.add n 1) s') as [r'|] eqn:Hnextrun;
      [| discriminate].
    injection Hr as <-.
    destruct (retry_loop_starts_with_attempt _ _ _ _ Hnextrun) as [rest Hrest].
    exists rest. simpl. rewrite Hrest. reflexivity.
Qed.

End RetryFacts.

Lemma retryableErr_retried : retried retryableErr.
Proof. unfold retried. simpl. discriminate. Qed.

Lemma NewClientErr_Retry :
  (NewClientErr [Retry]).1
  = Some
  (mkHTTPErr "" URL.zero "" "received unexpected response" "" "" 0 true false false).
Proof. reflexivity. Qed.

Lemma retry_wait_cancel_or_next_attempt_witness :
  retry_loop 3 (envCancelAt 2) alwaysRetryable (NewConstantBackoff Nanosecond 5) 1 1%nat
  = Some (mkRun (Returned (Some (contextError Canceled))) 2%nat
            [EvAttempt 1 (Returned (Some retryableErr)); EvNext 2 Nanosecond true;
             EvWait Nanosecond (Some Canceled)])
  /\ (retry_loop 3 (envCancelAt 2) alwaysRetryable (NewConstantBackoff Nanosecond 5) 0 0%nat
      = before [EvAttempt 0 (Returned (Some retryableErr)); EvNext 1 Nanosecond true;
                EvWait Nanosecond None]
          <$> retry_loop 2 (envCancelAt 2) alwaysRetryable
                (NewConstantBackoff Nanosecond 5) 1 1%nat
      /\ forall r,
          retry_loop 3 (envCancelAt 2) alwaysRetryable (NewConstantBackoff Nanosecond 5)
            0 0%nat = Some r ->
          exists rest,
            trace r
            = [EvAttempt 0 (Returned (Some retryableErr)); EvNext 1 Nanosecond true;
               EvWait Nanosecond None; EvAttempt 1 (Returned (Some retryableErr))] ++ rest).
Proof.
  split.
  - exact (proj1 (retry_wait_cancel_or_next_attempt (envCancelAt 2) alwaysRetryable
                    (NewConstantBackoff Nanosecond 5) 2 1 1%nat 2%nat retryableErr
                    Nanosecond eq_refl retryableErr_retried eq_refl) Canceled eq_refl).
  - exact (proj2 (retry_wait_cancel_or_next_attempt (envCancelAt 2) alwaysRetryable
                    (NewConstantBackoff Nanosecond 5) 2 0 0%nat 1%nat retryableErr
                    Nanosecond eq_refl retryableErr_retried eq_refl) eq_refl).
Defined.

(** ** Whole runs of the retry loop *)

Lemma attempts_app (l1 l2 : list event) :
  attempts (l1 ++ l2) = (attempts l1 + attempts l2)%nat.
Proof. unfold attempts. rewrite List.filter_app, List.length_app. reflexivity. Qed.

Lemma lastAttempt_app (l1 l2 : list event) (x : outcome) :
  lastAttempt l2 = Some x -> lastAttempt (l1 ++ l2) = Some x.
Proof.
  unfold lastAttempt. rewrite omap_app. intros Hlast.
  destruct (omap attemptErr l2) as [|y ys] eqn:E; [discriminate |].
  rewrite <- Hlast. clear Hlast E.
  induction (omap attemptErr l1) as [|z zs IH]; [reflexivity |].
  simpl. destruct (zs ++ y :: ys) eqn:E'; [destruct zs; discriminate | exact IH].
Qed.

Lemma stopIsLast_split (pre post : list event) (k : Z) (w : Duration) :
  stopIsLast (pre ++ EvNext k w false :: post) = true -> post = [].
Proof.
  induction pre as [|ev pre IH]; simpl.
  - destruct post; [reflexivity | discriminate].
  - destruct ev as [| k' w' [] |]; try exact IH.
    destruct (pre ++ EvNext k w false :: post) eqn:E; [destruct pre; discriminate |].
    discriminate.
Qed.

Section Runs.

Context {St B : Type} `{Backoffer B}.
Variables (env : Env) (fn : AttemptFn (St := St)) (b : B).

Lemma retry_loop_stopIsLast fuel :
  forall n s r,
    retry_loop fuel env fn b n s = Some r -> stopIsLast (trace r) = true.
Proof.
  induction fuel as [|fuel IH]; intros n s r; [discriminate |].
  cbn [retry_loop].
  destruct (fn (HTTP.mkContext (Some n)) s) as [[[e|]|] s'] eqn:Hfn.
  - destruct (match asRetrier e with Some r0 => negb r0 | None => false end).
    { intros [= <-]. reflexivity. }
    destruct (Next b (draws env (GoInt.add n 1)) (GoInt.add n 1)) as [[wait []]|].
    + destruct (selects env (GoInt.add n 1)).
      * intros [= <-]. reflexivity.
      * destruct (retry_loop fuel env fn b (GoInt.add n 1) s') as [r'|] eqn:Hrun;
          [| discriminate].
        intros [= <-]. simpl. exact (IH _ _ _ Hrun).
    + intros [= <-]. reflexivity.
    + intros [= <-]. reflexivity.
  - intros [= <-]. reflexivity.
  - intros [= <-]. reflexivity.
Qed.

(** The orchestrator consults a policy instance no more once it answered
    stop. *)
Lemma retry_stop_is_final fuel n s r pre post k w :
  retry_loop fuel env fn b n s = Some r ->
  trace r = pre ++ EvNext k w false :: post ->
  post = [].
Proof.
  intros Hrun Htr. apply (stopIsLast_split pre post k w).
  rewrite <- Htr. exact (retry_loop_stopIsLast fuel n s r Hrun).
Qed.

(** A policy that answers stop at attempt number [N] and answers (does
    not panic) at the numbers below it bounds the run: started with the
    counter at [n < N], with every attempt failing with a failure the
    loop retries and no cancellation, the loop returns after at most [N - n] attempts, with
    the failure of its last attempt; after exactly [N - n] when the
    policy answers continue at every number below [N]. *)
Lemma retry_loop_bounded (N : Z) (P : error -> Prop) :
  N <= GoInt.max_int ->
  (forall d, exists w, Next b d N = Some (w, false)) ->
  (forall d k, 1 <= k < N -> Next b d k <> None) ->
  (forall ctx s, exists e, (fn ctx s).1 = Returned (Some e) /\ retried e /\ P e) ->
  (forall k, selects env k = None) ->
  forall (j : nat) (n : Z) (s : St) (fuel : nat),
    0 <= n -> n + Z.of_nat j = N - 1 -> (S j <= fuel)%nat ->
    exists r e,
      retry_loop fuel env fn b n s = Some r
      /\ P e
      /\ result r = Returned (Some e)
      /\ lastAttempt (trace r) = Some (Returned (Some e))
      /\ (1 <= attempts (trace r) <= S j)%nat
      /\ ((forall d k, 1 <= k < N -> exists w, Next b d k = Some (w, true)) ->
          attempts (trace r) = S j).
Proof.
  intros Hmax Hstop Hanswer Hfn Hsel.
  induction j as [|j IH]; intros n s fuel Hn Hj Hfuel;
    (destruct fuel as [|fuel]; [lia |]);
    destruct (Hfn (HTTP.mkContext (Some n)) s) as (e & He & Hret & HP);
    destruct (fn (HTTP.mkContext (Some n)) s) as [o s'] eqn:Hfneq;
    simpl in He; subst o;
    assert (Hadd : GoInt.add n 1 = n + 1) by (apply (add_one_id n N); lia).
  - assert (Hlast : GoInt.add n 1 = N) by lia.
    destruct (Hstop (draws env N)) as [w Hw].
    exists (mkRun (Returned (Some e)) s' [EvAttempt n (Returned (Some e)); EvNext (GoInt.add n 1) w false]), e.
    split.
    { apply (retry_loop_stop env fn b fuel n s s' e w Hfneq Hret).
      rewrite Hlast. exact Hw. }
    split; [exact HP |]. split; [reflexivity |]. split; [reflexivity |].
    split; [unfold attempts; simpl; lia | reflexivity].
  - destruct (Next b (draws env (GoInt.add n 1)) (GoInt.add n 1)) as [[w c]|] eqn:Hnext.
    2: { exfalso. apply (Hanswer (draws env (GoInt.add n 1)) (GoInt.add n 1)); [lia | exact Hnext]. }
    destruct c.
    + destruct (IH (GoInt.add n 1) s' fuel)
        as (r & e' & Hrun & HP' & Hres & Hlast & Hatt & Hexact);
        [lia | lia | lia |].
      exists (before [EvAttempt n (Returned (Some e)); EvNext (GoInt.add n 1) w true; EvWait w None] r), e'.
      split.
      { rewrite (retry_loop_waited env fn b fuel n s s' e w Hfneq Hret Hnext (Hsel _)).
        rewrite Hrun. reflexivity. }
      split; [exact HP' |]. split; [exact Hres |].
      split; [apply (lastAttempt_app [_; _; _]); exact Hlast |].
      simpl trace. change (EvAttempt n (Returned (Some e)) :: EvNext (GoInt.add n 1) w true
                             :: EvWait w None :: trace r)
        with ([EvAttempt n (Returned (Some e)); EvNext (GoInt.add n 1) w true; EvWait w None] ++ trace r).
      rewrite attempts_app. change (attempts [_; _; _]) with 1%nat.
      split; [lia |]. intros Hcont. rewrite (Hexact Hcont). reflexivity.
    + exists (mkRun (Returned (Some e)) s' [EvAttempt n (Returned (Some e)); EvNext (GoInt.add n 1) w false]), e.
      split; [exact (retry_loop_stop env fn b fuel n s s' e w Hfneq Hret Hnext) |].
      split; [exact HP |]. split; [reflexivity |]. split; [reflexivity |].
      split; [unfold attempts; simpl; lia |].
      intros Hcont. exfalso.
      destruct (Hcont (draws env (GoInt.add n 1)) (GoInt.add n 1)) as [w' Hw']; [lia |].
      congruence.
Qed.


End Runs.

(** ** The built-in policies in the loop *)

Lemma builtin_stops_at_maxCalls (p : builtin) (N : Z) (d : Draw) :
  maxCalls p = Some N -> 0 < N -> exists w, Next p d N = Some (w, false).
Proof.
  intros Hp HN.
  assert (Hcond : (0 <? N) && (N =? N) = true)
    by (apply andb_true_iff; split; [apply Z.ltb_lt; exact HN | apply Z.eqb_refl]).
  destruct p as [b | b | b | b | b]; simpl in Hp; try discriminate;
    injection Hp as Hp; exists 0;
    unfold Next, builtin_Backoffer, Next, ZeroBackoff_Backoffer, ConstantBackoff_Backoffer,
      ExponentialBackoff_Backoffer, SimpleBackoff_Backoffer, ZeroBackoff_Next,
      ConstantBackoff_Next, ExponentialBackoff_Next, SimpleBackoff_Next;
    rewrite Hp, Hcond; reflexivity.
Qed.

Lemma builtin_answers (p : builtin) (d : Draw) (k : Z) :
  0 <= k -> Next p d k <> None.
Proof.
  intros Hk. destruct p as [b | b | b | b | b]; try discriminate.
  unfold Next, builtin_Backoffer, Next, SimpleBackoff_Backoffer, SimpleBackoff_Next.
  destruct ((0 <? simple_maxCalls b) && (k =? simple_maxCalls b)); [discriminate |].
  destruct (k >=? Z.of_nat (length (ticks b))) eqn:E; [discriminate |].
  destruct (index_in_range (ticks b) k) as [ms ->]; [lia | discriminate].
Qed.

Lemma ZeroBackoff_Next_eq (b : ZeroBackoff) (d : Draw) (n : Z) :
  Next (Zero b) d n
  = Some (0, negb ((0 <? zero_maxCalls b) && (n =? zero_maxCalls b))).
Proof.
  unfold Next, builtin_Backoffer, Next, ZeroBackoff_Backoffer, ZeroBackoff_Next.
  destruct ((0 <? zero_maxCalls b) && (n =? zero_maxCalls b)); reflexivity.
Qed.

Lemma ConstantBackoff_Next_eq (b : ConstantBackoff) (d : Draw) (n : Z) :
  Next (Constant b) d n
  = Some (if (0 <? const_maxCalls b) && (n =? const_maxCalls b)
          then (0, false) else (interval b, true)).
Proof.
  unfold Next, builtin_Backoffer, Next, ConstantBackoff_Backoffer, ConstantBackoff_Next.
  destruct ((0 <? const_maxCalls b) && (n =? const_maxCalls b)); reflexivity.
Qed.

Lemma SimpleBackoff_stays_stopped (b : SimpleBackoff) (d d' : Draw) (n n' : Z) :
  simple_maxCalls b <= 0 -> 0 <= n <= n' ->
  (exists w, Next (Simple b) d n = Some (w, false)) ->
  exists w, Next (Simple b) d' n' = Some (w, false).
Proof.
  intros Hmax Hn [w Hw]. exists 0. revert Hw.
  unfold Next, builtin_Backoffer, Next, SimpleBackoff_Backoffer, SimpleBackoff_Next.
  assert (Hoff : forall k, (0 <? simple_maxCalls b) && (k =? simple_maxCalls b) = false).
  { intros k. destruct (0 <? simple_maxCalls b) eqn:E; [lia | reflexivity]. }
  rewrite !Hoff.
  destruct (n >=? Z.of_nat (length (ticks b))) eqn:E.
  - intros _. destruct (n' >=? Z.of_nat (length (ticks b))) eqn:E'; [reflexivity | lia].
  - destruct (index (ticks b) n); discriminate.
Qed.

Lemma stopsOnlyAtMax_continues (p : builtin) (N : Z) (d : Draw) (k : Z) :
  stopsOnlyAtMax p = true -> maxCalls p = Some N -> k <> N ->
  exists w, Next p d k = Some (w, true).
Proof.
  intros Hp HN Hk. destruct p as [b | b | b | b | b]; try discriminate;
    simpl in HN; injection HN as HN.
  - rewrite ZeroBackoff_Next_eq, HN.
    destruct (k =? N) eqn:E; [lia |]. rewrite andb_false_r. eexists. reflexivity.
  - rewrite ConstantBackoff_Next_eq, HN.
    destruct (k =? N) eqn:E; [lia |]. rewrite andb_false_r. eexists. reflexivity.
Qed.






(** C5, the claim at a concrete policy: the no-wait policy with max
    attempts 3 answers stop at attempt 3 and continue at attempt 4. *)
Lemma ZeroBackoff_continues_after_stop :
  Next (Zero (NewZeroBackoff 3)) draw0 3 = Some (0, false)
  /\ Next (Zero (NewZeroBackoff 3)) draw0 4 = Some (0, true).
Proof. split; reflexivity. Qed.

(** C5, amended: the retry loop never calls [Next] again on an instance
    after a call answered stop.  The instances themselves keep no state and
    the answer is a function of the attempt number (and the draw): the
    never-retry policy stops at every number; a policy with max attempts
    [N > 0] stops at [N]; the no-wait and the fixed-interval policy stop at
    no other number, so they continue at the numbers above [N]; the
    fixed-schedule policy without a maximum stays stopped at every larger
    number once it stopped. *)
Theorem stop_ends_the_run_but_is_not_sticky :
  (forall (St B : Type) (H : Backoffer B) (env : Env) (fn : AttemptFn (St := St)) (b : B)
          (fuel : nat) (n : Z) (s : St) (r : Run St) (pre post : list event)
          (k : Z) (w : Duration),
      retry_loop fuel env fn b n s = Some r ->
      trace r = pre ++ EvNext k w false :: post ->
      post = [])
  /\ (forall (b : StopBackoff) (d : Draw) (n : Z), Next (Stop b) d n = Some (0, false))
  /\ (forall (p : builtin) (N : Z) (d : Draw),
         maxCalls p = Some N -> 0 < N -> exists w, Next p d N = Some (w, false))
  /\ (forall (b : ZeroBackoff) (d : Draw) (n : Z),
         Next (Zero b) d n
         = Some (0, negb ((0 <? zero_maxCalls b) && (n =? zero_maxCalls b))))
  /\ (forall (b : ConstantBackoff) (d : Draw) (n : Z),
         Next (Constant b) d n
         = Some (if (0 <? const_maxCalls b) && (n =? const_maxCalls b)
                 then (0, false) else (interval b, true)))
  /\ (forall (b : SimpleBackoff) (d d' : Draw) (n n' : Z),
         simple_maxCalls b <= 0 -> 0 <= n <= n' ->
         (exists w, Next (Simple b) d n = Some (w, false)) ->
         exists w, Next (Simple b) d' n' = Some (w, false)).
Proof.
  split; [| split; [| split; [| split; [| split]]]].
  - intros St B H env fn b fuel n s r pre post k w.
    apply retry_stop_is_final.
  - reflexivity.
  - intros p N d. apply builtin_stops_at_maxCalls.
  - apply ZeroBackoff_Next_eq.
  - apply ConstantBackoff_Next_eq.
  - apply SimpleBackoff_stays_stopped.
Qed.

Lemma stop_ends_the_run_but_is_not_sticky_witness :
  (retry_loop 5 env0 alwaysRetryable (NewConstantBackoff Nanosecond 3) 0 0%nat
   = Some constantRun
   /\ trace constantRun = removelast (trace constantRun) ++ EvNext 3 0 false :: []
   /\ @nil event = [])
  /\ (maxCalls (Constant (NewConstantBackoff Nanosecond 3)) = Some 3
      /\ exists w, Next (Constant (NewConstantBackoff Nanosecond 3)) draw0 3 = Some (w, false))
  /\ (exists w, Next (Simple (NewSimpleBackoff 0 false [10; 20])) draw0 2 = Some (w, false))
     /\ exists w, Next (Simple (NewSimpleBackoff 0 false [10; 20])) draw0 7 = Some (w, false).
Proof.
  split; [| split].
  - split; [reflexivity |]. split; [reflexivity |].
    exact (proj1 stop_ends_the_run_but_is_not_sticky nat ConstantBackoff _ env0
             alwaysRetryable (NewConstantBackoff Nanosecond 3) 5%nat 0 0%nat constantRun
             (removelast (trace constantRun)) [] 3 0 eq_refl eq_refl).
  - split; [reflexivity |].
    apply (proj1 (proj2 (proj2 stop_ends_the_run_but_is_not_sticky))); [reflexivity | lia].
  - assert (Hstop : exists w, Next (Simple (NewSimpleBackoff 0 false [10; 20])) draw0 2
                              = Some (w, false)) by (exists 0; reflexivity).
    split; [exact Hstop |].
    apply (proj2 (proj2 (proj2 (proj2 (proj2 stop_ends_the_run_but_is_not_sticky))))
             (NewSimpleBackoff 0 false [10; 20]) draw0 draw0 2 7);
      [simpl; lia | lia | exact Hstop].
Defined.

(** ** The configuration error in the loop *)

Section MissingEncoder.

Context {St V : Type}.
Variable NewRequest : string -> string -> option IO.ReadCloser -> HTTP.Request + error.

Lemma do_without_encoder (r : Request (St := St) (V := V) (B := builtin))
      (ctx : HTTP.Context) (s : St) :
  is_Some (body r) -> encodeFn r = None ->
  do NewRequest r ctx s = mkDoResult (Returned (Some ErrInvalidEncodeFn)) s None None.
Proof.
  intros [v Hv] Henc. unfold do, buildRequest. rewrite Hv, Henc. reflexivity.
Qed.

(** C1: the error [do] returns for a body without an encode function has
    no [Retry] method, so it is not retryable by [isRetryErr], and yet the
    loop retries it: under a policy that stops only at its max attempts
    [N], [Do] invokes the attempt [N] times before it returns the error,
    and the transport is never reached. *)
Theorem Do_retries_ErrInvalidEncodeFn :
  forall (r : Request (St := St) (V := V) (B := builtin)) (env : Env) (s : St)
         (fuel : nat) (N : Z),
    is_Some (body r) ->
    encodeFn r = None ->
    stopsOnlyAtMax (backoff r) = true ->
    maxCalls (backoff r) = Some N ->
    0 < N <= GoInt.max_int ->
    (forall k, selects env k = None) ->
    (Z.to_nat N <= fuel)%nat ->
    isRetryErr (Some ErrInvalidEncodeFn) = false
    /\ exists run,
        Do NewRequest fuel env r s = Some run
        /\ result run = Returned (Some ErrInvalidEncodeFn)
        /\ attempts (trace run) = Z.to_nat N.
Proof.
  intros r env s fuel N Hbody Henc Honly Hmax HN Hsel Hfuel.
  split; [reflexivity |].
  destruct (retry_loop_bounded env (attempt NewRequest r) (backoff r) N
              (fun e => e = ErrInvalidEncodeFn))
    with (j := Z.to_nat (N - 1)) (n := 0) (s := s) (fuel := fuel)
    as (run & e & Hrun & -> & Hres & _ & _ & Hexact); try lia.
  - intros d. apply builtin_stops_at_maxCalls; [exact Hmax | lia].
  - intros d k Hk. apply builtin_answers. lia.
  - intros ctx s0. exists ErrInvalidEncodeFn. unfold attempt.
    rewrite (do_without_encoder r ctx s0 Hbody Henc).
    split; [reflexivity |]. split; [| reflexivity].
    unfold retried. simpl. discriminate.
  - exact Hsel.
  - exists run. split; [exact Hrun |]. split; [exact Hres |].
    replace (Z.to_nat N) with (S (Z.to_nat (N - 1))) by lia.
    apply Hexact. intros d k Hk.
    apply (stopsOnlyAtMax_continues (backoff r) N); [exact Honly | exact Hmax | lia].
Qed.

End MissingEncoder.

Lemma Do_retries_ErrInvalidEncodeFn_witness :
  isRetryErr (Some ErrInvalidEncodeFn) = false
  /\ exists run,
      Do plainRequest 5 env0 requestWithoutEncoder 0%nat = Some run
      /\ result run = Returned (Some ErrInvalidEncodeFn)
      /\ attempts (trace run) = Z.to_nat 3.
Proof.
  apply (Do_retries_ErrInvalidEncodeFn plainRequest requestWithoutEncoder env0 0%nat 5%nat 3).
  - exists "payload"%string. reflexivity.
  - reflexivity.
  - reflexivity.
  - reflexivity.
  - unfold GoInt.max_int. lia.
  - reflexivity.
  - simpl. lia.
Defined.

(** The loop at the failing input, computed: three invocations, each
    returning the configuration error, and no call of the transport. *)
Lemma Do_requestWithoutEncoder :
  Do plainRequest 5 env0 requestWithoutEncoder 0%nat
  = Some (mkRun (Returned (Some ErrInvalidEncodeFn)) 0%nat
            [EvAttempt 0 (Returned (Some ErrInvalidEncodeFn)); EvNext 1 Nanosecond true;
             EvWait Nanosecond None;
             EvAttempt 1 (Returned (Some ErrInvalidEncodeFn)); EvNext 2 Nanosecond true;
             EvWait Nanosecond None;
             EvAttempt 2 (Returned (Some ErrInvalidEncodeFn)); EvNext 3 0 false]).
Proof. reflexivity. Qed.

(** A classified failure without the retry flag is returned by the loop at
    once, under every policy and whatever the random source and the context
    do. *)
Lemma retry_returns_unflagged_HTTPErr
      {St B : Type} `{Backoffer B} (env : Env) (fn : AttemptFn (St := St)) (b : B)
      (fuel : nat) (s s' : St) (e : HTTPErr) :
  fn (HTTP.mkContext (Some 0)) s = (Returned (Some (httpError e)), s') ->
  retry_ e = false ->
  retry (S fuel) env fn b s
  = Some (mkRun (Returned (Some (httpError e))) s' [EvAttempt 0 (Returned (Some (httpError e)))]).
Proof.
  intros Hfn He. apply retry_loop_not_retryable; [exact Hfn |].
  simpl. unfold HTTPErr_Retry. rewrite He. reflexivity.
Qed.

(** ** The classified failure *)

Lemma Get_Set_ne (q : URL.Values) (k k' v : string) :
  k <> k' -> URL.Get (URL.Set_ q k v) k' = URL.Get q k'.
Proof.
  intros Hne. unfold URL.Get, URL.Set_. rewrite lookup_insert_ne by exact Hne. reflexivity.
Qed.

Lemma redactQuery_lookup (q : URL.Values) (k : string) :
  redactQuery q !! k
  = if (String.eqb k "access_token" || String.eqb k "secret")
       && negb (String.eqb (URL.Get q k) "")
    then Some [REDACTED] else q !! k.
Proof.
  unfold redactQuery. cbv zeta.
  assert (Hsec : URL.Get (if negb (String.eqb (URL.Get q "access_token") "")
                          then URL.Set_ q "access_token" REDACTED else q) "secret"
                 = URL.Get q "secret").
  { destruct (negb (String.eqb (URL.Get q "access_token") ""));
      [apply Get_Set_ne; discriminate | reflexivity]. }
  rewrite Hsec.
  destruct (String.eqb_spec k "access_token") as [Hk1 | Hk1];
    destruct (String.eqb_spec k "secret") as [Hk2 | Hk2]; try congruence; subst; simpl;
    destruct (negb (String.eqb (URL.Get q "access_token") ""));
    destruct (negb (String.eqb (URL.Get q "secret") ""));
    unfold URL.Set_;
    repeat first [ rewrite lookup_insert_eq | rewrite lookup_insert_ne by congruence ];
    reflexivity.
Qed.

(** When [Get] finds a value that is not empty under [access_token] or
    [secret], every value under that key is replaced by the marker. *)
Lemma redactQuery_redacts (q : URL.Values) (k : string) :
  k = "access_token" \/ k = "secret" ->
  URL.Get q k <> "" ->
  redactQuery q !! k = Some [REDACTED].
Proof.
  intros Hk Hget. rewrite redactQuery_lookup.
  destruct (String.eqb_spec (URL.Get q k) ""); [contradiction |].
  destruct Hk as [-> | ->]; reflexivity.
Qed.

(** Two queries that differ only in the values under the two keys, each
    key having a first value that is not empty in both or the same values
    in both, are redacted to the same query: what [errorBase] writes does
    not depend on those values. *)
Lemma redactQuery_noninterference (q1 q2 : URL.Values) :
  (forall k, k <> "access_token" -> k <> "secret" -> q1 !! k = q2 !! k) ->
  (forall k, k = "access_token" \/ k = "secret" ->
             (URL.Get q1 k <> "" /\ URL.Get q2 k <> "") \/ q1 !! k = q2 !! k) ->
  redactQuery q1 = redactQuery q2.
Proof.
  intros Hother Hsecret. apply map_eq. intros k. rewrite !redactQuery_lookup.
  destruct (String.eqb_spec k "access_token") as [Hk1 | Hk1];
    destruct (String.eqb_spec k "secret") as [Hk2 | Hk2]; simpl;
    try (apply Hother; assumption).
  all: destruct (Hsecret k) as [[H1 H2] | Heq]; [tauto | |].
  all: try (destruct (String.eqb_spec (URL.Get q1 k) ""); [contradiction |];
            destruct (String.eqb_spec (URL.Get q2 k) ""); [contradiction |]; reflexivity).
  all: unfold URL.Get; rewrite Heq; destruct (q2 !! k) as [[|v vs]|]; simpl; try reflexivity;
    destruct (String.eqb v ""); reflexivity.
Qed.

Lemma errorBase_noninterference (e1 e2 : HTTPErr) :
  statusCode e1 = statusCode e2 -> method e1 = method e2 ->
  URL.Prefix (u e1) = URL.Prefix (u e2) ->
  URL.ForceQuery (u e1) = URL.ForceQuery (u e2) ->
  URL.Fragment (u e1) = URL.Fragment (u e2) ->
  URL.String_ (u e1) <> "" -> URL.String_ (u e2) <> "" ->
  redactQuery (URL.Query (u e1)) = redactQuery (URL.Query (u e2)) ->
  (errorBase e1).1 = (errorBase e2).1.
Proof.
  intros Hs Hm Hp Hf Hfr H1 H2 Hq. unfold errorBase.
  destruct (String.eqb_spec (URL.String_ (u e1)) ""); [contradiction |].
  destruct (String.eqb_spec (URL.String_ (u e2)) ""); [contradiction |].
  simpl. unfold URL.withRawQuery, URL.String_. simpl.
  rewrite Hs, Hm, Hp, Hf, Hfr, Hq. reflexivity.
Qed.

(** C8: a URL can carry a secret the redaction misses.  In [tokenURL] the
    key [access_token] has the values [""] and [XYZ]; [Get] returns the
    first, the empty one, so [errorBase] leaves the key as it is, and both
    [Error()] and [BackoffMessage()] contain [XYZ] and no marker. *)
Theorem Error_leaks_second_access_token :
  (NewClientErr [Resp (Some tokenResponse)]).1 = Some tokenErr
  /\ URL.Query tokenURL !! "access_token" = Some [""; "XYZ"]
  /\ (BackoffMessage tokenErr).1
     = "status=401 method=GET url="
       +:+ Str.Quote "http://example.com/login?access_token=&access_token=XYZ"
  /\ Str.Contains (Error tokenErr).1 "XYZ" = true
  /\ Str.Contains (BackoffMessage tokenErr).1 "XYZ" = true
  /\ Str.Contains (Error tokenErr).1 REDACTED = false.
Proof. vm_compute. repeat split. Qed.

Lemma recordRequest_reqBody (e e' : HTTPErr) (req req' : HTTP.Request) :
  recordRequest e req = Some (e', req') -> reqBody e' = reqBody e.
Proof.
  unfold recordRequest.
  destruct (HTTP.Header_ req) as [h|]; [| intros [= <- _]; reflexivity].
  destruct (Str.Contains (HTTP.Get h "Content-Type") "application/json");
    [| intros [= <- _]; reflexivity].
  destruct (HTTP.Body req) as [stream|]; [| discriminate].
  simpl. destruct (IO.readErr stream); intros [= <- _]; reflexivity.
Qed.

(** The text of the request body goes to the field [respBody], where the
    text of the response body replaces it unless reading the response
    fails. *)
Lemma recordRequest_respBody (e : HTTPErr) (req : HTTP.Request) (h : HTTP.Header)
      (stream : IO.ReadCloser) :
  HTTP.Header_ req = Some h ->
  Str.Contains (HTTP.Get h "Content-Type") "application/json" = true ->
  HTTP.Body req = Some stream ->
  IO.readErr stream = None ->
  exists e' req',
    recordRequest e req = Some (e', req') /\ respBody e' = IO.pending stream.
Proof.
  intros Hh Hjson Hbody Hread. unfold recordRequest. rewrite Hh, Hjson, Hbody. simpl.
  rewrite Hread. eexists _, _. split; reflexivity.
Qed.

(** C9: no classified failure has a request body.  [NewClientErr] never
    assigns the field [reqBody]: the body it reads from a JSON request is
    stored in [respBody] and then overwritten by the body of the response.
    So for [jsonErr], built from a JSON request with the readable body
    [[1,2,3]], [Error()] ends with the response body and has no
    [request_body] segment. *)
Theorem NewClientErr_never_sets_reqBody :
  (forall (opts : list ErrOptFn) (e : HTTPErr),
      (NewClientErr opts).1 = Some e -> reqBody e = "")
  /\ (NewClientErr [Resp (Some jsonResponse)]).1 = Some jsonErr
  /\ respBody jsonErr = "invalid"
  /\ (Error jsonErr).1
     = "status=422 method=POST url=" +:+ Str.Quote "http://example.com/items"
       +:+ " err=" +:+ Str.Quote "received unexpected response"
       +:+ " response_body=" +:+ Str.Quote "invalid"
  /\ Str.Contains (Error jsonErr).1 "request_body" = false.
Proof.
  split; [| vm_compute; repeat split].
  intros opts e. unfold NewClientErr.
  generalize (applyErrOpts opts). intros opt. cbv zeta.
  destruct (opt_resp opt) as [resp|];
    [| destruct (opt_err opt); intros [= <-]; reflexivity].
  destruct (HTTP.Request_ resp) as [req|].
  - destruct (recordRequest _ req) as [[e1 req']|] eqn:Hrec; [| discriminate].
    assert (He : reqBody e1 = "").
    { rewrite (recordRequest_reqBody _ _ _ _ Hrec). destruct (opt_err opt); reflexivity. }
    simpl. destruct (IO.readErr (HTTP.RespBody resp)); simpl; intros [= <-]; exact He.
  - simpl. destruct (IO.readErr (HTTP.RespBody resp)); destruct (opt_err opt);
      intros [= <-]; reflexivity.
Qed.

(** ** The deferred drain *)

Lemma drain_joins_messages (rc : IO.ReadCloser) :
  (drain rc).1
  = errorString (Str.Join (option_list (IO.readErr rc) ++ option_list (IO.closeErr rc)) "; ").
Proof.
  unfold drain. simpl. destruct (IO.readErr rc), (IO.closeErr rc); reflexivity.
Qed.

Lemma readsAlike_closeErr (ce : option string) (resp : HTTP.Response) :
  readsAlike (respWithCloseErr ce resp) resp.
Proof. repeat split. Qed.

Lemma readsAlike_refl (resp : HTTP.Response) : readsAlike resp resp.
Proof. repeat split. Qed.

Lemma fnsAlike_Resp (r1 r2 : option HTTP.Response) :
  option_Forall2 readsAlike r1 r2 -> fnsAlike (Resp r1) (Resp r2).
Proof.
  intros Hr o1 o2 (? & ? & ? & ? & ? & ?). repeat split; simpl; assumption.
Qed.

Lemma fnsAlike_Err (e : option error) : fnsAlike (Err e) (Err e).
Proof. intros o1 o2 (? & ? & ? & ? & ? & ?). repeat split; simpl; assumption. Qed.

Lemma fnsAlike_Retry : fnsAlike Retry Retry.
Proof. intros o1 o2 (? & ? & ? & ? & ? & ?). repeat split; simpl; assumption. Qed.

Lemma fnsAlike_NotFound : fnsAlike NotFound NotFound.
Proof. intros o1 o2 (? & ? & ? & ? & ? & ?). repeat split; simpl; assumption. Qed.

Lemma fnsAlike_Exists : fnsAlike Exists Exists.
Proof. intros o1 o2 (? & ? & ? & ? & ? & ?). repeat split; simpl; assumption. Qed.

Lemma applyErrOpts_alike (l1 l2 : list ErrOptFn) :
  Forall2 fnsAlike l1 l2 -> optsAlike (applyErrOpts l1) (applyErrOpts l2).
Proof.
  unfold applyErrOpts. intros Hl.
  assert (Hinit : optsAlike (mkErrOpt false false false None "" None)
                            (mkErrOpt false false false None "" None))
    by (repeat split; constructor).
  revert Hinit. generalize (mkErrOpt false false false None "" None) at 1 3.
  generalize (mkErrOpt false false false None "" None).
  induction Hl as [|f g l1 l2 Hfg Hl IH]; intros o2 o1 Hinit; simpl; [exact Hinit |].
  apply IH. apply Hfg. exact Hinit.
Qed.

(** The failure [NewClientErr] builds does not depend on what [Close]
    returns on the body of the response. *)
Lemma NewClientErr_alike (l1 l2 : list ErrOptFn) :
  Forall2 fnsAlike l1 l2 -> (NewClientErr l1).1 = (NewClientErr l2).1.
Proof.
  intros Hl. apply applyErrOpts_alike in Hl. unfold NewClientErr.
  revert Hl. generalize (applyErrOpts l1) (applyErrOpts l2).
  intros o1 o2 (Hr & Hn & He & Herr & Hc & Hresp). cbv zeta.
  rewrite Hr, Hn, He, Herr, Hc.
  destruct Hresp as [r1 r2 (Hs & Hreq & Hp & Hrd) |]; [| reflexivity].
  rewrite Hs, Hreq.
  destruct (HTTP.Request_ r2) as [req|].
  - destruct (recordRequest _ req) as [[e req']|]; [| reflexivity]. simpl.
    rewrite Hp, Hrd. destruct (IO.readErr (HTTP.RespBody r2)); reflexivity.
  - simpl. rewrite Hp, Hrd. destruct (IO.readErr (HTTP.RespBody r2)); reflexivity.
Qed.

Ltac alike :=
  repeat match goal with
         | |- Forall2 fnsAlike [] [] => constructor
         | |- Forall2 fnsAlike (_ :: _) (_ :: _) => constructor
         | |- fnsAlike (Err _) (Err _) => apply fnsAlike_Err
         | |- fnsAlike Retry Retry => exact fnsAlike_Retry
         | |- fnsAlike NotFound NotFound => exact fnsAlike_NotFound
         | |- fnsAlike Exists Exists => exact fnsAlike_Exists
         end.

Section DrainFacts.

Context {St V B : Type} `{Backoffer B}.
Variable NewRequest : string -> string -> option IO.ReadCloser -> HTTP.Request + error.

Lemma statusErrOpts_alike (r : Request (St := St) (V := V) (B := B)) (status : Z) :
  Forall2 fnsAlike (statusErrOpts r status) (statusErrOpts r status).
Proof.
  unfold statusErrOpts.
  destruct (statusMatches status (retryStatusFns r)),
           (statusMatches status (notFoundFns r)),
           (statusMatches status (existsFns r)); simpl; alike.
Qed.

Lemma statusErrOpts_withDoer (r : Request (St := St) (V := V) (B := B))
      (d : Doer (St := St)) (status : Z) :
  statusErrOpts (withDoer r d) status = statusErrOpts r status.
Proof. reflexivity. Qed.

Lemma handleResponse_closeErr (r : Request (St := St) (V := V) (B := B))
      (d : Doer (St := St)) (ce : option string) (resp : HTTP.Response) (s : St) :
  do_out (handleResponse (withDoer r d) (respWithCloseErr ce resp) s)
  = do_out (handleResponse r resp s)
  /\ do_st (handleResponse (withDoer r d) (respWithCloseErr ce resp) s)
     = do_st (handleResponse r resp s).
Proof.
  unfold handleResponse. rewrite statusErrOpts_withDoer. simpl.
  destruct (statusMatches (HTTP.StatusCode resp) (successFns r)); simpl.
  - destruct (decodeFn r) as [decode|]; [| split; reflexivity].
    unfold runDecoder. simpl.
    destruct (decode _ _ s) as [[k err] s1].
    destruct err as [e|]; [| split; reflexivity].
    match goal with
    | |- do_out (let '(_, _) := NewClientErr ?l1 in _)
          = do_out (let '(_, _) := NewClientErr ?l2 in _) /\ _ =>
        assert (Hl : (NewClientErr l1).1 = (NewClientErr l2).1)
    end.
    { apply NewClientErr_alike.
      destruct (isRetryErr (Some e)); simpl; alike;
        apply fnsAlike_Resp; constructor; repeat split. }
    revert Hl.
    destruct (NewClientErr _) as [e1 a1]. destruct (NewClientErr _) as [e2 a2].
    simpl. intros ->. split; reflexivity.
  - destruct (onErrorFn r) as [onError|].
    + unfold runDecoder. simpl.
      destruct (onError _ _ s) as [[k err] s1]. simpl.
      destruct (NewClientErr _) as [e1 a1]. split; reflexivity.
    + match goal with
      | |- do_out (let '(_, _) := NewClientErr ?l1 in _)
          = do_out (let '(_, _) := NewClientErr ?l2 in _) /\ _ =>
          assert (Hl : (NewClientErr l1).1 = (NewClientErr l2).1)
      end.
      { apply NewClientErr_alike. simpl. constructor.
        - apply fnsAlike_Resp. constructor. apply readsAlike_closeErr.
        - apply statusErrOpts_alike. }
      revert Hl.
      destruct (NewClientErr _) as [e1 a1]. destruct (NewClientErr _) as [e2 a2].
      simpl. intros ->. split; reflexivity.
Qed.

Lemma responseErr_closeErr (r : Request (St := St) (V := V) (B := B))
      (d : Doer (St := St)) (ce : option string) (resp : option HTTP.Response)
      (err : error) :
  (responseErr (withDoer r d) (respWithCloseErr ce <$> resp) err).1
  = (responseErr r resp err).1.
Proof.
  unfold responseErr. simpl.
  match goal with
  | |- (let '(_, _) := NewClientErr ?l1 in _).1 = (let '(_, _) := NewClientErr ?l2 in _).1 =>
      assert (Hl : (NewClientErr l1).1 = (NewClientErr l2).1)
  end.
  { apply NewClientErr_alike.
    assert (Hresp : fnsAlike (Resp (respWithCloseErr ce <$> resp)) (Resp resp)).
    { apply fnsAlike_Resp. destruct resp; constructor. apply readsAlike_closeErr. }
    destruct (isRetryErr _); alike; exact Hresp. }
  revert Hl.
  destruct (NewClientErr _) as [e1 a1]. destruct (NewClientErr _) as [e2 a2].
  simpl. intros ->. reflexivity.
Qed.

Lemma buildRequest_withDoer (r : Request (St := St) (V := V) (B := B))
      (d : Doer (St := St)) (ctx : HTTP.Context) :
  buildRequest NewRequest (withDoer r d) ctx = buildRequest NewRequest r ctx.
Proof. reflexivity. Qed.

(** What [do] returns, and what it does to the state, is the same whether
    or not [Close] fails on the body of the response. *)
Lemma do_closeErr (r : Request (St := St) (V := V) (B := B)) (ce : option string)
      (ctx : HTTP.Context) (s : St) :
  do_out (do NewRequest (withDoer r (closeFailing ce (doer r))) ctx s)
  = do_out (do NewRequest r ctx s)
  /\ do_st (do NewRequest (withDoer r (closeFailing ce (doer r))) ctx s)
     = do_st (do NewRequest r ctx s).
Proof.
  unfold do. rewrite buildRequest_withDoer.
  destruct (buildRequest NewRequest r ctx) as [req | out]; [| split; reflexivity].
  simpl. unfold closeFailing.
  destruct (doer r req s) as [[resp | resp err] s1]; unfold afterDoer.
  - apply handleResponse_closeErr.
  - pose proof (responseErr_closeErr r (closeFailing ce (doer r)) ce resp err) as Heq.
    unfold closeFailing in Heq. revert Heq.
    destruct (responseErr _ _ err) as [e1 a1]. destruct (responseErr r resp err) as [e2 a2].
    simpl. intros ->. split; reflexivity.
Qed.

(** A success without a decode function returns nil, whatever [drain]
    meets. *)
Lemma handleResponse_success_nil (r : Request (St := St) (V := V) (B := B))
      (resp : HTTP.Response) (s : St) :
  statusMatches (HTTP.StatusCode resp) (successFns r) = true ->
  decodeFn r = None ->
  handleResponse r resp s
  = mkDoResult (Returned None) s (Some (drain (HTTP.RespBody resp)).2)
      (Some (drain (HTTP.RespBody resp)).1).
Proof.
  intros Hstatus Hdec. unfold handleResponse. rewrite Hstatus, Hdec. simpl.
  reflexivity.
Qed.

End DrainFacts.

(** C10, the claim at a concrete call: the transport answers 200 on a
    stream whose [Close] fails; [drain] returns an error with the message of
    the failure, and [do] returns nil. *)
Lemma do_swallows_close_error :
  do_drain (do plainRequest getRequest HTTP.Background 0%nat)
  = Some (errorString "close failed")
  /\ do_out (do plainRequest getRequest HTTP.Background 0%nat) = Returned None.
Proof. split; reflexivity. Qed.

Lemma drain_stream (rc : IO.ReadCloser) :
  (drain rc).2 = IO.mkReadCloser "" (IO.readErr rc) (IO.closeErr rc) true.
Proof. unfold drain. simpl. destruct (IO.readErr rc), (IO.closeErr rc); reflexivity. Qed.

(** C10, amended: [drain] copies the rest of the stream it is given and
    closes it (the stream is left with nothing to read and closed), and
    joins the messages of a failed copy and of a failed [Close] into the
    error it returns; but [do], which calls it in a deferred function,
    does not use that error: what [do] returns and the state it leaves are
    the same whether or not [Close] fails on the body of the response, and
    a success without a decode function returns nil whatever [drain]
    returned. *)
Theorem do_discards_the_error_of_drain :
  (forall rc : IO.ReadCloser,
      (drain rc).2 = IO.mkReadCloser "" (IO.readErr rc) (IO.closeErr rc) true
      /\ (drain rc).1
         = errorString
             (Str.Join (option_list (IO.readErr rc) ++ option_list (IO.closeErr rc)) "; "))
  /\ (forall (St V B : Type) (H : Backoffer B)
             (NewRequest : string -> string -> option IO.ReadCloser -> HTTP.Request + error)
             (r : Request (St := St) (V := V) (B := B)) (ce : option string)
             (ctx : HTTP.Context) (s : St),
         do_out (do NewRequest (withDoer r (closeFailing ce (doer r))) ctx s)
         = do_out (do NewRequest r ctx s)
         /\ do_st (do NewRequest (withDoer r (closeFailing ce (doer r))) ctx s)
            = do_st (do NewRequest r ctx s))
  /\ (forall (St V B : Type) (H : Backoffer B)
             (r : Request (St := St) (V := V) (B := B)) (resp : HTTP.Response) (s : St),
         statusMatches (HTTP.StatusCode resp) (successFns r) = true ->
         decodeFn r = None ->
         handleResponse r resp s
         = mkDoResult (Returned None) s (Some (drain (HTTP.RespBody resp)).2)
             (Some (drain (HTTP.RespBody resp)).1)).
Proof.
  split; [intros rc; split; [apply drain_stream | apply drain_joins_messages] |]. split.
  - intros St V B H NewRequest r ce ctx s. apply do_closeErr.
  - intros St V B H r resp s. apply handleResponse_success_nil.
Qed.

Lemma do_discards_the_error_of_drain_witness :
  statusMatches 200 (successFns getRequest) = true
  /\ decodeFn getRequest = None
  /\ handleResponse getRequest
       (HTTP.mkResponse 200
          (IO.mkReadCloser "hello" (Some "unexpected EOF") (Some "close failed") false) None)
       1%nat
     = mkDoResult (Returned None) 1%nat
         (Some (IO.mkReadCloser "" (Some "unexpected EOF") (Some "close failed") true))
         (Some (errorString "unexpected EOF; close failed")).
Proof.
  split; [reflexivity |]. split; [reflexivity |].
  exact (proj2 (proj2 do_discards_the_error_of_drain) nat string builtin _ getRequest
           (HTTP.mkResponse 200
              (IO.mkReadCloser "hello" (Some "unexpected EOF") (Some "close failed") false)
              None)
           1%nat eq_refl eq_refl).
Defined.

(** * Further properties of the package *)

(** ** Status predicates and the lists the builder keeps *)

(** X1: [StatusIn] is membership in the given codes, [StatusNotIn] is its
    negation, and [StatusNot] is [StatusNotIn] of one code. *)
Theorem StatusIn_membership :
  forall (codes : list Z) (c s : Z),
    (StatusIn codes s = true <-> In s codes)
    /\ (StatusNotIn codes s = true <-> ~ In s codes)
    /\ StatusNot c s = StatusNotIn [c] s.
Proof.
  intros codes c s.
  assert (Hin : StatusIn codes s = true <-> In s codes).
  { induction codes as [|code rest IH]; simpl.
    - split; [discriminate | intros []].
    - destruct (code =? s) eqn:E.
      + apply Z.eqb_eq in E. split; auto.
      + apply Z.eqb_neq in E. rewrite IH. split; [auto | intros [? | ?]; [contradiction | auto]]. }
  split; [exact Hin |]. split.
  - unfold StatusNotIn. rewrite negb_true_iff, <- Hin.
    destruct (StatusIn codes s); split; congruence.
  - unfold StatusNot, StatusNotIn. simpl. destruct (c =? s); reflexivity.
Qed.

(** X2: [StatusInRange] includes both ends, and a range whose low end is
    above its high end matches no status. *)
Theorem StatusInRange_inclusive :
  forall low high s : Z,
    (StatusInRange low high s = true <-> low <= s <= high)
    /\ StatusInRange low low low = true
    /\ (high < low -> StatusInRange low high s = false).
Proof.
  intros low high s. unfold StatusInRange.
  split; [| split].
  - rewrite andb_true_iff, Z.leb_le, Z.geb_le. reflexivity.
  - rewrite Z.leb_refl. simpl. apply Z.geb_le. lia.
  - intros Hlt. apply andb_false_iff.
    destruct (Z.leb_spec low s); [right | left; reflexivity].
    destruct (high >=? s) eqn:E; [apply Z.geb_le in E; lia | reflexivity].
Qed.

Lemma StatusInRange_inclusive_witness :
  StatusInRange 500 200 404 = false.
Proof.
  apply (proj2 (proj2 (StatusInRange_inclusive 500 200 404))). lia.
Defined.

Lemma statusMatches_app (s : Z) (L1 L2 : list StatusFn) :
  statusMatches s (L1 ++ L2) = statusMatches s L1 || statusMatches s L2.
Proof.
  induction L1 as [|fn rest IH]; simpl; [reflexivity |].
  destruct (fn s); [reflexivity | exact IH].
Qed.

(** X3: each of the builder methods [Success], [NotFound], [Exists] and
    [Retry(RetryStatus(fn))] adds its predicate to its own list as one more
    alternative and leaves the three other lists as they were. *)
Theorem builder_adds_alternative :
  forall (St V B : Type) (r : Request (St := St) (V := V) (B := B)) (fn : StatusFn)
         (s : Z),
    (statusMatches s (successFns (Request_Success r fn))
     = statusMatches s (successFns r) || fn s
     /\ notFoundFns (Request_Success r fn) = notFoundFns r
     /\ existsFns (Request_Success r fn) = existsFns r
     /\ retryStatusFns (Request_Success r fn) = retryStatusFns r)
    /\ (statusMatches s (notFoundFns (Request_NotFound r fn))
        = statusMatches s (notFoundFns r) || fn s
        /\ successFns (Request_NotFound r fn) = successFns r
        /\ existsFns (Request_NotFound r fn) = existsFns r
        /\ retryStatusFns (Request_NotFound r fn) = retryStatusFns r)
    /\ (statusMatches s (existsFns (Request_Exists r fn))
        = statusMatches s (existsFns r) || fn s
        /\ successFns (Request_Exists r fn) = successFns r
        /\ notFoundFns (Request_Exists r fn) = notFoundFns r
        /\ retryStatusFns (Request_Exists r fn) = retryStatusFns r)
    /\ (statusMatches s (retryStatusFns (Request_Retry r (RetryStatus fn)))
        = statusMatches s (retryStatusFns r) || fn s
        /\ successFns (Request_Retry r (RetryStatus fn)) = successFns r
        /\ notFoundFns (Request_Retry r (RetryStatus fn)) = notFoundFns r
        /\ existsFns (Request_Retry r (RetryStatus fn)) = existsFns r).
Proof.
  intros St V B r fn s.
  assert (Hone : forall L, statusMatches s (L ++ [fn]) = statusMatches s L || fn s).
  { intros L. rewrite statusMatches_app. simpl. destruct (fn s); reflexivity. }
  repeat split; simpl; apply Hone.
Qed.

(** ** Invariants of the retry loop *)


Section LoopInvariants.

Context {St B : Type} `{Backoffer B}.
Variables (env : Env) (fn : AttemptFn (St := St)) (b : B).



End LoopInvariants.





(** X6: under a no-wait or fixed-interval policy whose max attempts is zero
    or negative, a run in which every attempt fails with a failure the loop
    retries and the context is never cancelled does not return: no number
    of iterations is enough. *)
Theorem retry_without_maximum_never_returns :
  forall (St : Type) (env : Env) (fn : AttemptFn (St := St)) (p : builtin) (N : Z)
         (fuel : nat) (n : Z) (s : St),
    stopsOnlyAtMax p = true ->
    maxCalls p = Some N ->
    N <= 0 ->
    (forall ctx s, exists e, (fn ctx s).1 = Returned (Some e) /\ retried e) ->
    (forall k, selects env k = None) ->
    retry_loop fuel env fn p n s = None.
Proof.
  intros St env fn p N fuel n s Honly Hmax HN Hfn Hsel. revert n s.
  induction fuel as [|fuel IH]; intros n s; [reflexivity |].
  destruct (Hfn (HTTP.mkContext (Some n)) s) as (e & He & Hret).
  destruct (fn (HTTP.mkContext (Some n)) s) as [o s'] eqn:Hfneq. simpl in He. subst o.
  assert (Hcont : exists w, Next p (draws env (GoInt.add n 1)) (GoInt.add n 1)
                            = Some (w, true)).
  { destruct p as [b | b | b | b | b]; try discriminate;
      simpl in Hmax; injection Hmax as Hmax.
    - rewrite ZeroBackoff_Next_eq, Hmax.
      destruct (0 <? N) eqn:E; [lia |]. eexists. reflexivity.
    - rewrite ConstantBackoff_Next_eq, Hmax.
      destruct (0 <? N) eqn:E; [lia |]. eexists. reflexivity. }
  destruct Hcont as [w Hw].
  rewrite (retry_loop_waited env fn p fuel n s s' e w Hfneq Hret Hw (Hsel _)).
  rewrite IH. reflexivity.
Qed.

Lemma retry_without_maximum_never_returns_witness :
  retry_loop 50 env0 alwaysRetryable (Zero (NewZeroBackoff 0)) 0 0%nat = None.
Proof.
  apply (retry_without_maximum_never_returns nat env0 alwaysRetryable
           (Zero (NewZeroBackoff 0)) 0 50%nat 0 0%nat);
    [reflexivity | reflexivity | lia | | reflexivity].
  intros ctx s. exists retryableErr. split; [reflexivity | exact retryableErr_retried].
Defined.

(** ** The policies at their edges *)

(** X7: [jitter] returns 0 for a base that is zero or negative; for a
    positive base (small enough for the sum not to overflow) and a draw
    within the contract of [rand.Intn] it returns at least half the base
    rounded down and less than that half plus the base. *)
Theorem jitter_bounds :
  forall (d : Draw) (millis : Z),
    (millis <= 0 -> jitter d millis = 0)
    /\ (valid_draw d -> 0 < millis -> millis + millis / 2 <= GoInt.max_int ->
        millis / 2 <= jitter d millis < millis / 2 + millis).
Proof.
  intros d millis. split; [apply jitter_nonpositive | apply jitter_range].
Qed.

Lemma jitter_bounds_witness :
  jitter draw0 (-5) = 0 /\ 7 / 2 <= jitter draw0 7 < 7 / 2 + 7.
Proof.
  split.
  - apply (proj1 (jitter_bounds draw0 (-5))). lia.
  - apply (proj2 (jitter_bounds draw0 7)); [exact valid_draw0 | lia |].
    vm_compute. intros Hc. discriminate Hc.
Defined.

(** X8: [Next] of the fixed-schedule policy panics (index out of range)
    for every negative attempt number, whatever the list, the jitter flag
    and the maximum. *)
Theorem SimpleBackoff_Next_negative_panics :
  forall (b : SimpleBackoff) (d : Draw) (n : Z),
    n < 0 -> SimpleBackoff_Next b d n = None.
Proof.
  intros b d n Hn. unfold SimpleBackoff_Next.
  destruct ((0 <? simple_maxCalls b) && (n =? simple_maxCalls b)) eqn:E.
  { apply andb_true_iff in E as [E1 E2]. lia. }
  destruct (n >=? Z.of_nat (length (ticks b))) eqn:E2;
    [apply Z.geb_le in E2; lia |].
  unfold index. destruct (n <? 0) eqn:E3; [reflexivity | lia].
Qed.

Lemma SimpleBackoff_Next_negative_panics_witness :
  SimpleBackoff_Next (NewSimpleBackoff 3 true [10; 20]) draw0 (-1) = None.
Proof.
  apply (SimpleBackoff_Next_negative_panics (NewSimpleBackoff 3 true [10; 20]) draw0 (-1)).
  lia.
Defined.

Section SimpleSchedule.

Context {St : Type}.
Variables (env : Env) (fn : AttemptFn (St := St)) (b : SimpleBackoff).

Hypothesis no_jitter : jitter_ b = false.
Hypothesis no_maximum : simple_maxCalls b <= 0.
Hypothesis fits : Z.of_nat (length (ticks b)) <= GoInt.max_int.
Hypothesis always_retried : forall ctx s, exists e, (fn ctx s).1 = Returned (Some e) /\ retried e.
Hypothesis never_cancelled : forall k, selects env k = None.

Lemma SimpleBackoff_run_from (rest : list Z) :
  forall (pre : list Z) (n : Z) (s : St) (fuel : nat),
    ticks b = pre ++ rest ->
    0 <= n ->
    Z.of_nat (length pre) = n + 1 ->
    (length rest < fuel)%nat ->
    exists r,
      retry_loop fuel env fn b n s = Some r
      /\ waits (trace r) = map (fun ms => GoInt.mul ms Millisecond) rest
      /\ attempts (trace r) = S (length rest).
Proof.
  assert (Hoff : forall k, (0 <? simple_maxCalls b) && (k =? simple_maxCalls b) = false).
  { intros k. destruct (0 <? simple_maxCalls b) eqn:E; [lia | reflexivity]. }
  induction rest as [|ms rest IH]; intros pre n s fuel Hticks Hn0 Hpre Hfuel;
    (destruct fuel as [|fuel]; [lia |]);
    destruct (always_retried (HTTP.mkContext (Some n)) s) as (e & He & Hret);
    destruct (fn (HTTP.mkContext (Some n)) s) as [o s'] eqn:Hfneq;
    simpl in He; subst o;
    pose proof fits as Hfits; rewrite Hticks, length_app in Hfits;
    assert (Hadd : GoInt.add n 1 = n + 1)
      by (apply (add_one_id n GoInt.max_int); lia).
  - assert (Hnext : Next b (draws env (GoInt.add n 1)) (GoInt.add n 1) = Some (0, false)).
    { unfold Next, SimpleBackoff_Backoffer, SimpleBackoff_Next. rewrite Hoff.
      rewrite Hticks, length_app. simpl length.
      destruct (GoInt.add n 1 >=? Z.of_nat (length pre + 0)) eqn:E;
        [reflexivity | exfalso; zbool; lia]. }
    eexists. split; [exact (retry_loop_stop env fn b fuel n s s' e 0 Hfneq Hret Hnext) |].
    split; reflexivity.
  - assert (Hnext : Next b (draws env (GoInt.add n 1)) (GoInt.add n 1)
                    = Some (GoInt.mul ms Millisecond, true)).
    { unfold Next, SimpleBackoff_Backoffer, SimpleBackoff_Next. rewrite Hoff.
      rewrite Hticks at 1. rewrite length_app. simpl length.
      destruct (GoInt.add n 1 >=? Z.of_nat (length pre + S (length rest))) eqn:E;
        [exfalso; zbool; lia |].
      unfold index. destruct (GoInt.add n 1 <? 0) eqn:E2; [lia |].
      rewrite Hticks, Hadd.
      replace (Z.to_nat (n + 1)) with (length pre + 0)%nat by lia.
      rewrite lookup_app_r by lia.
      replace (length pre + 0 - length pre)%nat with 0%nat by lia. simpl.
      rewrite no_jitter. reflexivity. }
    destruct (IH (pre ++ [ms]) (GoInt.add n 1) s' fuel) as (r & Hrun & Hw & Hatt).
    { rewrite Hticks, <- app_assoc. reflexivity. }
    { lia. }
    { rewrite length_app. simpl. lia. }
    { simpl in Hfuel. lia. }
    exists (before [EvAttempt n (Returned (Some e)); EvNext (GoInt.add n 1) (GoInt.mul ms Millisecond) true;
                    EvWait (GoInt.mul ms Millisecond) None] r).
    split.
    { rewrite (retry_loop_waited env fn b fuel n s s' e _ Hfneq Hret Hnext
                 (never_cancelled _)), Hrun. reflexivity. }
    split.
    + simpl. unfold waits in Hw |- *. simpl. rewrite Hw. reflexivity.
    + simpl trace.
      change (attempts (EvAttempt n (Returned (Some e)) :: EvNext (GoInt.add n 1) (GoInt.mul ms Millisecond) true
                          :: EvWait (GoInt.mul ms Millisecond) None :: trace r))
        with (S (attempts (trace r))).
      rewrite Hatt. reflexivity.
Qed.

(** The run of [retry] under the schedule: the first tick is never
    waited. *)
Lemma SimpleBackoff_run (s : St) (fuel : nat) :
  (length (ticks b) <= fuel)%nat -> (1 <= fuel)%nat ->
  exists r,
    retry fuel env fn b s = Some r
    /\ waits (trace r) = map (fun ms => GoInt.mul ms Millisecond) (tail (ticks b))
    /\ attempts (trace r) = Nat.max 1 (length (ticks b)).
Proof.
  intros Hfuel Hone. unfold retry. revert Hfuel.
  case_eq (ticks b); [intros Hticks | intros t0 rest Hticks]; intros Hfuel.
  - destruct fuel as [|fuel]; [lia |].
    destruct (always_retried (HTTP.mkContext (Some 0)) s) as (e & He & Hret).
    destruct (fn (HTTP.mkContext (Some 0)) s) as [o s'] eqn:Hfneq. simpl in He. subst o.
    assert (Hnext : Next b (draws env (GoInt.add 0 1)) (GoInt.add 0 1) = Some (0, false)).
    { unfold Next, SimpleBackoff_Backoffer, SimpleBackoff_Next. rewrite Hticks.
      destruct (0 <? simple_maxCalls b) eqn:E; [lia |]. reflexivity. }
    eexists. split; [exact (retry_loop_stop env fn b fuel 0 s s' e 0 Hfneq Hret Hnext) |].
    split; reflexivity.
  - destruct (SimpleBackoff_run_from rest [t0] 0 s fuel) as (r & Hrun & Hw & Hatt);
      [exact Hticks | lia | reflexivity | simpl in Hfuel; lia |].
    exists r. split; [exact Hrun |]. split; [exact Hw |].
    rewrite Hatt. simpl. reflexivity.
Qed.

End SimpleSchedule.

(** X9: under the fixed-schedule policy without jitter and without a
    maximum, when every attempt fails with a failure the loop retries and
    the context is never cancelled, the loop waits for the second, third,
    ... entry of the list in this order, never for the first, and returns
    after as many attempts as the list has entries (after one attempt for
    an empty list). *)
Theorem SimpleBackoff_run_skips_first_tick :
  forall (St : Type) (env : Env) (fn : AttemptFn (St := St)) (b : SimpleBackoff)
         (s : St) (fuel : nat),
    jitter_ b = false ->
    simple_maxCalls b <= 0 ->
    Z.of_nat (length (ticks b)) <= GoInt.max_int ->
    (forall ctx s, exists e, (fn ctx s).1 = Returned (Some e) /\ retried e) ->
    (forall k, selects env k = None) ->
    (length (ticks b) <= fuel)%nat -> (1 <= fuel)%nat ->
    exists r,
      retry fuel env fn b s = Some r
      /\ waits (trace r) = map (fun ms => GoInt.mul ms Millisecond) (tail (ticks b))
      /\ attempts (trace r) = Nat.max 1 (length (ticks b)).
Proof.
  intros St env fn b s fuel Hjitter Hmax Hfits Hfn Hsel.
  apply SimpleBackoff_run; assumption.
Qed.

Lemma SimpleBackoff_run_skips_first_tick_witness :
  exists r,
    retry 5 env0 alwaysRetryable (NewSimpleBackoff 0 false [10; 20; 30]) 0%nat = Some r
    /\ waits (trace r) = map (fun ms => GoInt.mul ms Millisecond) [20; 30]
    /\ attempts (trace r) = Nat.max 1 3.
Proof.
  apply (SimpleBackoff_run_skips_first_tick nat env0 alwaysRetryable
           (NewSimpleBackoff 0 false [10; 20; 30]) 0%nat 5%nat);
    try reflexivity; simpl; try lia.
  - unfold GoInt.max_int. lia.
  - intros ctx s. exists retryableErr. split; [reflexivity | exact retryableErr_retried].
Defined.

(** ** What [NewClientErr] records *)

Lemma default_last_cons {A : Type} (d y : A) (ys : list A) :
  default d (last (y :: ys)) = default y (last ys).
Proof.
  revert d y. induction ys as [|z ys IH]; intros d y; [reflexivity |].
  change (last (y :: z :: ys)) with (last (z :: ys)).
  rewrite (IH d z), (IH y z). reflexivity.
Qed.

Lemma fold_denote (l : list errOption) :
  forall o0 : errOpt,
    let o := fold_left (fun opt o => o opt) (map denote l) o0 in
    opt_retry o = opt_retry o0 || existsb isORetry l
    /\ opt_notFound o = opt_notFound o0 || existsb isONotFound l
    /\ opt_exists o = opt_exists o0 || existsb isOExists l
    /\ opt_err o = default (opt_err o0) (last (omap getOErr l))
    /\ opt_resp o = default (opt_resp o0) (last (omap getOResp l))
    /\ opt_caller o = default (opt_caller o0) (last (omap getOOp l)).
Proof.
  induction l as [|x l IH]; intros o0; cbv zeta.
  - simpl. rewrite !orb_false_r. repeat split.
  - simpl fold_left. specialize (IH (denote x o0)). cbv zeta in IH.
    destruct IH as (Hr & Hn & He & Herr & Hresp & Hop).
    rewrite Hr, Hn, He, Herr, Hresp, Hop. clear.
    destruct x; simpl; rewrite ?default_last_cons, ?orb_true_r, ?orb_true_l;
      repeat split; reflexivity.
Qed.

Lemma applyErrOpts_denote (l : list errOption) :
  opt_retry (applyErrOpts (map denote l)) = existsb isORetry l
  /\ opt_notFound (applyErrOpts (map denote l)) = existsb isONotFound l
  /\ opt_exists (applyErrOpts (map denote l)) = existsb isOExists l
  /\ opt_err (applyErrOpts (map denote l)) = default None (last (omap getOErr l))
  /\ opt_resp (applyErrOpts (map denote l)) = default None (last (omap getOResp l))
  /\ opt_caller (applyErrOpts (map denote l)) = default "" (last (omap getOOp l)).
Proof.
  exact (fold_denote l (mkErrOpt false false false None "" None)).
Qed.

Lemma recordRequest_keeps (e e' : HTTPErr) (req req' : HTTP.Request) :
  recordRequest e req = Some (e', req') ->
  retry_ e' = retry_ e
  /\ notFound e' = notFound e
  /\ exists_ e' = exists_ e
  /\ caller e' = caller e
  /\ errMsg e' = errMsg e
  /\ u e' = HTTP.URL req
  /\ method e' = HTTP.Method req.
Proof.
  unfold recordRequest.
  destruct (HTTP.Header_ req) as [h|]; [| intros [= <- _]; repeat split].
  destruct (Str.Contains (HTTP.Get h "Content-Type") "application/json");
    [| intros [= <- _]; repeat split].
  destruct (HTTP.Body req) as [stream|]; [| discriminate].
  simpl. destruct (IO.readErr stream); intros [= <- _]; repeat split.
Qed.

(** [NewClientErr] panics exactly when the options hold a response whose
    request has a JSON Content-Type and a nil body. *)
Lemma recordRequest_panics (e : HTTPErr) (resp : HTTP.Response) (req : HTTP.Request) :
  HTTP.Request_ resp = Some req ->
  (recordRequest e req = None <-> jsonWithoutBody resp = true).
Proof.
  intros Hreq. unfold jsonWithoutBody, recordRequest. rewrite Hreq.
  destruct (HTTP.Header_ req) as [h|]; [| split; discriminate].
  destruct (HTTP.Body req) as [stream|].
  - destruct (Str.Contains (HTTP.Get h "Content-Type") "application/json");
      [| split; discriminate].
    simpl. destruct (IO.readErr stream); split; discriminate.
  - destruct (Str.Contains (HTTP.Get h "Content-Type") "application/json");
      split; try reflexivity; discriminate.
Qed.

Lemma NewClientErr_panics (opts : list ErrOptFn) (resp : HTTP.Response) :
  opt_resp (applyErrOpts opts) = Some resp ->
  jsonWithoutBody resp = true ->
  NewClientErr opts = (None, Some resp).
Proof.
  intros Hresp Hjson. unfold NewClientErr. rewrite Hresp. cbv zeta.
  destruct (HTTP.Request_ resp) as [req|] eqn:Hreq;
    [| unfold jsonWithoutBody in Hjson; rewrite Hreq in Hjson; discriminate].
  match goal with
  | |- context [recordRequest ?e req] =>
      rewrite (proj2 (recordRequest_panics e resp req Hreq) Hjson)
  end.
  reflexivity.
Qed.

Lemma NewClientErr_returns (opts : list ErrOptFn) :
  match opt_resp (applyErrOpts opts) with
  | Some resp => jsonWithoutBody resp = false
  | None => True
  end ->
  exists e, (NewClientErr opts).1 = Some e.
Proof.
  unfold NewClientErr. cbv zeta.
  destruct (opt_resp (applyErrOpts opts)) as [resp|]; [| eexists; reflexivity].
  intros Hjson. destruct (HTTP.Request_ resp) as [req|] eqn:Hreq.
  - match goal with
    | |- context [recordRequest ?e req] =>
        pose proof (recordRequest_panics e resp req Hreq) as Hp;
        destruct (recordRequest e req) as [[e1 req']|]
    end.
    + simpl. destruct (IO.readErr (HTTP.RespBody resp)); eexists; reflexivity.
    + rewrite (proj1 Hp eq_refl) in Hjson. discriminate.
  - simpl. destruct (IO.readErr (HTTP.RespBody resp)); eexists; reflexivity.
Qed.

(** The fields of the failure that do not depend on the streams. *)
Lemma NewClientErr_fields (opts : list ErrOptFn) (e : HTTPErr) :
  (NewClientErr opts).1 = Some e ->
  retry_ e = opt_retry (applyErrOpts opts)
  /\ notFound e = opt_notFound (applyErrOpts opts)
  /\ exists_ e = opt_exists (applyErrOpts opts)
  /\ caller e = opt_caller (applyErrOpts opts)
  /\ errMsg e
     = match opt_err (applyErrOpts opts) with
       | Some err => error_Error err
       | None => "received unexpected response"
       end
  /\ statusCode e
     = match opt_resp (applyErrOpts opts) with
       | Some resp => HTTP.StatusCode resp
       | None => 0
       end.
Proof.
  unfold NewClientErr. generalize (applyErrOpts opts). intros opt. cbv zeta.
  destruct (opt_resp opt) as [resp|].
  - destruct (HTTP.Request_ resp) as [req|].
    + match goal with
      | |- context [recordRequest ?e0 req] =>
          destruct (recordRequest e0 req) as [[e' req']|] eqn:Hrec; [| discriminate];
          pose proof (recordRequest_keeps e0 e' req req' Hrec)
            as (Hr & Hn & He & Hc & Hm & _ & _)
      end.
      simpl in Hr, Hn, He, Hc, Hm. simpl.
      destruct (IO.readErr (HTTP.RespBody resp)); simpl; intros [= <-]; simpl;
        rewrite Hr, Hn, He, Hc, Hm; destruct (opt_err opt); repeat split.
    + simpl. destruct (IO.readErr (HTTP.RespBody resp)); destruct (opt_err opt);
        intros [= <-]; repeat split.
  - destruct (opt_err opt); intros [= <-]; repeat split.
Qed.

(** X10: the three flags of a failure are independent and do not depend on
    the order of the options: for every list of the options of error.go
    from which [NewClientErr] builds a failure, the failure is retryable
    exactly when [Retry()] is among them, not found exactly when
    [NotFound()] is, and already existing exactly when [Exists()] is;
    [Retry()], [NotFound()] and [Exists()] report the flags. *)
Theorem NewClientErr_flags_independent :
  forall (l : list errOption) (e : HTTPErr),
    (NewClientErr (map denote l)).1 = Some e ->
    HTTPErr_Retry e = existsb isORetry l
    /\ HTTPErr_NotFound e = existsb isONotFound l
    /\ HTTPErr_Exists e = existsb isOExists l.
Proof.
  intros l e He.
  destruct (NewClientErr_fields (map denote l) e He) as (Hr & Hn & Hx & _).
  destruct (applyErrOpts_denote l) as (Hr' & Hn' & He' & _).
  unfold HTTPErr_Retry, HTTPErr_NotFound, HTTPErr_Exists.
  rewrite Hr, Hn, Hx, Hr', Hn', He'. repeat split.
Qed.

Lemma NewClientErr_flags_independent_witness :
  HTTPErr_Retry
    (mkHTTPErr "" tokenURL "GET" "received unexpected response" "" "" 401 true false true)
  = existsb isORetry [OExists; OResp (Some tokenResponse); ORetry]
  /\ HTTPErr_NotFound
       (mkHTTPErr "" tokenURL "GET" "received unexpected response" "" "" 401
          true false true)
     = existsb isONotFound [OExists; OResp (Some tokenResponse); ORetry]
  /\ HTTPErr_Exists
       (mkHTTPErr "" tokenURL "GET" "received unexpected response" "" "" 401
          true false true)
     = existsb isOExists [OExists; OResp (Some tokenResponse); ORetry].
Proof.
  exact (NewClientErr_flags_independent
           [OExists; OResp (Some tokenResponse); ORetry]
           (mkHTTPErr "" tokenURL "GET" "received unexpected response" "" "" 401
              true false true)
           eq_refl).
Defined.

Lemma Join_base_err (msg : string) :
  Str.Join ["" ; msg] " " = " " +:+ msg.
Proof. reflexivity. Qed.

(** X11: without a response (no [Resp] option, or a nil response as the
    last one) [NewClientErr] always builds a failure; it has status 0 and
    neither method, URL nor bodies; its message is the text of the last
    error given, or [received unexpected response] without one; and
    [Error()] is then one space followed by the [err=] segment, since the
    empty base is still joined. *)
Theorem NewClientErr_without_response :
  forall l : list errOption,
    default None (last (omap getOResp l)) = None ->
    exists e,
      NewClientErr (map denote l) = (Some e, None)
      /\ statusCode e = 0
      /\ method e = ""
      /\ u e = URL.zero
      /\ respBody e = ""
      /\ reqBody e = ""
      /\ errMsg e
         = match default None (last (omap getOErr l)) with
           | Some err => error_Error err
           | None => "received unexpected response"
           end
      /\ (BackoffMessage e).1 = ""
      /\ (errMsg e <> "" -> (Error e).1 = " err=" +:+ Str.Quote (errMsg e)).
Proof.
  intros l Hresp.
  destruct (applyErrOpts_denote l) as (_ & _ & _ & Herr & Hresp' & _).
  rewrite Hresp in Hresp'.
  unfold NewClientErr. rewrite Hresp', Herr. cbv zeta.
  destruct (default None (last (omap getOErr l))) as [err|]; simpl.
  - eexists. split; [reflexivity |]. repeat split. unfold Error, errorBase. simpl.
    intros Hmsg. destruct (String.eqb_spec (error_Error err) ""); [contradiction |].
    reflexivity.
  - eexists. split; [reflexivity |]. repeat split.
Qed.

Lemma NewClientErr_without_response_witness :
  exists e,
    NewClientErr (map denote [ORetry; OErr (Some (errorString "boom"))]) = (Some e, None)
    /\ statusCode e = 0
    /\ (Error e).1 = " err=" +:+ Str.Quote "boom".
Proof.
  destruct (NewClientErr_without_response [ORetry; OErr (Some (errorString "boom"))]
              eq_refl) as (e & He & Hs & _ & _ & _ & _ & Hm & _ & Herr).
  exists e. split; [exact He |]. split; [exact Hs |].
  rewrite Herr; rewrite Hm; [reflexivity | discriminate].
Defined.

(** ** Redaction *)

Lemma Get_redactQuery (q : URL.Values) (k : string) :
  k = "access_token" \/ k = "secret" ->
  (URL.Get q k <> "" /\ redactQuery q !! k = Some [REDACTED])
  \/ (URL.Get q k = "" /\ redactQuery q !! k = q !! k).
Proof.
  intros Hk. rewrite redactQuery_lookup.
  assert (Hsec : String.eqb k "access_token" || String.eqb k "secret" = true).
  { destruct Hk as [-> | ->]; reflexivity. }
  rewrite Hsec. simpl.
  destruct (String.eqb_spec (URL.Get q k) ""); [right | left]; split; auto.
Qed.

Lemma Join_last (parts : list string) (x sep : string) :
  exists pre, Str.Join (parts ++ [x]) sep = pre +:+ x.
Proof.
  induction parts as [|p parts IH]; [exists ""; reflexivity |].
  destruct IH as [pre IH].
  destruct parts as [|q parts].
  - exists (p +:+ sep). simpl. rewrite string_app_assoc. reflexivity.
  - exists (p +:+ sep +:+ pre).
    change (Str.Join ((p :: q :: parts) ++ [x]) sep)
      with (p +:+ sep +:+ Str.Join ((q :: parts) ++ [x]) sep).
    rewrite IH, !string_app_assoc. reflexivity.
Qed.

(** X12: [errorBase] leaves a failure without a URL as it is.  For a
    failure with a URL it writes a redacted query back into the URL of
    the receiver and ends its text with that URL, quoted: in the query
    written, a key other than [access_token] and [secret] keeps its
    values, and the first value of each of the two keys is the marker or
    empty, never a value the URL had. *)
Theorem errorBase_writes_redacted_query :
  forall e : HTTPErr,
    (URL.String_ (u e) = "" -> (errorBase e).2 = e)
    /\ (URL.String_ (u e) <> "" ->
        exists q : URL.Values,
          (errorBase e).2 = set_u e (URL.withRawQuery (u e) (URL.Encode q))
          /\ HasSuffix (errorBase e).1
               ("url=" +:+ Str.Quote (URL.String_ (u (errorBase e).2))) = true
          /\ (forall k, k <> "access_token" -> k <> "secret" ->
                        q !! k = URL.Query (u e) !! k)
          /\ (forall k, k = "access_token" \/ k = "secret" ->
                        URL.Get q k = REDACTED
                        \/ (URL.Get q k = "" /\ URL.Get (URL.Query (u e)) k = ""))).
Proof.
  intros e. unfold errorBase. cbv zeta.
  destruct (String.eqb_spec (URL.String_ (u e)) "") as [Hu | Hu]; simpl negb; cbv iota.
  - split; [reflexivity | contradiction].
  - split; [contradiction |]. intros _.
    exists (redactQuery (URL.Query (u e))). split; [reflexivity |]. split.
    + match goal with
      | |- HasSuffix (Str.Join (?parts ++ [?x]) " ", _).1 _ = true =>
          destruct (Join_last parts x " ") as [pre ->]
      end.
      simpl. apply HasSuffix_app.
    + split.
      * intros k H1 H2. rewrite redactQuery_lookup.
        destruct (String.eqb_spec k "access_token"); [contradiction |].
        destruct (String.eqb_spec k "secret"); [contradiction |]. reflexivity.
      * intros k Hk.
        destruct (Get_redactQuery (URL.Query (u e)) k Hk) as [[Hne Hl] | [He Hl]].
        -- left. unfold URL.Get. rewrite Hl. reflexivity.
        -- right. split; [| exact He]. unfold URL.Get in *. rewrite Hl. exact He.
Qed.

Lemma errorBase_writes_redacted_query_witness :
  exists q : URL.Values,
    (errorBase (refusedErr "access_token=abc&page=2")).2
    = set_u (refusedErr "access_token=abc&page=2")
        (URL.withRawQuery (u (refusedErr "access_token=abc&page=2")) (URL.Encode q))
    /\ HasSuffix (errorBase (refusedErr "access_token=abc&page=2")).1
         ("url="
          +:+ Str.Quote
                (URL.String_ (u (errorBase (refusedErr "access_token=abc&page=2")).2)))
       = true
    /\ (forall k, k <> "access_token" -> k <> "secret" ->
                  q !! k = URL.Query (u (refusedErr "access_token=abc&page=2")) !! k)
    /\ (forall k, k = "access_token" \/ k = "secret" ->
                  URL.Get q k = REDACTED
                  \/ (URL.Get q k = ""
                      /\ URL.Get (URL.Query (u (refusedErr "access_token=abc&page=2"))) k
                         = "")).
Proof.
  apply (proj2 (errorBase_writes_redacted_query (refusedErr "access_token=abc&page=2"))).
  vm_compute. discriminate.
Defined.

Lemma Error_from_base (e : HTTPErr) :
  (Error e).1
  = Str.Join
      ([(errorBase e).1]
         ++ (if negb (String.eqb (errMsg e) "")
             then ["err=" +:+ Str.Quote (errMsg e)] else [])
         ++ (if negb (String.eqb (respBody e) "")
             then ["response_body=" +:+ Str.Quote (respBody e)] else [])
         ++ (if negb (String.eqb (reqBody e) "")
             then ["request_body=" +:+ Str.Quote (reqBody e)] else []))
      " ".
Proof.
  unfold Error.
  assert (Hkeep : errMsg (errorBase e).2 = errMsg e /\ respBody (errorBase e).2 = respBody e
                  /\ reqBody (errorBase e).2 = reqBody e).
  { unfold errorBase. destruct (negb (String.eqb (URL.String_ (u e)) "")); repeat split. }
  destruct (errorBase e) as [base e']. simpl in Hkeep. destruct Hkeep as (-> & -> & ->).
  simpl.
  destruct (negb (String.eqb (errMsg e) "")), (negb (String.eqb (respBody e) "")),
    (negb (String.eqb (reqBody e) "")); reflexivity.
Qed.

(** X13: the texts of [Error()] and [BackoffMessage()] do not depend on the
    values under [access_token] and [secret] when the first value of the
    key is not empty: two failures that agree on everything but those
    values, each key having in both URLs a first value that is not empty
    (or the same values), have the same texts. *)
Theorem Error_independent_of_redacted_values :
  forall e1 e2 : HTTPErr,
    statusCode e1 = statusCode e2 -> method e1 = method e2 ->
    errMsg e1 = errMsg e2 -> respBody e1 = respBody e2 -> reqBody e1 = reqBody e2 ->
    URL.Prefix (u e1) = URL.Prefix (u e2) ->
    URL.ForceQuery (u e1) = URL.ForceQuery (u e2) ->
    URL.Fragment (u e1) = URL.Fragment (u e2) ->
    URL.String_ (u e1) <> "" -> URL.String_ (u e2) <> "" ->
    (forall k, k <> "access_token" -> k <> "secret" ->
               URL.Query (u e1) !! k = URL.Query (u e2) !! k) ->
    (forall k, k = "access_token" \/ k = "secret" ->
               (URL.Get (URL.Query (u e1)) k <> "" /\ URL.Get (URL.Query (u e2)) k <> "")
               \/ URL.Query (u e1) !! k = URL.Query (u e2) !! k) ->
    (Error e1).1 = (Error e2).1 /\ (BackoffMessage e1).1 = (BackoffMessage e2).1.
Proof.
  intros e1 e2 Hs Hm Hmsg Hresp Hreq Hp Hf Hfr H1 H2 Hother Hsecret.
  assert (Hbase : (errorBase e1).1 = (errorBase e2).1).
  { apply errorBase_noninterference; try assumption.
    apply redactQuery_noninterference; assumption. }
  split; [| exact Hbase].
  rewrite !Error_from_base, Hbase, Hmsg, Hresp, Hreq. reflexivity.
Qed.

Lemma Error_independent_of_redacted_values_witness :
  (Error (refusedErr "access_token=abc&page=2")).1
  = (Error (refusedErr "access_token=xyz&page=2")).1
  /\ (BackoffMessage (refusedErr "access_token=abc&page=2")).1
     = (BackoffMessage (refusedErr "access_token=xyz&page=2")).1.
Proof.
  assert (Hq1 : URL.Query (u (refusedErr "access_token=abc&page=2"))
                = <["page" := ["2"]]> (<["access_token" := ["abc"]]> ∅))
    by reflexivity.
  assert (Hq2 : URL.Query (u (refusedErr "access_token=xyz&page=2"))
                = <["page" := ["2"]]> (<["access_token" := ["xyz"]]> ∅))
    by reflexivity.
  apply (Error_independent_of_redacted_values
           (refusedErr "access_token=abc&page=2") (refusedErr "access_token=xyz&page=2"));
    try reflexivity; try discriminate.
  - intros k Hk1 Hk2. rewrite Hq1, Hq2.
    destruct (decide (k = "page")) as [-> | Hk3].
    + rewrite !lookup_insert_eq. reflexivity.
    + rewrite !(lookup_insert_ne _ "page" k) by congruence.
      rewrite !(lookup_insert_ne _ "access_token" k) by congruence. reflexivity.
  - intros k [-> | ->]; [left; split; discriminate | right; reflexivity].
Defined.

(** ** One attempt, path by path *)

Lemma NewClientErr_after (opts : list ErrOptFn) (resp : HTTP.Response) (e : HTTPErr) :
  opt_resp (applyErrOpts opts) = Some resp ->
  (NewClientErr opts).1 = Some e ->
  exists resp',
    (NewClientErr opts).2 = Some resp'
    /\ HTTP.RespBody resp' = IO.consume (HTTP.RespBody resp)
    /\ (IO.readErr (HTTP.RespBody resp) = None ->
        respBody e = IO.pending (HTTP.RespBody resp)).
Proof.
  intros Hresp. unfold NewClientErr. rewrite Hresp. cbv zeta.
  destruct (HTTP.Request_ resp) as [req|].
  - destruct (recordRequest _ req) as [[e1 req']|]; [| discriminate]. simpl.
    destruct (IO.readErr (HTTP.RespBody resp)) eqn:Hrd; simpl; intros [= <-];
      eexists; (split; [reflexivity |]); (split; [reflexivity |]);
      intros; [discriminate | reflexivity].
  - simpl. destruct (IO.readErr (HTTP.RespBody resp)) eqn:Hrd; simpl; intros [= <-];
      eexists; (split; [reflexivity |]); (split; [reflexivity |]);
      intros; [discriminate | reflexivity].
Qed.

Lemma drain_consumed (rc : IO.ReadCloser) :
  IO.closed (drain rc).2 = true /\ IO.pending (drain rc).2 = "".
Proof. rewrite drain_stream. split; reflexivity. Qed.

Section Attempts.

Context {St V B : Type} `{Backoffer B}.
Variable NewRequest : string -> string -> option IO.ReadCloser -> HTTP.Request + error.

Local Abbreviation Req := (Request (St := St) (V := V) (B := B)).

Lemma do_answers (r : Req) (ctx : HTTP.Context) (s s' : St) (res : DoerResult) :
  answers NewRequest r ctx s res s' ->
  do NewRequest r ctx s = afterDoer r res s'.
Proof.
  intros (req & Hreq & Hdoer). unfold do. rewrite Hreq, Hdoer. reflexivity.
Qed.

(** What the options of a status mismatch amount to. *)
Lemma mismatch_opts (r : Req) (resp : HTTP.Response) (status : Z) (err : option error) :
  let opt := applyErrOpts ([Resp (Some resp)] ++ statusErrOpts r status
                             ++ match err with Some _ => [Err err] | None => [] end) in
  opt_resp opt = Some resp
  /\ opt_retry opt = statusMatches status (retryStatusFns r)
  /\ opt_notFound opt = statusMatches status (notFoundFns r)
  /\ opt_exists opt = statusMatches status (existsFns r)
  /\ opt_err opt = err.
Proof.
  unfold statusErrOpts.
  destruct (statusMatches status (retryStatusFns r)),
           (statusMatches status (notFoundFns r)),
           (statusMatches status (existsFns r)), err; repeat split.
Qed.

(** What the options of a failed decoder or a failed transport amount
    to. *)
Lemma error_opts (resp : option HTTP.Response) (err : option error) :
  let opt := applyErrOpts (if isRetryErr err then [Err err; Resp resp] ++ [Retry]
                           else [Err err; Resp resp]) in
  opt_resp opt = resp /\ opt_retry opt = isRetryErr err /\ opt_err opt = err.
Proof. destruct (isRetryErr err); repeat split. Qed.

(** The status matched no success predicate: the failure, or the panic. *)
Lemma handleResponse_mismatch (r : Req) (resp : HTTP.Response) (s : St) :
  statusMatches (HTTP.StatusCode resp) (successFns r) = false ->
  (jsonWithoutBody resp = true -> do_out (handleResponse r resp s) = Panicked)
  /\ (jsonWithoutBody resp = false ->
      exists e,
        do_out (handleResponse r resp s) = Returned (Some (httpError e))
        /\ retry_ e = statusMatches (HTTP.StatusCode resp) (retryStatusFns r)
        /\ notFound e = statusMatches (HTTP.StatusCode resp) (notFoundFns r)
        /\ exists_ e = statusMatches (HTTP.StatusCode resp) (existsFns r)
        /\ statusCode e = HTTP.StatusCode resp).
Proof.
  intros Hstatus. unfold handleResponse. rewrite Hstatus. simpl negb. cbv iota.
  destruct (onErrorFn r) as [onError|].
  - destruct (runDecoder onError (HTTP.RespBody resp) s) as [[k err] s1].
    destruct (readN (HTTP.RespBody resp) k) as [buf rest].
    set (resp' := HTTP.withBody resp (IO.NopCloser buf)).
    destruct (mismatch_opts r resp' (HTTP.StatusCode resp) err)
      as (Oresp & Or & On & Oe & _).
    match goal with |- context [NewClientErr ?l] => set (opts := l) in * end.
    split.
    + intros Hjson. rewrite (NewClientErr_panics opts resp' Oresp Hjson).
      simpl. reflexivity.
    + intros Hjson. destruct (NewClientErr_returns opts) as [e He].
      { rewrite Oresp. exact Hjson. }
      destruct (NewClientErr_fields opts e He) as (Fr & Fn & Fe & _ & _ & Fs).
      destruct (NewClientErr opts) as [e0 after]. simpl in He. subst e0.
      destruct (drain _) as [derr b0]. exists e. split; [reflexivity |].
      rewrite Fr, Fn, Fe, Fs, Or, On, Oe, Oresp. repeat split.
  - destruct (mismatch_opts r resp (HTTP.StatusCode resp) None)
      as (Oresp & Or & On & Oe & _).
    rewrite app_nil_r in Oresp, Or, On, Oe.
    match goal with |- context [NewClientErr ?l] => set (opts := l) in * end.
    split.
    + intros Hjson. rewrite (NewClientErr_panics opts resp Oresp Hjson).
      simpl. repeat match goal with |- context [drain ?x] => destruct (drain x) end.
      reflexivity.
    + intros Hjson. destruct (NewClientErr_returns opts) as [e He].
      { rewrite Oresp. exact Hjson. }
      destruct (NewClientErr_fields opts e He) as (Fr & Fn & Fe & _ & _ & Fs).
      destruct (NewClientErr opts) as [e0 after]. simpl in He. subst e0.
      destruct (drain _) as [derr b0]. exists e. split; [reflexivity |].
      rewrite Fr, Fn, Fe, Fs, Or, On, Oe, Oresp. repeat split.
Qed.

End Attempts.

Lemma answers_plainRequest {St V B : Type} (r : Request (St := St) (V := V) (B := B))
      (ctx : HTTP.Context) (s s' : St) (res : DoerResult) :
  body r = None ->
  (forall req, doer r req s = (res, s')) ->
  answers plainRequest r ctx s res s'.
Proof.
  intros Hbody Hdoer. unfold answers, buildRequest. rewrite Hbody. simpl.
  eexists. split; [reflexivity | apply Hdoer].
Qed.

(** X14: when the status of the response matches no success predicate,
    [do] returns a classified failure that carries the status and whose
    three flags are, independently, whether the status matches the retry
    list, the not-found list and the exists list of the request; unless
    the request the response points to has a JSON Content-Type and no
    body, in which case [do] panics instead of returning. *)
Theorem do_classifies_status_mismatch :
  forall (St V B : Type) (H : Backoffer B)
         (NewRequest : string -> string -> option IO.ReadCloser -> HTTP.Request + error)
         (r : Request (St := St) (V := V) (B := B)) (ctx : HTTP.Context) (s s' : St)
         (resp : HTTP.Response),
    answers NewRequest r ctx s (DoResponse resp) s' ->
    statusMatches (HTTP.StatusCode resp) (successFns r) = false ->
    (jsonWithoutBody resp = true -> do_out (do NewRequest r ctx s) = Panicked)
    /\ (jsonWithoutBody resp = false ->
        exists e,
          do_out (do NewRequest r ctx s) = Returned (Some (httpError e))
          /\ HTTPErr_Retry e = statusMatches (HTTP.StatusCode resp) (retryStatusFns r)
          /\ HTTPErr_NotFound e = statusMatches (HTTP.StatusCode resp) (notFoundFns r)
          /\ HTTPErr_Exists e = statusMatches (HTTP.StatusCode resp) (existsFns r)
          /\ statusCode e = HTTP.StatusCode resp).
Proof.
  intros St V B H NewRequest r ctx s s' resp Hans Hstatus.
  rewrite (do_answers NewRequest r ctx s s' _ Hans).
  exact (handleResponse_mismatch r resp s' Hstatus).
Qed.

Lemma do_classifies_status_mismatch_witness :
  do_out (do plainRequest jsonGetRequest HTTP.Background 0%nat) = Panicked
  /\ exists e,
      do_out (do plainRequest deleteRequest HTTP.Background 0%nat)
      = Returned (Some (httpError e))
      /\ HTTPErr_Retry e = statusMatches 404 (retryStatusFns deleteRequest)
      /\ HTTPErr_NotFound e = statusMatches 404 (notFoundFns deleteRequest)
      /\ HTTPErr_Exists e = statusMatches 404 (existsFns deleteRequest)
      /\ statusCode e = 404.
Proof.
  split.
  - apply (proj1 (do_classifies_status_mismatch nat string builtin _ plainRequest
                    jsonGetRequest HTTP.Background 0%nat 1%nat
                    (HTTP.mkResponse 500 (IO.NopCloser "oops")
                       (Some (HTTP.mkRequest
                                (URL.mk "http://example.com/foo" false "" "") "GET"
                                (Some {["Content-Type" := ["application/json"]]})
                                None HTTP.Background)))
                    (ex_intro _ _ (conj eq_refl eq_refl)) eq_refl)).
    reflexivity.
  - apply (proj2 (do_classifies_status_mismatch nat string builtin _ plainRequest
                    deleteRequest HTTP.Background 0%nat 1%nat
                    (HTTP.mkResponse 404 (IO.NopCloser "missing")
                       (Some (HTTP.mkRequest
                                (URL.mk "http://example.com/foo" false "" "") "DELETE"
                                (Some ∅) None HTTP.Background)))
                    (ex_intro _ _ (conj eq_refl eq_refl)) eq_refl)).
    reflexivity.
Defined.

(** X15: when the encode function fails, [do] returns a classified failure
    with the text of the encode error, status 0 and no retry flag, and the
    transport is not called (the state is unchanged); in the loop, the
    failure is returned after one attempt under every policy. *)
Theorem do_encode_error_is_final :
  forall (St V B : Type) (H : Backoffer B)
         (NewRequest : string -> string -> option IO.ReadCloser -> HTTP.Request + error)
         (r : Request (St := St) (V := V) (B := B)) (env : Env) (s : St) (fuel : nat)
         (v : V) (encode : EncodeFn) (err : error),
    body r = Some v -> encodeFn r = Some encode -> encode v = inr err ->
    exists e,
      (forall ctx, do NewRequest r ctx s
                   = mkDoResult (Returned (Some (httpError e))) s None None)
      /\ HTTPErr_Retry e = false
      /\ errMsg e = error_Error err
      /\ statusCode e = 0
      /\ Do NewRequest (S fuel) env r s
         = Some (mkRun (Returned (Some (httpError e))) s
                   [EvAttempt 0 (Returned (Some (httpError e)))]).
Proof.
  intros St V B H NewRequest r env s fuel v encode err Hbody Henc Herr.
  exists (mkHTTPErr "" URL.zero "" (error_Error err) "" "" 0 false false false).
  assert (Hdo : forall ctx,
             do NewRequest r ctx s
             = mkDoResult
                 (Returned
                    (Some (httpError
                             (mkHTTPErr "" URL.zero "" (error_Error err) "" "" 0
                                false false false))))
                 s None None).
  { intros ctx. unfold do, buildRequest. rewrite Hbody, Henc, Herr. reflexivity. }
  split; [exact Hdo |]. repeat split.
  unfold Do, retry. apply retry_loop_not_retryable; [| reflexivity].
  unfold attempt. rewrite Hdo. reflexivity.
Qed.

Lemma do_encode_error_is_final_witness :
  exists e,
    (forall ctx, do plainRequest unencodableRequest ctx 0%nat
                 = mkDoResult (Returned (Some (httpError e))) 0%nat None None)
    /\ HTTPErr_Retry e = false
    /\ errMsg e = "unsupported type"
    /\ statusCode e = 0
    /\ Do plainRequest 5 env0 unencodableRequest 0%nat
       = Some (mkRun (Returned (Some (httpError e))) 0%nat
                 [EvAttempt 0 (Returned (Some (httpError e)))]).
Proof.
  exact (do_encode_error_is_final nat string builtin _ plainRequest unencodableRequest
           env0 0%nat 4%nat "payload" (fun _ => inr (errorString "unsupported type"))
           (errorString "unsupported type") eq_refl eq_refl eq_refl).
Defined.

(** X16: when the transport returns an error, with no response or with a
    response from which [NewClientErr] can read, [do] returns a classified
    failure built from the error after the response-error transform (the
    error itself without a transform): it is retryable exactly when that
    error has a [Retry] method that returns true, and its message is the
    text of that error.  No [drain] runs on this path: a response the
    transport returned beside the error is read and not closed. *)
Theorem do_transport_error :
  forall (St V B : Type) (H : Backoffer B)
         (NewRequest : string -> string -> option IO.ReadCloser -> HTTP.Request + error)
         (r : Request (St := St) (V := V) (B := B)) (ctx : HTTP.Context) (s s' : St)
         (resp : option HTTP.Response) (err : error) (err' : option error),
    answers NewRequest r ctx s (DoError resp err) s' ->
    (forall rsp, resp = Some rsp -> jsonWithoutBody rsp = false) ->
    err' = match responseErrFn r with Some fn => fn err | None => Some err end ->
    exists e,
      do_out (do NewRequest r ctx s) = Returned (Some (httpError e))
      /\ HTTPErr_Retry e = isRetryErr err'
      /\ errMsg e = match err' with
                    | Some x => error_Error x
                    | None => "received unexpected response"
                    end
      /\ do_st (do NewRequest r ctx s) = s'
      /\ do_drain (do NewRequest r ctx s) = None
      /\ do_body (do NewRequest r ctx s) = (IO.consume ∘ HTTP.RespBody) <$> resp.
Proof.
  intros St V B H NewRequest r ctx s s' resp err err' Hans Hjson ->.
  rewrite (do_answers NewRequest r ctx s s' _ Hans). unfold afterDoer, responseErr.
  set (err' := match responseErrFn r with Some fn => fn err | None => Some err end).
  destruct (error_opts resp err') as (Oresp & Or & Oerr).
  match goal with |- context [NewClientErr ?l] => set (opts := l) in * end.
  destruct (NewClientErr_returns opts) as [e He].
  { rewrite Oresp. destruct resp as [rsp|]; [apply Hjson; reflexivity | exact I]. }
  destruct (NewClientErr_fields opts e He) as (Fr & _ & _ & _ & Fm & _).
  assert (Hbody : HTTP.RespBody <$> (NewClientErr opts).2
                  = (IO.consume ∘ HTTP.RespBody) <$> resp).
  { destruct resp as [rsp|].
    - destruct (NewClientErr_after opts rsp e Oresp He) as (rsp' & -> & Hb & _).
      simpl. rewrite Hb. reflexivity.
    - unfold NewClientErr. rewrite Oresp. reflexivity. }
  destruct (NewClientErr opts) as [e0 after]. simpl in He, Hbody. subst e0. exists e.
  split; [reflexivity |]. unfold HTTPErr_Retry. rewrite Fr, Fm, Or, Oerr. simpl.
  repeat split. exact Hbody.
Qed.

Lemma do_transport_error_witness :
  exists e,
    do_out (do plainRequest retriedTransportRequest HTTP.Background 0%nat)
    = Returned (Some (httpError e))
    /\ HTTPErr_Retry e = isRetryErr (Some (retrierError "connection refused" true))
    /\ errMsg e = "connection refused"
    /\ do_st (do plainRequest retriedTransportRequest HTTP.Background 0%nat) = 1%nat
    /\ do_drain (do plainRequest retriedTransportRequest HTTP.Background 0%nat) = None
    /\ do_body (do plainRequest retriedTransportRequest HTTP.Background 0%nat)
       = (IO.consume ∘ HTTP.RespBody) <$> None.
Proof.
  apply (do_transport_error nat string builtin _ plainRequest retriedTransportRequest
           HTTP.Background 0%nat 1%nat None (errorString "connection refused")
           (Some (retrierError "connection refused" true))).
  - apply answers_plainRequest; [reflexivity | intros req; reflexivity].
  - intros rsp Hr. discriminate Hr.
  - reflexivity.
Defined.

(** X17: when the status matches a success predicate, [do] returns nil
    without a decode function and when the decode function returns nil;
    when the decode function fails (and [NewClientErr] can read from the
    response), [do] returns a classified failure with the status and the
    text of the decode error, retryable exactly when the decode error has
    a [Retry] method that returns true. *)
Theorem do_success_path :
  forall (St V B : Type) (H : Backoffer B)
         (NewRequest : string -> string -> option IO.ReadCloser -> HTTP.Request + error)
         (r : Request (St := St) (V := V) (B := B)) (ctx : HTTP.Context) (s s' : St)
         (resp : HTTP.Response),
    answers NewRequest r ctx s (DoResponse resp) s' ->
    statusMatches (HTTP.StatusCode resp) (successFns r) = true ->
    (decodeFn r = None ->
     do_out (do NewRequest r ctx s) = Returned None /\ do_st (do NewRequest r ctx s) = s')
    /\ (forall decode k s2,
           decodeFn r = Some decode ->
           runDecoder decode (HTTP.RespBody resp) s' = (k, None, s2) ->
           do_out (do NewRequest r ctx s) = Returned None
           /\ do_st (do NewRequest r ctx s) = s2)
    /\ (forall decode k x s2,
           decodeFn r = Some decode ->
           runDecoder decode (HTTP.RespBody resp) s' = (k, Some x, s2) ->
           jsonWithoutBody resp = false ->
           exists e,
             do_out (do NewRequest r ctx s) = Returned (Some (httpError e))
             /\ HTTPErr_Retry e = isRetryErr (Some x)
             /\ errMsg e = error_Error x
             /\ statusCode e = HTTP.StatusCode resp
             /\ do_st (do NewRequest r ctx s) = s2).
Proof.
  intros St V B H NewRequest r ctx s s' resp Hans Hstatus.
  rewrite (do_answers NewRequest r ctx s s' _ Hans). unfold afterDoer, handleResponse.
  rewrite Hstatus. simpl negb. cbv iota.
  split; [| split].
  - intros ->. destruct (drain _). split; reflexivity.
  - intros decode k s2 -> ->. destruct (readN _ k) as [buf rest].
    destruct (drain _). split; reflexivity.
  - intros decode k x s2 -> -> Hjson. destruct (readN _ k) as [buf rest].
    destruct (error_opts (Some (HTTP.withBody resp rest)) (Some x)) as (Oresp & Or & Oerr).
    match goal with |- context [NewClientErr ?l] => set (opts := l) in * end.
    destruct (NewClientErr_returns opts) as [e He].
    { rewrite Oresp. exact Hjson. }
    destruct (NewClientErr_fields opts e He) as (Fr & _ & _ & _ & Fm & Fs).
    destruct (NewClientErr opts) as [e0 after]. simpl in He. subst e0.
    destruct (drain _). exists e. split; [reflexivity |].
    unfold HTTPErr_Retry. rewrite Fr, Fm, Fs, Or, Oerr, Oresp. repeat split.
Qed.

Lemma do_success_path_witness :
  do_out (do plainRequest getRequest HTTP.Background 0%nat) = Returned None
  /\ do_st (do plainRequest getRequest HTTP.Background 0%nat) = 1%nat.
Proof.
  apply (proj1 (do_success_path nat string builtin _ plainRequest getRequest
                  HTTP.Background 0%nat 1%nat
                  (HTTP.mkResponse 200
                     (IO.mkReadCloser "hello" None (Some "close failed"%string) false) None)
                  (answers_plainRequest getRequest HTTP.Background 0%nat 1%nat _ eq_refl
                     (fun req => eq_refl))
                  eq_refl)).
  reflexivity.
Defined.

(** X18: when the transport returned a response and the request has no
    error-body decoder, or the status matched a success predicate, [do]
    leaves the body of the response read to its end and closed, on the
    success path as on the failure paths, and also when it panics. *)
Theorem do_drains_and_closes :
  forall (St V B : Type) (H : Backoffer B)
         (NewRequest : string -> string -> option IO.ReadCloser -> HTTP.Request + error)
         (r : Request (St := St) (V := V) (B := B)) (ctx : HTTP.Context) (s s' : St)
         (resp : HTTP.Response),
    answers NewRequest r ctx s (DoResponse resp) s' ->
    statusMatches (HTTP.StatusCode resp) (successFns r) = true \/ onErrorFn r = None ->
    exists b,
      do_body (do NewRequest r ctx s) = Some b
      /\ IO.closed b = true
      /\ IO.pending b = "".
Proof.
  intros St V B H NewRequest r ctx s s' resp Hans Hcase.
  rewrite (do_answers NewRequest r ctx s s' _ Hans). unfold afterDoer, handleResponse.
  destruct (statusMatches (HTTP.StatusCode resp) (successFns r)) eqn:Hstatus;
    simpl negb; cbv iota.
  - destruct (decodeFn r) as [decode|].
    + destruct (runDecoder decode (HTTP.RespBody resp) s') as [[k err] s2].
      destruct (readN _ k) as [buf rest].
      destruct err as [x|].
      * destruct (NewClientErr _) as [e after].
        match goal with |- context [drain ?rc] =>
          pose proof (drain_consumed rc) as [Hc Hp]; destruct (drain rc) as [derr b0] end.
        exists b0. split; [reflexivity | split; assumption].
      * match goal with |- context [drain ?rc] =>
          pose proof (drain_consumed rc) as [Hc Hp]; destruct (drain rc) as [derr b0] end.
        exists b0. split; [reflexivity | split; assumption].
    + match goal with |- context [drain ?rc] =>
        pose proof (drain_consumed rc) as [Hc Hp]; destruct (drain rc) as [derr b0] end.
      exists b0. split; [reflexivity | split; assumption].
  - destruct Hcase as [Hc | ->]; [discriminate |].
    destruct (NewClientErr _) as [e after].
    match goal with |- context [drain ?rc] =>
      pose proof (drain_consumed rc) as [Hc Hp]; destruct (drain rc) as [derr b0] end.
    exists b0. split; [reflexivity | split; assumption].
Qed.

Lemma do_drains_and_closes_witness :
  exists b,
    do_body (do plainRequest deleteRequest HTTP.Background 0%nat) = Some b
    /\ IO.closed b = true
    /\ IO.pending b = "".
Proof.
  apply (do_drains_and_closes nat string builtin _ plainRequest deleteRequest
           HTTP.Background 0%nat 1%nat
           (HTTP.mkResponse 404 (IO.NopCloser "missing")
              (Some (HTTP.mkRequest (URL.mk "http://example.com/foo" false "" "") "DELETE"
                       (Some ∅) None HTTP.Background)))).
  - eexists. split; reflexivity.
  - right. reflexivity.
Defined.

(** X19: when the status matches no success predicate, the request has an
    error-body decoder and [NewClientErr] can read from the response, the
    response body the failure records is exactly the bytes the decoder
    read (the whole body when the decoder read to the end), the state is
    the one the decoder left, and the deferred [drain] runs on the
    replacement buffer: the stream the transport returned keeps the bytes
    the decoder did not read and is not closed by [do]. *)
Theorem do_on_error_replays_what_was_read :
  forall (St V B : Type) (H : Backoffer B)
         (NewRequest : string -> string -> option IO.ReadCloser -> HTTP.Request + error)
         (r : Request (St := St) (V := V) (B := B)) (ctx : HTTP.Context) (s s' s2 : St)
         (resp : HTTP.Response) (onError : DecodeFn) (k : nat) (err : option error),
    answers NewRequest r ctx s (DoResponse resp) s' ->
    statusMatches (HTTP.StatusCode resp) (successFns r) = false ->
    onErrorFn r = Some onError ->
    runDecoder onError (HTTP.RespBody resp) s' = (k, err, s2) ->
    jsonWithoutBody resp = false ->
    exists e,
      do_out (do NewRequest r ctx s) = Returned (Some (httpError e))
      /\ respBody e = (readN (HTTP.RespBody resp) k).1
      /\ ((String.length (IO.pending (HTTP.RespBody resp)) <= k)%nat ->
          respBody e = IO.pending (HTTP.RespBody resp))
      /\ (forall x, err = Some x -> errMsg e = error_Error x)
      /\ do_st (do NewRequest r ctx s) = s2
      /\ do_body (do NewRequest r ctx s) = Some (readN (HTTP.RespBody resp) k).2
      /\ IO.closed (readN (HTTP.RespBody resp) k).2 = IO.closed (HTTP.RespBody resp).
Proof.
  intros St V B H NewRequest r ctx s s' s2 resp onError k err Hans Hstatus Hon Hdec Hjson.
  rewrite (do_answers NewRequest r ctx s s' _ Hans). unfold afterDoer, handleResponse.
  rewrite Hstatus, Hon, Hdec. simpl negb. cbv iota.
  destruct (readN (HTTP.RespBody resp) k) as [buf rest] eqn:Hread.
  set (resp' := HTTP.withBody resp (IO.NopCloser buf)).
  destruct (mismatch_opts r resp' (HTTP.StatusCode resp) err) as (Oresp & _ & _ & _ & Oerr).
  match goal with |- context [NewClientErr ?l] => set (opts := l) in * end.
  destruct (NewClientErr_returns opts) as [e He].
  { rewrite Oresp. exact Hjson. }
  destruct (NewClientErr_fields opts e He) as (_ & _ & _ & _ & Fm & _).
  destruct (NewClientErr_after opts resp' e Oresp He) as (after & Hafter & _ & Hbody).
  specialize (Hbody eq_refl). simpl in Hbody.
  destruct (NewClientErr opts) as [e0 after']. simpl in He, Hafter. subst e0 after'.
  destruct (drain _) as [derr b0]. exists e.
  split; [reflexivity |]. split; [exact Hbody |].
  assert (Hbuf : buf = String.substring 0
                         (Nat.min k (String.length (IO.pending (HTTP.RespBody resp))))
                         (IO.pending (HTTP.RespBody resp))
                 /\ IO.closed rest = IO.closed (HTTP.RespBody resp)).
  { unfold readN in Hread. injection Hread as <- <-. split; reflexivity. }
  destruct Hbuf as [Hbuf Hclosed].
  split; [| split; [| split; [reflexivity | split; [reflexivity | exact Hclosed]]]].
  - intros Hk. rewrite Hbody, Hbuf, Nat.min_r by exact Hk. apply substring_all.
  - intros x Hx. rewrite Fm, Oerr, Hx. reflexivity.
Qed.

Lemma do_on_error_replays_what_was_read_witness :
  exists e,
    do_out (do plainRequest deleteRequestOnError HTTP.Background 0%nat)
    = Returned (Some (httpError e))
    /\ respBody e = "mis"
    /\ ((String.length "missing" <= 3)%nat -> respBody e = "missing")
    /\ (forall x, Some (errorString "invalid character") = Some x ->
                  errMsg e = error_Error x)
    /\ do_st (do plainRequest deleteRequestOnError HTTP.Background 0%nat) = 1%nat
    /\ do_body (do plainRequest deleteRequestOnError HTTP.Background 0%nat)
       = Some (IO.mkReadCloser "sing" None None false)
    /\ false = false.
Proof.
  apply (do_on_error_replays_what_was_read nat string builtin _ plainRequest
           deleteRequestOnError HTTP.Background 0%nat 1%nat 1%nat
           (HTTP.mkResponse 404 (IO.NopCloser "missing")
              (Some (HTTP.mkRequest (URL.mk "http://example.com/foo" false "" "") "DELETE"
                       (Some ∅) None HTTP.Background)))
           rejectingDecoder 3%nat (Some (errorString "invalid character"))).
  - eexists. split; reflexivity.
  - reflexivity.
  - reflexivity.
  - reflexivity.
  - reflexivity.
Defined.

(** ** Headers, query parameters and the builder *)

Lemma fold_Set_keeps (hs : list kvPair) (c : string) :
  (forall p, In p hs -> HTTP.CanonicalMIMEHeaderKey (key p) <> c) ->
  forall h : HTTP.Header,
    fold_left (fun h pair => HTTP.Set_ h (key pair) (value pair)) hs h !! c = h !! c.
Proof.
  induction hs as [|p hs IH]; intros Hne h; [reflexivity |].
  simpl. rewrite IH by (intros q Hq; apply Hne; right; exact Hq).
  unfold HTTP.Set_. apply lookup_insert_ne. apply Hne. left. reflexivity.
Qed.

Lemma applyHeaders_lookup (req : HTTP.Request) (hs hs' : list kvPair) (k v : string) :
  (forall p, In p hs' ->
             HTTP.CanonicalMIMEHeaderKey (key p) <> HTTP.CanonicalMIMEHeaderKey k) ->
  fold_left (fun h pair => HTTP.Set_ h (key pair) (value pair))
    (hs ++ mkKvPair k v :: hs') (default ∅ (HTTP.Header_ req))
  !! HTTP.CanonicalMIMEHeaderKey k = Some [v].
Proof.
  intros Hne. rewrite fold_left_app. simpl. rewrite fold_Set_keeps by exact Hne.
  unfold HTTP.Set_. apply lookup_insert_eq.
Qed.

Section Outgoing.

Context {St V B : Type} `{Backoffer B}.
Variable NewRequest : string -> string -> option IO.ReadCloser -> HTTP.Request + error.

(** When the body is encoded and [http.NewRequest] accepts the method and
    the address, [do] hands the transport the request it built step by
    step: the context, the headers, the parameters, the authorization. *)
Lemma buildRequest_steps (r : Request (St := St) (V := V) (B := B)) (ctx : HTTP.Context)
      (b : option IO.ReadCloser) (req0 : HTTP.Request) :
  encodes r b ->
  NewRequest (Method r) (Addr r) b = inl req0 ->
  let req := HTTP.mkRequest (HTTP.URL req0) (HTTP.Method req0) (HTTP.Header_ req0)
                            (HTTP.Body req0) ctx in
  let req := if 0 <? Z.of_nat (length (headers r))
             then applyHeaders req (headers r) else req in
  let req := if 0 <? Z.of_nat (length (params r))
             then applyParams req (params r) else req in
  buildRequest NewRequest r ctx
  = inl (match authFn r with Some auth => auth req | None => req end).
Proof.
  unfold encodes, buildRequest. intros Henc Hnew.
  destruct (body r) as [v|].
  - destruct Henc as (encode & rd & -> & -> & ->). rewrite Hnew. reflexivity.
  - subst b. rewrite Hnew. reflexivity.
Qed.

Lemma do_calls (r : Request (St := St) (V := V) (B := B)) (ctx : HTTP.Context)
      (req : HTTP.Request) :
  buildRequest NewRequest r ctx = inl req ->
  forall s, do NewRequest r ctx s = let '(res, s') := doer r req s in afterDoer r res s'.
Proof. intros Hreq s. unfold do. rewrite Hreq. reflexivity. Qed.

Lemma length_positive {A : Type} (l l' : list A) (x : A) :
  (0 <? Z.of_nat (length (l ++ x :: l'))) = true.
Proof. apply Z.ltb_lt. rewrite length_app. simpl. lia. Qed.

(** The header map of the request after the headers of the request were
    applied; the parameters do not touch it. *)
Lemma outgoing_header (r : Request (St := St) (V := V) (B := B)) (ctx : HTTP.Context)
      (req0 : HTTP.Request) (hs hs' : list kvPair) (k v : string) :
  headers r = hs ++ mkKvPair k v :: hs' ->
  HTTP.Header_
    (if 0 <? Z.of_nat (length (params r))
     then applyParams
            (if 0 <? Z.of_nat (length (headers r))
             then applyHeaders
                    (HTTP.mkRequest (HTTP.URL req0) (HTTP.Method req0) (HTTP.Header_ req0)
                       (HTTP.Body req0) ctx) (headers r)
             else HTTP.mkRequest (HTTP.URL req0) (HTTP.Method req0) (HTTP.Header_ req0)
                    (HTTP.Body req0) ctx)
            (params r)
     else if 0 <? Z.of_nat (length (headers r))
          then applyHeaders
                 (HTTP.mkRequest (HTTP.URL req0) (HTTP.Method req0) (HTTP.Header_ req0)
                    (HTTP.Body req0) ctx) (headers r)
          else HTTP.mkRequest (HTTP.URL req0) (HTTP.Method req0) (HTTP.Header_ req0)
                 (HTTP.Body req0) ctx)
  = Some (fold_left (fun h pair => HTTP.Set_ h (key pair) (value pair))
            (hs ++ mkKvPair k v :: hs') (default ∅ (HTTP.Header_ req0))).
Proof.
  intros ->. rewrite length_positive.
  destruct (0 <? Z.of_nat (length (params r))); reflexivity.
Qed.

(** X20: of the headers of a request, the last one set for a key wins, and
    keys are compared in their canonical form: without an authorization
    function, the request [do] hands to the transport holds for the key
    exactly the value of the last pair of the list whose key has the same
    canonical form.  [Header] adds its pair at the end of the list, behind
    the headers the request took from its client. *)
Theorem do_sends_last_header :
  forall (r : Request (St := St) (V := V) (B := B)) (ctx : HTTP.Context)
         (b : option IO.ReadCloser) (req0 : HTTP.Request) (hs hs' : list kvPair)
         (k v : string),
    encodes r b ->
    NewRequest (Method r) (Addr r) b = inl req0 ->
    is_Some (HTTP.Header_ req0) ->
    authFn r = None ->
    headers r = hs ++ mkKvPair k v :: hs' ->
    (forall p, In p hs' ->
               HTTP.CanonicalMIMEHeaderKey (key p) <> HTTP.CanonicalMIMEHeaderKey k) ->
    exists req h,
      (forall s, do NewRequest r ctx s
                 = let '(res, s') := doer r req s in afterDoer r res s')
      /\ HTTP.Header_ req = Some h
      /\ h !! HTTP.CanonicalMIMEHeaderKey k = Some [v]
      /\ HTTP.Get h k = v
      /\ forall k' v', headers (Request_Header r k' v') = headers r ++ [mkKvPair k' v'].
Proof.
  intros r ctx b req0 hs hs' k v Henc Hnew _ Hauth Hheaders Hne.
  pose proof (buildRequest_steps r ctx b req0 Henc Hnew) as Hbuild. cbv zeta in Hbuild.
  rewrite Hauth in Hbuild.
  pose proof (outgoing_header r ctx req0 hs hs' k v Hheaders) as Hh.
  pose proof (applyHeaders_lookup req0 hs hs' k v Hne) as Hl.
  eexists _, _. split; [exact (do_calls r ctx _ Hbuild) |].
  split; [exact Hh |]. split; [exact Hl |].
  split; [unfold HTTP.Get; rewrite Hl; reflexivity | reflexivity].
Qed.

Lemma fold_Set_params_keeps (ps : list kvPair) (k : string) :
  (forall p, In p ps -> key p <> k) ->
  forall q : URL.Values,
    fold_left (fun q kv => URL.Set_ q (key kv) (value kv)) ps q !! k = q !! k.
Proof.
  induction ps as [|p ps IH]; intros Hne q; [reflexivity |].
  simpl. rewrite IH by (intros p' Hp'; apply Hne; right; exact Hp').
  unfold URL.Set_. apply lookup_insert_ne. apply Hne. left. reflexivity.
Qed.

(** X21: the query of the request [do] hands to the transport is the
    encoding of the query of the address with the parameters set on top:
    without an authorization function, for a key, the value of the last
    parameter with that key replaces every value the address had for it,
    and a key no parameter names keeps the values of the address. *)
Theorem do_sends_last_param :
  forall (r : Request (St := St) (V := V) (B := B)) (ctx : HTTP.Context)
         (b : option IO.ReadCloser) (req0 : HTTP.Request) (ps ps' : list kvPair)
         (k v : string),
    encodes r b ->
    NewRequest (Method r) (Addr r) b = inl req0 ->
    is_Some (HTTP.Header_ req0) ->
    authFn r = None ->
    params r = ps ++ mkKvPair k v :: ps' ->
    (forall p, In p ps' -> key p <> k) ->
    exists req (q : URL.Values),
      (forall s, do NewRequest r ctx s
                 = let '(res, s') := doer r req s in afterDoer r res s')
      /\ URL.RawQuery (HTTP.URL req) = URL.Encode q
      /\ q !! k = Some [v]
      /\ URL.Get q k = v
      /\ forall k', (forall p, In p (params r) -> key p <> k') ->
                    q !! k' = URL.Query (HTTP.URL req0) !! k'.
Proof.
  intros r ctx b req0 ps ps' k v Henc Hnew _ Hauth Hparams Hne.
  pose proof (buildRequest_steps r ctx b req0 Henc Hnew) as Hbuild. cbv zeta in Hbuild.
  rewrite Hauth in Hbuild.
  rewrite Hparams in Hbuild at 1. rewrite length_positive in Hbuild.
  assert (Hurl : HTTP.URL
                   (if 0 <? Z.of_nat (length (headers r))
                    then applyHeaders
                           (HTTP.mkRequest (HTTP.URL req0) (HTTP.Method req0)
                              (HTTP.Header_ req0) (HTTP.Body req0) ctx) (headers r)
                    else HTTP.mkRequest (HTTP.URL req0) (HTTP.Method req0)
                           (HTTP.Header_ req0) (HTTP.Body req0) ctx)
                 = HTTP.URL req0)
    by (destruct (0 <? Z.of_nat (length (headers r))); reflexivity).
  assert (Hl : fold_left (fun q kv => URL.Set_ q (key kv) (value kv))
                 (ps ++ mkKvPair k v :: ps') (URL.Query (HTTP.URL req0)) !! k = Some [v]).
  { rewrite fold_left_app. simpl. rewrite fold_Set_params_keeps by exact Hne.
    unfold URL.Set_. apply lookup_insert_eq. }
  eexists _, (fold_left (fun q kv => URL.Set_ q (key kv) (value kv))
                (ps ++ mkKvPair k v :: ps') (URL.Query (HTTP.URL req0))).
  split; [exact (do_calls r ctx _ Hbuild) |].
  split; [unfold applyParams; simpl; rewrite Hurl, Hparams; reflexivity |].
  split; [exact Hl |]. split; [unfold URL.Get; rewrite Hl; reflexivity |].
  intros k' Hk'. apply fold_Set_params_keeps. rewrite <- Hparams. exact Hk'.
Qed.

Lemma canonical_Authorization :
  HTTP.CanonicalMIMEHeaderKey "Authorization" = "Authorization".
Proof. vm_compute. reflexivity. Qed.

(** X24: [do] applies the authorization function after the headers.  So a
    header [Authorization] among the headers of the request stays in
    front of the token of [BearerTokenAuth], which is added behind it, and
    reading the header of the request the transport receives gives the
    value that was set and not the token; [BasicAuth] replaces every
    value of the header by its own. *)
Theorem do_applies_auth_after_headers :
  forall (r : Request (St := St) (V := V) (B := B)) (ctx : HTTP.Context)
         (b : option IO.ReadCloser) (req0 : HTTP.Request) (hs hs' : list kvPair)
         (k v user pass token : string),
    encodes r b ->
    NewRequest (Method r) (Addr r) b = inl req0 ->
    is_Some (HTTP.Header_ req0) ->
    headers r = hs ++ mkKvPair k v :: hs' ->
    HTTP.CanonicalMIMEHeaderKey k = "Authorization" ->
    (forall p, In p hs' -> HTTP.CanonicalMIMEHeaderKey (key p) <> "Authorization") ->
    (authFn r = Some (BearerTokenAuth token) ->
     exists req h,
       (forall s, do NewRequest r ctx s
                  = let '(res, s') := doer r req s in afterDoer r res s')
       /\ HTTP.Header_ req = Some h
       /\ h !! "Authorization" = Some [v; "Bearer " +:+ token]
       /\ HTTP.Get h "Authorization" = v)
    /\ (authFn r = Some (BasicAuth user pass) ->
        exists req h,
          (forall s, do NewRequest r ctx s
                     = let '(res, s') := doer r req s in afterDoer r res s')
          /\ HTTP.Header_ req = Some h
          /\ h !! "Authorization" = Some ["Basic " +:+ base64 (user +:+ ":" +:+ pass)]
          /\ HTTP.Get h "Authorization" = "Basic " +:+ base64 (user +:+ ":" +:+ pass)).
Proof.
  intros r ctx b req0 hs hs' k v user pass token Henc Hnew _ Hheaders Hk Hne.
  pose proof (buildRequest_steps r ctx b req0 Henc Hnew) as Hbuild. cbv zeta in Hbuild.
  pose proof (outgoing_header r ctx req0 hs hs' k v Hheaders) as Hh.
  assert (Hne' : forall p, In p hs' ->
                   HTTP.CanonicalMIMEHeaderKey (key p) <> HTTP.CanonicalMIMEHeaderKey k)
    by (rewrite Hk; exact Hne).
  pose proof (applyHeaders_lookup req0 hs hs' k v Hne') as Hl. rewrite Hk in Hl.
  split; intros Hauth; rewrite Hauth in Hbuild.
  - eexists _, _. split; [exact (do_calls r ctx _ Hbuild) |].
    split; [reflexivity |].
    assert (Hadd : HTTP.Add
                     (fold_left (fun h pair => HTTP.Set_ h (key pair) (value pair))
                        (hs ++ mkKvPair k v :: hs') (default ∅ (HTTP.Header_ req0)))
                     "Authorization" ("Bearer " +:+ token)
                   !! "Authorization" = Some [v; "Bearer " +:+ token]).
    { unfold HTTP.Add. cbv zeta. rewrite canonical_Authorization, Hl.
      apply lookup_insert_eq. }
    rewrite Hh. split; [exact Hadd |].
    unfold HTTP.Get. rewrite canonical_Authorization.
    change (default ∅ (Some ?m)) with m. rewrite Hadd. reflexivity.
  - eexists _, _. split; [exact (do_calls r ctx _ Hbuild) |].
    split; [reflexivity |].
    assert (Hset : forall m : HTTP.Header,
               HTTP.Set_ m "Authorization" ("Basic " +:+ base64 (user +:+ ":" +:+ pass))
               !! "Authorization"
               = Some ["Basic " +:+ base64 (user +:+ ":" +:+ pass)]).
    { intros m. unfold HTTP.Set_. rewrite canonical_Authorization.
      apply lookup_insert_eq. }
    split; [apply Hset |].
    unfold HTTP.Get. rewrite canonical_Authorization, Hset. reflexivity.
Qed.

End Outgoing.

Lemma do_sends_last_header_witness :
  exists req h,
    (forall s,
        do plainRequest
          (Request_Header
             (Req (New (fun v : string => inl (IO.NopCloser v)) failingDoer
                     [WithHeader "Content-Type" "text/html"])
                "GET" "/foo")
             "content-type" "application/json")
          HTTP.Background s
        = let '(res, s') := failingDoer req s in
          afterDoer
            (Request_Header
               (Req (New (fun v : string => inl (IO.NopCloser v)) failingDoer
                       [WithHeader "Content-Type" "text/html"])
                  "GET" "/foo")
               "content-type" "application/json")
            res s')
    /\ HTTP.Header_ req = Some h
    /\ h !! HTTP.CanonicalMIMEHeaderKey "content-type" = Some ["application/json"]
    /\ HTTP.Get h "content-type" = "application/json"
    /\ forall k' v',
        headers
          (Request_Header
             (Request_Header
                (Req (New (fun v : string => inl (IO.NopCloser v)) failingDoer
                        [WithHeader "Content-Type" "text/html"])
                   "GET" "/foo")
                "content-type" "application/json")
             k' v')
        = headers
            (Request_Header
               (Req (New (fun v : string => inl (IO.NopCloser v)) failingDoer
                       [WithHeader "Content-Type" "text/html"])
                  "GET" "/foo")
               "content-type" "application/json")
          ++ [mkKvPair k' v'].
Proof.
  apply (do_sends_last_header plainRequest
           (Request_Header
              (Req (New (fun v : string => inl (IO.NopCloser v)) failingDoer
                      [WithHeader "Content-Type" "text/html"])
                 "GET" "/foo")
              "content-type" "application/json")
           HTTP.Background None
           (HTTP.mkRequest (URL.mk "/foo" false "" "") "GET" (Some ∅) None HTTP.Background)
           [mkKvPair "Content-Type" "text/html"] [] "content-type" "application/json").
  - reflexivity.
  - reflexivity.
  - eexists. reflexivity.
  - reflexivity.
  - reflexivity.
  - intros p [].
Defined.

Lemma do_sends_last_param_witness :
  exists req (q : URL.Values),
    (forall s,
        do (fun method addr body =>
              inl (HTTP.mkRequest
                     (URL.mk "http://example.com/foo" false "dupe=old&page=2" "")
                     method (Some ∅) body HTTP.Background))
          (QueryParam (QueryParam getRequest "dupe" "val1") "dupe" "val2") HTTP.Background s
        = let '(res, s') := closeFailingDoer req s in
          afterDoer (QueryParam (QueryParam getRequest "dupe" "val1") "dupe" "val2") res s')
    /\ URL.RawQuery (HTTP.URL req) = URL.Encode q
    /\ q !! "dupe" = Some ["val2"]
    /\ URL.Get q "dupe" = "val2"
    /\ forall k',
        (forall p, In p (params (QueryParam (QueryParam getRequest "dupe" "val1")
                                   "dupe" "val2")) -> key p <> k') ->
        q !! k'
        = URL.Query
            (HTTP.URL
               (HTTP.mkRequest
                  (URL.mk "http://example.com/foo" false "dupe=old&page=2" "")
                  "GET" (Some ∅) None HTTP.Background))
          !! k'.
Proof.
  apply (do_sends_last_param
           (fun method addr body =>
              inl (HTTP.mkRequest
                     (URL.mk "http://example.com/foo" false "dupe=old&page=2" "")
                     method (Some ∅) body HTTP.Background))
           (QueryParam (QueryParam getRequest "dupe" "val1") "dupe" "val2")
           HTTP.Background None
           (HTTP.mkRequest (URL.mk "http://example.com/foo" false "dupe=old&page=2" "")
              "GET" (Some ∅) None HTTP.Background)
           [mkKvPair "dupe" "val1"] [] "dupe" "val2").
  - reflexivity.
  - reflexivity.
  - eexists. reflexivity.
  - reflexivity.
  - reflexivity.
  - intros p [].
Defined.

Lemma do_applies_auth_after_headers_witness :
  exists req h,
    (forall s,
        do plainRequest
          (Request_Auth (Request_Header getRequest "authorization" "Token abc")
             (Some (BearerTokenAuth "t0k3n")))
          HTTP.Background s
        = let '(res, s') := closeFailingDoer req s in
          afterDoer
            (Request_Auth (Request_Header getRequest "authorization" "Token abc")
               (Some (BearerTokenAuth "t0k3n")))
            res s')
    /\ HTTP.Header_ req = Some h
    /\ h !! "Authorization" = Some ["Token abc"; "Bearer " +:+ "t0k3n"]
    /\ HTTP.Get h "Authorization" = "Token abc".
Proof.
  apply (proj1 (do_applies_auth_after_headers plainRequest
                  (Request_Auth (Request_Header getRequest "authorization" "Token abc")
                     (Some (BearerTokenAuth "t0k3n")))
                  HTTP.Background None
                  (HTTP.mkRequest (URL.mk "http://example.com/foo" false "" "") "GET"
                     (Some ∅) None HTTP.Background)
                  [] [] "authorization" "Token abc" "Aladdin" "open sesame" "t0k3n"
                  eq_refl eq_refl (ex_intro _ _ eq_refl) eq_refl eq_refl
                  (fun p (Hp : In p []) => match Hp with end))).
  reflexivity.
Defined.

Lemma pairUp_length (l : list string) : length (pairUp l) = (length l / 2)%nat.
Proof.
  assert (H : forall (n : nat) (l : list string),
             (length l <= n)%nat -> length (pairUp l) = (length l / 2)%nat).
  { clear. induction n as [|n IHn]; intros l Hl.
    - destruct l; [reflexivity | simpl in Hl; lia].
    - destruct l as [|a [|b' rest]]; [reflexivity | reflexivity |].
      simpl pairUp. simpl length. rewrite IHn by (simpl in Hl; lia).
      replace (S (S (length rest))) with (1 * 2 + length rest)%nat by lia.
      rewrite Nat.div_add_l by lia. lia. }
  apply (H (length l)). lia.
Qed.

Section BuilderFacts.

Context {St V B : Type}.

Local Abbreviation Req' := (Request (St := St) (V := V) (B := B)).

Lemma queryParamsLoop_spec (pairs : list string) (count : nat) :
  forall (index : nat) (r : Req'),
    (index + count = length pairs / 2)%nat ->
    exists r',
      queryParamsLoop count index pairs r = Some r'
      /\ params r' = params r ++ pairUp (drop (index * 2) pairs)
      /\ headers r' = headers r /\ Method r' = Method r /\ Addr r' = Addr r
      /\ body r' = body r.
Proof.
  induction count as [|count IH]; intros index r Hidx.
  - exists r. split; [reflexivity |].
    assert (Hshort : (length (drop (index * 2) pairs) < 2)%nat).
    { rewrite length_drop.
      pose proof (Nat.div_mod_eq (length pairs) 2) as Hdm.
      pose proof (Nat.mod_upper_bound (length pairs) 2). lia. }
    destruct (drop (index * 2) pairs) as [|a [|b' rest]]; simpl in Hshort; try lia;
      simpl; rewrite app_nil_r; repeat split.
  - simpl.
    assert (Hlt : (S (index * 2) < length pairs)%nat).
    { pose proof (Nat.div_mod_eq (length pairs) 2) as Hdm. lia. }
    destruct (lookup_lt_is_Some_2 pairs (index * 2)) as [k Hk]; [lia |].
    destruct (lookup_lt_is_Some_2 pairs (S (index * 2))) as [v Hv]; [lia |].
    rewrite Hk, Hv.
    destruct (IH (S index) (QueryParam r k v)) as (r' & Hloop & Hp & Hh & Hm & Ha & Hb);
      [lia |].
    exists r'. split; [exact Hloop |]. split; [| repeat split; assumption].
    rewrite Hp. simpl params. rewrite <- app_assoc. f_equal.
    rewrite (drop_S pairs k (index * 2) Hk), (drop_S pairs v (S (index * 2)) Hv).
    reflexivity.
Qed.

(** X22: [QueryParams(key, value, pairs...)] adds the first parameter and
    then the pairs in their order, leaves out a last key that has no
    value, never fails (the slice it takes is always in range), and
    leaves the method, the address, the headers and the body of the
    request as they were. *)
Theorem QueryParams_pairs :
  forall (r : Req') (k v : string) (pairs : list string),
    exists r',
      QueryParams r k v pairs = Some r'
      /\ params r' = params r ++ mkKvPair k v :: pairUp pairs
      /\ length (params r') = (length (params r) + 1 + length pairs / 2)%nat
      /\ headers r' = headers r /\ Method r' = Method r /\ Addr r' = Addr r
      /\ body r' = body r.
Proof.
  intros r k v pairs. unfold QueryParams.
  destruct (queryParamsLoop_spec pairs (length pairs / 2) 0 (QueryParam r k v))
    as (r' & Hloop & Hp & Hh & Hm & Ha & Hb); [reflexivity |].
  exists r'. split; [exact Hloop |].
  assert (Hparams : params r' = params r ++ mkKvPair k v :: pairUp pairs).
  { rewrite Hp. simpl. rewrite <- app_assoc. reflexivity. }
  split; [exact Hparams |]. split; [| repeat split; assumption].
  rewrite Hparams, length_app. cbn [length].
  rewrite pairUp_length. lia.
Qed.

End BuilderFacts.

(** ** The client and the authorization decorators *)

Section ClientFacts.

Context {St V : Type}.
Variable JSONEncode : EncodeFn (V := V).
Variable NewRequest : string -> string -> option IO.ReadCloser -> HTTP.Request + error.

(** X23: a request that has the backoff of a client made without options
    (the policy that never retries) is tried once: however the attempt
    ends, with success, with a failure of any kind or with a panic, [Do]
    ends the same way after that one invocation and never waits. *)
Theorem default_client_makes_one_attempt :
  forall (doer : Doer (St := St)) (r : Request (St := St) (V := V) (B := BackoffOptFn))
         (env : Env) (fuel : nat) (s : St),
    backoff r = c_backoff (New JSONEncode doer []) ->
    exists run,
      Do NewRequest (S fuel) env r s = Some run
      /\ attempts (trace run) = 1%nat
      /\ result run = do_out (do NewRequest r (HTTP.mkContext (Some 0)) s)
      /\ final run = do_st (do NewRequest r (HTTP.mkContext (Some 0)) s)
      /\ forall wait done, ~ In (EvWait wait done) (trace run).
Proof.
  intros doer r env fuel s Hb. unfold Do, retry. rewrite Hb. cbn [New fold_left c_backoff].
  cbn [retry_loop]. unfold attempt at 1.
  destruct (do_out (do NewRequest r (HTTP.mkContext (Some 0)) s)) as [[e|]|] eqn:Herr.
  - destruct (asRetrier e) as [[|]|] eqn:He; cbn.
    + eexists. repeat split. intros wait done [Hin | [Hin | []]]; discriminate Hin.
    + eexists. repeat split. intros wait done [Hin | []]; discriminate Hin.
    + eexists. repeat split. intros wait done [Hin | [Hin | []]]; discriminate Hin.
  - eexists. repeat split. intros wait done [Hin | []]; discriminate Hin.
  - eexists. repeat split. intros wait done [Hin | []]; discriminate Hin.
Qed.

(** X25: the address of a request is the base URL of the client followed
    by the given address, with one slash put between them exactly when
    the base URL does not end with a slash and the address does not begin
    with one.  So a client without a base URL makes every address begin
    with a slash, and a base URL ending with a slash joined to an address
    beginning with one keeps both slashes. *)
Theorem Req_joins_address :
  forall (c : Client (St := St) (V := V)) (method addr : string),
    let r := Req c method addr in
    (Addr r = baseURL c +:+ addr \/ Addr r = baseURL c +:+ "/" +:+ addr)
    /\ HasPrefix (Addr r) (baseURL c) = true
    /\ HasSuffix (Addr r) addr = true
    /\ (baseURL c = "" -> HasPrefix (Addr r) "/" = true)
    /\ (HasSuffix (baseURL c) "/" = true -> Addr r = baseURL c +:+ addr)
    /\ (HasPrefix addr "/" = true -> Addr r = baseURL c +:+ addr)
    /\ (HasSuffix (baseURL c) "/" = false -> HasPrefix addr "/" = false ->
        Addr r = baseURL c +:+ "/" +:+ addr)
    /\ Method r = method /\ headers r = c_headers c.
Proof.
  intros c method addr. cbn zeta. unfold Req. cbn [Addr Method headers].
  destruct (HasSuffix (baseURL c) "/") eqn:Hs, (HasPrefix addr "/") eqn:Hp;
    cbn [negb andb].
  - repeat split; try (intros; reflexivity); try (intros; discriminate);
      try (left; reflexivity); [apply HasPrefix_app | apply HasSuffix_app |].
    intros Hbase. rewrite Hbase. exact Hp.
  - repeat split; try (intros; reflexivity); try (intros; discriminate);
      try (left; reflexivity); [apply HasPrefix_app | apply HasSuffix_app |].
    intros Hbase. rewrite Hbase in Hs. discriminate Hs.
  - repeat split; try (intros; reflexivity); try (intros; discriminate);
      try (left; reflexivity); [apply HasPrefix_app | apply HasSuffix_app |].
    intros Hbase. rewrite Hbase. exact Hp.
  - repeat split; try (intros; discriminate); try (intros; reflexivity);
      try (right; reflexivity).
    + apply HasPrefix_app.
    + rewrite <- string_app_assoc. apply HasSuffix_app.
    + intros Hbase. rewrite Hbase. exact (HasPrefix_app "/" addr).
Qed.

End ClientFacts.

Lemma default_client_makes_one_attempt_witness :
  exists run,
    Do plainRequest 1 env0
       (Client_Get (New (fun v : string => inl (IO.NopCloser v)) failingDoer [])
          "http://example.com/foo") 0%nat = Some run
    /\ attempts (trace run) = 1%nat
    /\ result run
       = do_out (do plainRequest
                   (Client_Get (New (fun v : string => inl (IO.NopCloser v)) failingDoer [])
                      "http://example.com/foo")
                   (HTTP.mkContext (Some 0)) 0%nat)
    /\ final run
       = do_st (do plainRequest
                  (Client_Get (New (fun v : string => inl (IO.NopCloser v)) failingDoer [])
                     "http://example.com/foo")
                  (HTTP.mkContext (Some 0)) 0%nat)
    /\ forall wait done, ~ In (EvWait wait done) (trace run).
Proof.
  apply (default_client_makes_one_attempt (fun v : string => inl (IO.NopCloser v))
           plainRequest failingDoer).
  reflexivity.
Defined.

(** ** The two messages of a failure *)

(** X26: the full message of a failure begins with its condensed message:
    [Error()] is [BackoffMessage()] followed by the parts for the error
    text and the bodies, and the two are the same text when the failure
    holds neither an error text nor a body. *)
Theorem Error_extends_BackoffMessage :
  forall e : HTTPErr,
    HasPrefix (Error e).1 (BackoffMessage e).1 = true
    /\ ((errMsg e = "" /\ respBody e = "" /\ reqBody e = "") ->
        (Error e).1 = (BackoffMessage e).1)
    /\ (Error e).2 = (BackoffMessage e).2.
Proof.
  intros e. split; [| split].
  - rewrite Error_from_base. apply Join_prefix.
  - intros (Hm & Hr & Hq). rewrite Error_from_base, Hm, Hr, Hq. reflexivity.
  - unfold Error, BackoffMessage. destruct (errorBase e) as [base e']. reflexivity.
Qed.
